(** * serial_logger: the serial/TCP bridge of [serial_server.py]

    A shallow embedding of the multiplexing core of [serial_server.py]
    (classes [LineBuf], [Client], [Serial], functions [process_serial],
    [process_clients] and [run]) together with the properties its
    specification states about it.

    Python objects that the program mutates through several names (the
    [Client] objects, reachable from the [clients] dict and from the
    [ready_clients] and [remove_clients] lists) live in a heap and are
    referred to by reference.  The operating system (select, accept, recv,
    send, the serial device) is an oracle [Env] consulted once per loop
    iteration; every call the program makes to it is recorded in a trace. *)

From Stdlib Require Import ZArith List Lia String.
From Stdlib Require Import Strings.Byte Strings.Ascii DecimalString.
From stdpp Require Import base option list gmap.

Import ListNotations.
Local Open Scope Z_scope.

(** ** Bytes *)

Abbreviation bytes := (list byte).

#[global] Instance byte_eq_decision : EqDecision byte := Byte.byte_eq_dec.

(** The byte [b"\n"]. *)
Definition NL : byte := x0a.

(** [data.find(sub)] for a one-byte [sub]: the index of the first
    occurrence, [-1] when there is none. *)
Fixpoint find_from (sub : byte) (data : bytes) (start : Z) : Z :=
  match data with
  | [] => -1
  | b :: rest => if decide (b = sub) then start else find_from sub rest (start + 1)
  end.

Definition bytes_find (data : bytes) (sub : byte) : Z := find_from sub data 0.

(** [data[lo:hi]] and [data[lo:]] for indices that are not negative. *)
Definition slice (data : bytes) (lo hi : Z) : bytes :=
  take (Z.to_nat hi - Z.to_nat lo)%nat (drop (Z.to_nat lo) data).

Definition slice_from (data : bytes) (lo : Z) : bytes :=
  drop (Z.to_nat lo) data.

(** ** io.BytesIO

    The part of Python's [io.BytesIO] the program uses.  A stream is its
    contents and its position.  [BytesIO(initial)] starts at position 0
    whatever [initial] is; [write] stores at the position, over the bytes
    that are there, and moves the position past what it wrote;
    [getvalue] is the whole contents, wherever the position is. *)
Module BytesIO.

Record t : Type := mk { value : bytes; pos : nat }.

Definition new (initial : bytes) : t := mk initial 0.

Definition getvalue (self : t) : bytes := value self.

Definition write (self : t) (data : bytes) : t :=
  match data with
  | [] => self
  | _ =>
      let padded := value self ++ replicate (pos self - length (value self)) x00 in
      mk (take (pos self) padded ++ data ++ drop (pos self + length data) padded)
         (pos self + length data)
  end.

End BytesIO.

(** ** class LineBuf *)
Module LineBuf.

Record t : Type := mk { buf : BytesIO.t }.

(** [__init__] *)
Definition init : t := mk (BytesIO.new []).

Definition write (self : t) (data : bytes) : t :=
  mk (BytesIO.write (buf self) data).

(** [readline] returns the line, or [None], and the object as it is
    after the call. *)
Definition readline (self : t) : option bytes * t :=
  let data := BytesIO.getvalue (buf self) in
  let pos := bytes_find data NL in
  if decide (pos = -1) then (None, self)
  else
    let line := slice data 0 (pos + 1) in
    (Some line, mk (BytesIO.new (slice_from data (pos + 1)))).

End LineBuf.

(** ** Sockets, the serial device and the operating system *)

(** A socket object: its descriptor, and whether [close] was called on it. *)
Module Socket.

Record t : Type := mk { fd : Z; closed : bool }.

Definition fileno (self : t) : Z := if closed self then -1 else fd self.

Definition close (self : t) : t := mk (fd self) true.

End Socket.

(** The address [accept] returns with a connection: host and port. *)
Definition Addr : Type := string * Z.

(** What [sock.recv(1024)] does: it returns bytes (none at end of stream)
    or raises [OSError]. *)
Inductive recv_result : Type :=
| RecvBytes (data : bytes)
| RecvOSError.

(** What [sock.send(data)] does: it returns how many bytes it took, or
    raises [OSError]. *)
Inductive send_result : Type :=
| SendCount (n : nat)
| SendOSError.

(** What the operating system answers during one iteration of the loop of
    [run].  In one iteration the program calls [select] once, [accept] at
    most once, reads the serial device at most once, and calls [recv] and
    [send] at most once on each socket.  [accept_result] is the descriptor
    of the socket that [accept] returns, and the peer's address. *)
Record Env : Type := mkEnv {
  select_readable : list Z;
  accept_result : Z * Addr;
  dev_read : bytes;
  sock_recv_result : Z -> recv_result;
  sock_send_result : Z -> bytes -> send_result
}.

(** The calls the program makes to the outside; the trace has them in the
    order in which they are made.
    - [Accept fd]: [serversocket.accept()], which returned the socket [fd];
    - [DevRead data]: [ser.dev.read()], which returned [data];
    - [StdoutWriteDecoded data]:
      [sys.stdout.write(data.decode("utf-8", "backslashreplace"))];
    - [SockSend fd data res]: [sock.send(data)] on the socket [fd];
    - [SockRecv fd res]: [sock.recv(1024)] on the socket [fd];
    - [DevWrite data]: [ser.dev.write(data)];
    - [SockClose fd]: [sock.close()] on the socket [fd]. *)
Inductive event : Type :=
| Accept (fd : Z)
| DevRead (data : bytes)
| StdoutWriteDecoded (data : bytes)
| SockSend (fd : Z) (data : bytes) (res : send_result)
| SockRecv (fd : Z) (res : recv_result)
| DevWrite (data : bytes)
| SockClose (fd : Z).

(** The Python exceptions the program can meet. *)
Inductive exn : Type :=
| OSError
| AttributeError
| KeyError (key : Z).

(** The ways the model itself can fail; no Python program does: a
    reference to no object, and a loop cut short by its fuel. *)
Inductive fault : Type :=
| DanglingReference
| OutOfFuel.

Inductive outcome (A : Type) : Type :=
| Return (a : A)
| Raise (e : exn)
| Fault (f : fault).

Arguments Return {A} a.
Arguments Raise {A} e.
Arguments Fault {A} f.

(** ** Objects and the world *)

Module ClientObj.
Record t : Type := mk { sock : Socket.t; addr : Addr; buf : LineBuf.t }.
End ClientObj.

Module SerialObj.
(** [dev] is the pyserial device, known by its descriptor. *)
Record t : Type := mk { dev : Z; buf : LineBuf.t }.
End SerialObj.

(** The heap of [Client] objects, the one [Serial] object, and the trace. *)
Record World : Type := mkWorld {
  heap : gmap nat ClientObj.t;
  ser : SerialObj.t;
  trace : list event
}.

(** A Python [dict] from descriptors to [Client] references.  It keeps
    insertion order. *)
Abbreviation Dict := (list (Z * nat)).

Fixpoint dict_set (d : Dict) (k : Z) (v : nat) : Dict :=
  match d with
  | [] => [(k, v)]
  | (k', v') :: d' =>
      if decide (k' = k) then (k, v) :: d' else (k', v') :: dict_set d' k v
  end.

(** [del d[k]]: [None] stands for the [KeyError]. *)
Fixpoint dict_del (d : Dict) (k : Z) : option Dict :=
  match d with
  | [] => None
  | (k', v') :: d' =>
      if decide (k' = k) then Some d'
      else match dict_del d' k with
           | Some d'' => Some ((k', v') :: d'')
           | None => None
           end
  end.

Definition dict_keys (d : Dict) : list Z := fst <$> d.
Definition dict_values (d : Dict) : list nat := snd <$> d.
Definition dict_items (d : Dict) : list (Z * nat) := d.

(** ** The monad of the program: state, trace and exceptions *)

Definition M (A : Type) : Type := World -> outcome A * World.

Definition ret {A : Type} (a : A) : M A := fun w => (Return a, w).

Definition bind {A B : Type} (m : M A) (k : A -> M B) : M B :=
  fun w =>
    match m w with
    | (Return a, w') => k a w'
    | (Raise e, w') => (Raise e, w')
    | (Fault f, w') => (Fault f, w')
    end.

Definition raise {A : Type} (e : exn) : M A := fun w => (Raise e, w).

Definition model_fault {A : Type} (f : fault) : M A := fun w => (Fault f, w).

(** [try: m  except OSError: handler] *)
Definition try_except_OSError {A : Type} (m : M A) (handler : M A) : M A :=
  fun w =>
    match m w with
    | (Raise OSError, w') => handler w'
    | r => r
    end.

Declare Scope prog_scope.
Delimit Scope prog_scope with prog.
Notation "x <- m ;; k" := (bind m (fun x => k))
  (at level 100, m at next level, right associativity) : prog_scope.
Notation "m ;; k" := (bind m (fun _ => k))
  (at level 100, right associativity) : prog_scope.
Local Open Scope prog_scope.

Definition emit (ev : event) : M unit :=
  fun w => (Return tt, mkWorld (heap w) (ser w) (trace w ++ [ev])).

Definition deref (r : nat) : M ClientObj.t :=
  fun w =>
    match heap w !! r with
    | Some c => (Return c, w)
    | None => (Fault DanglingReference, w)
    end.

Definition assign (r : nat) (c : ClientObj.t) : M unit :=
  fun w => (Return tt, mkWorld (<[r := c]> (heap w)) (ser w) (trace w)).

Definition new_object (c : ClientObj.t) : M nat :=
  fun w =>
    let r := fresh (dom (heap w)) in
    (Return r, mkWorld (<[r := c]> (heap w)) (ser w) (trace w)).

Definition get_ser : M SerialObj.t := fun w => (Return (ser w), w).

Definition set_ser (s : SerialObj.t) : M unit :=
  fun w => (Return tt, mkWorld (heap w) s (trace w)).

(** [for x in l: body(x)] *)
Fixpoint for_each {A : Type} (l : list A) (body : A -> M unit) : M unit :=
  match l with
  | [] => ret tt
  | x :: rest => body x ;; for_each rest body
  end.

(** [sock.recv(1024)] and [sock.send(data)]; both raise [OSError] on a
    closed socket. *)
Definition sock_recv (env : Env) (s : Socket.t) : M bytes :=
  if Socket.closed s then raise OSError
  else
    let res := sock_recv_result env (Socket.fd s) in
    emit (SockRecv (Socket.fd s) res) ;;
    match res with
    | RecvBytes data => ret data
    | RecvOSError => raise OSError
    end.

Definition sock_send (env : Env) (s : Socket.t) (data : bytes) : M nat :=
  if Socket.closed s then raise OSError
  else
    let res := sock_send_result env (Socket.fd s) data in
    emit (SockSend (Socket.fd s) data res) ;;
    match res with
    | SendCount n => ret n
    | SendOSError => raise OSError
    end.

(** Python's truth value of a bytes object. *)
Definition truthy (data : bytes) : bool :=
  match data with [] => false | _ => true end.

(** ** class Client *)
Module Client.

(** [__init__] *)
Definition init (sock : Socket.t) (addr : Addr) : ClientObj.t :=
  ClientObj.mk sock addr LineBuf.init.

Definition read (env : Env) (self : nat) : M (option bytes) :=
  c <- deref self ;;
  received <- try_except_OSError
                (data <- sock_recv env (ClientObj.sock c) ;; ret (Some data))
                (ret None) ;;
  match received with
  | None => ret None
  | Some data =>
      if truthy data then
        assign self (ClientObj.mk (ClientObj.sock c) (ClientObj.addr c)
                       (LineBuf.write (ClientObj.buf c) data)) ;;
        ret (Some data)
      else ret None
  end.

Definition readline (self : nat) : M (option bytes) :=
  c <- deref self ;;
  let (line, b) := LineBuf.readline (ClientObj.buf c) in
  assign self (ClientObj.mk (ClientObj.sock c) (ClientObj.addr c) b) ;;
  ret line.

Definition write (env : Env) (self : nat) (data : bytes) : M unit :=
  c <- deref self ;;
  try_except_OSError
    (sock_send env (ClientObj.sock c) data ;; ret tt)
    (ret tt).

Definition fileno (self : nat) : M Z :=
  c <- deref self ;;
  ret (Socket.fileno (ClientObj.sock c)).

Definition close (self : nat) : M unit :=
  c <- deref self ;;
  emit (SockClose (Socket.fd (ClientObj.sock c))) ;;
  assign self (ClientObj.mk (Socket.close (ClientObj.sock c)) (ClientObj.addr c)
                 (ClientObj.buf c)).

End Client.

(** ** class Serial *)
Module Serial.

(** [__init__] *)
Definition init (dev : Z) : SerialObj.t := SerialObj.mk dev LineBuf.init.

Definition read (env : Env) : M (option bytes) :=
  let data := dev_read env in
  emit (DevRead data) ;;
  if truthy data then
    s <- get_ser ;;
    set_ser (SerialObj.mk (SerialObj.dev s) (LineBuf.write (SerialObj.buf s) data)) ;;
    ret (Some data)
  else ret None.

Definition readline : M (option bytes) :=
  s <- get_ser ;;
  let (line, b) := LineBuf.readline (SerialObj.buf s) in
  set_ser (SerialObj.mk (SerialObj.dev s) b) ;;
  ret line.

Definition write (data : bytes) : M unit := emit (DevWrite data).

Definition fileno : M Z :=
  s <- get_ser ;;
  ret (SerialObj.dev s).

End Serial.

(** ** process_serial, process_clients, run *)

Definition process_serial (env : Env) (clients : Dict) : M unit :=
  data <- Serial.read env ;;
  match data with
  | None => raise AttributeError
  | Some data =>
      emit (StdoutWriteDecoded data) ;;
      for_each (dict_values clients) (fun c => Client.write env c data)
  end.

(** [while line := c.readline(): ser.write(line)].  Every turn of the loop
    takes at least one byte out of the buffer of [c], so one unit of fuel
    per buffered byte, and one more, is enough ([forward_lines]). *)
Fixpoint while_readline (fuel : nat) (c : nat) : M unit :=
  match fuel with
  | O => model_fault OutOfFuel
  | S fuel' =>
      line <- Client.readline c ;;
      match line with
      | Some (b :: l) => Serial.write (b :: l) ;; while_readline fuel' c
      | _ => ret tt
      end
  end.

Definition forward_lines (c : nat) : M unit :=
  o <- deref c ;;
  while_readline (S (length (BytesIO.getvalue (LineBuf.buf (ClientObj.buf o))))) c.

(** The body of [for c in clients] in [process_clients]: [true] when [c]
    is appended to [remove_clients]. *)
Definition process_client (env : Env) (c : nat) : M bool :=
  data <- Client.read env c ;;
  match data with
  | Some (_ :: _) => forward_lines c ;; ret false
  | _ => ret true
  end.

Fixpoint process_clients_from (env : Env) (clients : list nat)
    (remove_clients : list nat) : M (list nat) :=
  match clients with
  | [] => ret remove_clients
  | c :: rest =>
      remove <- process_client env c ;;
      process_clients_from env rest
        (if remove : bool then remove_clients ++ [c] else remove_clients)
  end.

Definition process_clients (env : Env) (clients : list nat) : M (list nat) :=
  process_clients_from env clients [].

(** [fds.append(c.sock.fileno())] for every [c] of [clients.values()]. *)
Fixpoint append_filenos (fds : list Z) (cs : list nat) : M (list Z) :=
  match cs with
  | [] => ret fds
  | c :: rest =>
      o <- deref c ;;
      append_filenos (fds ++ [Socket.fileno (ClientObj.sock o)]) rest
  end.

(** [r, w, x = select.select(fds, [], [])]: the descriptors of [fds] that
    the system reports readable. *)
Definition select (env : Env) (fds : list Z) : list Z :=
  filter (fun fd => fd ∈ fds) (select_readable env).

(** [del clients[k]] *)
Definition del_item (clients : Dict) (k : Z) : M Dict :=
  match dict_del clients k with
  | Some clients' => ret clients'
  | None => raise (KeyError k)
  end.

(** [for c in remove_clients: del clients[c.fileno()]] *)
Fixpoint delete_clients (remove_clients : list nat) (clients : Dict) : M Dict :=
  match remove_clients with
  | [] => ret clients
  | c :: rest =>
      k <- Client.fileno c ;;
      clients' <- del_item clients k ;;
      delete_clients rest clients'
  end.

(** One turn of [while True] in [run]. *)
Definition run_iteration (serversocket : Socket.t) (env : Env) (clients : Dict) : M Dict :=
  ser_fd <- Serial.fileno ;;
  fds <- append_filenos [Socket.fileno serversocket; ser_fd] (dict_values clients) ;;
  let r := select env fds in
  clients <-
    (if decide (Socket.fileno serversocket ∈ r) then
       let (fd, addr) := accept_result env in
       let sock := Socket.mk fd false in
       emit (Accept fd) ;;
       c <- new_object (Client.init sock addr) ;;
       ret (dict_set clients (Socket.fileno sock) c)
     else ret clients) ;;
  ser_fd <- Serial.fileno ;;
  (if decide (ser_fd ∈ r) then process_serial env clients else ret tt) ;;
  let ready_clients :=
    snd <$> filter (fun item => fst item ∈ r) (dict_items clients) in
  remove_clients <- process_clients env ready_clients ;;
  delete_clients remove_clients clients.

(** [run]: the loop, for as many turns as the system has answers. *)
Fixpoint run_from (serversocket : Socket.t) (envs : list Env) (clients : Dict) : M Dict :=
  match envs with
  | [] => ret clients
  | env :: rest =>
      clients' <- run_iteration serversocket env clients ;;
      run_from serversocket rest clients'
  end.

Definition run (serversocket : Socket.t) (envs : list Env) : M Dict :=
  run_from serversocket envs [].


(** ** Using a LineBuf: appending chunks, taking lines *)

(** [for chunk in chunks: b.write(chunk)] *)
Definition write_all (b : LineBuf.t) (chunks : list bytes) : LineBuf.t :=
  foldl LineBuf.write b chunks.

(** [n] calls of [readline] in a row: what each returned, and the buffer
    after the last. *)
Fixpoint readlines (n : nat) (b : LineBuf.t) : list (option bytes) * LineBuf.t :=
  match n with
  | O => ([], b)
  | S n' =>
      let (line, b') := LineBuf.readline b in
      let (results, b'') := readlines n' b' in
      (line :: results, b'')
  end.

(** The newline-terminated lines of [data], each with its newline, and the
    bytes after the last newline. *)
Fixpoint split_lines (data : bytes) : list bytes * bytes :=
  match data with
  | [] => ([], [])
  | b :: rest =>
      let (lines, tail) := split_lines rest in
      if decide (b = NL) then ([b] :: lines, tail)
      else match lines with
           | [] => ([], b :: tail)
           | l :: lines' => ((b :: l) :: lines', tail)
           end
  end.

(** How many newline bytes [data] has. *)
Definition count_newlines (data : bytes) : nat :=
  length (filter (fun b => b = NL) data).

(** A line as [readline] returns it: bytes other than newline, then one
    newline. *)
Definition is_line (l : bytes) : Prop :=
  exists body, l = body ++ [NL] /\ NL ∉ body.

(** [o] with its [buf] attribute set to [b]. *)
Definition set_buf (o : ClientObj.t) (b : LineBuf.t) : ClientObj.t :=
  ClientObj.mk (ClientObj.sock o) (ClientObj.addr o) b.

(** The bytes a client's buffer holds. *)
Definition buffered (o : ClientObj.t) : bytes :=
  BytesIO.getvalue (LineBuf.buf (ClientObj.buf o)).

(** The buffer [b] once [while line := readline()] has run on it. *)
Definition drained (b : LineBuf.t) : LineBuf.t :=
  match fst (split_lines (BytesIO.getvalue (LineBuf.buf b))) with
  | [] => b
  | _ :: _ => LineBuf.mk (BytesIO.new (snd (split_lines (BytesIO.getvalue (LineBuf.buf b)))))
  end.

(** ** The registry and the clients in it *)

(** The [clients] dict of [run] in the world [w]: no descriptor is
    registered twice, and each is registered with a [Client] object whose
    socket has that descriptor and is open. *)
Definition open_clients (items : list (Z * nat)) (w : World) : Prop :=
  forall k c, (k, c) ∈ items ->
    exists o, heap w !! c = Some o /\ ClientObj.sock o = Socket.mk k false.

Definition registered (clients : Dict) (w : World) : Prop :=
  NoDup (dict_keys clients) /\ open_clients (dict_items clients) w.

(** What [Client.read] returns for the socket with descriptor [k]: the
    bytes received, or [None] at end of stream and on [OSError]. *)
Definition received (env : Env) (k : Z) : option bytes :=
  match sock_recv_result env k with
  | RecvBytes (b :: l) => Some (b :: l)
  | _ => None
  end.

(** The client object [o], with descriptor [k], after its turn in
    [process_clients], and the calls made during that turn. *)
Definition client_after (env : Env) (k : Z) (o : ClientObj.t) : ClientObj.t :=
  match received env k with
  | Some data => set_buf o (drained (LineBuf.write (ClientObj.buf o) data))
  | None => o
  end.

Definition client_events (env : Env) (k : Z) (o : ClientObj.t) : list event :=
  SockRecv k (sock_recv_result env k) ::
  match received env k with
  | Some data =>
      DevWrite <$>
        fst (split_lines (BytesIO.getvalue (LineBuf.buf (LineBuf.write (ClientObj.buf o) data))))
  | None => []
  end.

(** No client of the registry has a newline in its buffer. *)
Definition no_pending_line (clients : Dict) (w : World) : Prop :=
  forall k c o, (k, c) ∈ clients -> heap w !! c = Some o -> NL ∉ buffered o.


(** The descriptors [select] reports in the iteration that starts in the
    world [w] with the registry [clients]. *)
Definition ready_set (serversocket : Socket.t) (env : Env) (clients : Dict)
    (w : World) : list Z :=
  select env ([Socket.fileno serversocket; SerialObj.dev (ser w)] ++ dict_keys clients).

(** The item of the registry is one that the iteration removes: its
    socket is reported readable and reading it gives nothing. *)
Definition disconnecting (env : Env) (r : list Z) (it : Z * nat) : Prop :=
  received env (fst it) = None /\ fst it ∈ r.

#[global] Instance disconnecting_dec (env : Env) (r : list Z) (it : Z * nat) :
  Decision (disconnecting env r it).
Proof. unfold disconnecting. apply _. Defined.


(** ** A bridge with two clients

    The listening socket has descriptor 4 and the serial device 3.  Two
    clients are connected, on the descriptors 7 and 8. *)

Definition AT_CR : bytes := [x41; x54; x0d].
Definition ping : bytes := [x70; x69; x6e; x67; x0a].
Definition pong : bytes := [x70; x6f; x6e; x67; x0a].

Definition serversocket0 : Socket.t := Socket.mk 4 false.

Definition client7 : ClientObj.t := Client.init (Socket.mk 7 false) ("10.0.0.7"%string, 40007).
Definition client8 : ClientObj.t := Client.init (Socket.mk 8 false) ("10.0.0.8"%string, 40008).

Definition clients0 : Dict := [(7, 0%nat); (8, 1%nat)].

Definition world0 : World :=
  mkWorld (<[0%nat := client7]> (<[1%nat := client8]> ∅)) (Serial.init 3) [].

(** The world in which the client on descriptor 7 has sent [b"AT\r"] and
    no newline yet. *)
Definition world_partial : World :=
  mkWorld (<[0%nat := set_buf client7 (LineBuf.write LineBuf.init AT_CR)]>
             (<[1%nat := client8]> ∅))
    (Serial.init 3) [].

(** Answers of the system: [ready] is readable, the serial device has
    [serial_data], every socket has [from] to read and takes all it is
    sent. *)
Definition env_of (ready : list Z) (serial_data : bytes) (from : Z -> recv_result) : Env :=
  mkEnv ready (9, ("10.0.0.9"%string, 40009)) serial_data from
    (fun _ data => SendCount (length data)).




(** Answers of the system when a connection is pending on the listening
    socket: [accept] returns a socket with the descriptor [fd]. *)
Definition env_accept (fd : Z) : Env :=
  mkEnv [4] (fd, ("10.0.0.9"%string, 40009)) [] (fun _ => RecvBytes [])
    (fun _ data => SendCount (length data)).

(** Answers of a system on which every client socket fails: [recv] and
    [send] raise [OSError]. *)
Definition env_broken : Env :=
  mkEnv [3; 7; 8] (9, ("10.0.0.9"%string, 40009)) pong
    (fun _ => RecvOSError) (fun _ _ => SendOSError).


(** ** The calls of a program *)

(** Whatever [m] returns or raises, every call it makes is one that [P]
    allows. *)
Definition emits (P : event -> Prop) {A : Type} (m : M A) : Prop :=
  forall w, exists evs, trace (snd (m w)) = trace w ++ evs /\ Forall P evs.

(** The calls of [m] are calls that [P] allows, followed by calls that [Q]
    allows. *)
Definition emits_then (P Q : event -> Prop) {A : Type} (m : M A) : Prop :=
  forall w, exists evs1 evs2,
    trace (snd (m w)) = trace w ++ evs1 ++ evs2 /\ Forall P evs1 /\ Forall Q evs2.

(** The calls of the first part of an iteration, up to the broadcast, and
    of the second, in which the clients are read. *)
Definition first_phase (e : event) : Prop :=
  match e with
  | Accept _ | DevRead _ | StdoutWriteDecoded _ | SockSend _ _ _ => True
  | _ => False
  end.

Definition second_phase (e : event) : Prop :=
  match e with
  | SockRecv _ _ | DevWrite _ => True
  | _ => False
  end.


(** ** What an iteration does, as a function of what it is given *)

(** The calls of the turn of the item [it] of the registry in
    [process_clients], the clients being those of the heap [h]. *)
Definition turn_events (env : Env) (h : gmap nat ClientObj.t) (it : Z * nat) : list event :=
  match h !! snd it with
  | Some o => client_events env (fst it) o
  | None => []
  end.

(** The registry and the heap once the pending connection is accepted,
    when the listening socket is readable. *)
Definition registry_after_accept (serversocket : Socket.t) (env : Env)
    (clients : Dict) (w : World) : Dict :=
  if decide (Socket.fileno serversocket ∈ ready_set serversocket env clients w)
  then dict_set clients (fst (accept_result env)) (fresh (dom (heap w)))
  else clients.

Definition heap_after_accept (serversocket : Socket.t) (env : Env)
    (clients : Dict) (w : World) : gmap nat ClientObj.t :=
  if decide (Socket.fileno serversocket ∈ ready_set serversocket env clients w)
  then <[fresh (dom (heap w)) :=
           Client.init (Socket.mk (fst (accept_result env)) false) (snd (accept_result env))]>
         (heap w)
  else heap w.

(** The calls of an iteration that returns normally: the accept, the read
    of the serial device with the echo and the broadcast, the turns of the
    readable clients. *)
Definition iteration_events (serversocket : Socket.t) (env : Env)
    (clients : Dict) (w : World) : list event :=
  let r := ready_set serversocket env clients w in
  let clients1 := registry_after_accept serversocket env clients w in
  (if decide (Socket.fileno serversocket ∈ r) then [Accept (fst (accept_result env))] else []) ++
  (if decide (SerialObj.dev (ser w) ∈ r)
   then [DevRead (dev_read env); StdoutWriteDecoded (dev_read env)] ++
        ((fun k => SockSend k (dev_read env) (sock_send_result env k (dev_read env)))
           <$> dict_keys clients1)
   else []) ++
  flat_map (turn_events env (heap_after_accept serversocket env clients w))
    (filter (fun item => fst item ∈ r) clients1).


(** ** Reading a trace *)

(** The descriptors on which [recv] was called, in the order of the calls. *)
Definition recv_descriptors (evs : list event) : list Z :=
  omap (fun e => match e with SockRecv k _ => Some k | _ => None end) evs.

(** The descriptors [accept] returned. *)
Definition accepted_descriptors (evs : list event) : list Z :=
  omap (fun e => match e with Accept k => Some k | _ => None end) evs.

(** [e] is not a write to the serial device of anything but one line. *)
Definition writes_whole_lines (e : event) : Prop :=
  match e with
  | DevWrite data => is_line data
  | _ => True
  end.

(** The bytes the [Serial] object of the world [w] has buffered. *)
Definition serial_buffered (w : World) : bytes :=
  BytesIO.getvalue (LineBuf.buf (SerialObj.buf (ser w))).

(** The [BytesIO] of the buffer [b] is at its end: what is written next
    is appended. *)
Definition at_end (b : LineBuf.t) : Prop :=
  BytesIO.pos (LineBuf.buf b) = length (BytesIO.getvalue (LineBuf.buf b)).

(** The bytes read from the serial device during the iterations [envs],
    the device having the descriptor [dev]: it is read in the iterations in
    which [select] reports it. *)
Definition serial_input (dev : Z) (envs : list Env) : bytes :=
  flat_map (fun env => if decide (dev ∈ select_readable env) then dev_read env else []) envs.


(** * The client, [serial_client.py]

    The command-line client that talks to the bridge, or to a serial
    device directly.  A [str] is represented by its UTF-8 encoding, so
    that [encode] is the identity on the bytes.  The device, the clock,
    the keyboard and the history file are oracles; floating-point time is
    any type with the operations the program uses ([Float]). *)
Module serial_client.

Definition PROMPT : string := ">"%string.

(** [s.encode()] *)
Definition encode (s : string) : bytes := list_byte_of_string s.

Inductive exn : Type :=
| ValueError
| SocketTimeout
| OSError
| EOFError
| KeyboardInterrupt
| FileNotFoundError
| SystemExit (code : Z).

(** The ways the model itself can fail: a loop cut short by its fuel, and
    an oracle that has no answer left. *)
Inductive fault : Type :=
| OutOfFuel
| OutOfAnswers.

Inductive outcome (A : Type) : Type :=
| Return (a : A)
| Raise (e : exn)
| Fault (f : fault).

Arguments Return {A} a.
Arguments Raise {A} e.
Arguments Fault {A} f.

(** The floating-point operations of the program: [x + y], [x - y],
    [x <= y], the conversion of an [int], and the literal [0.1]. *)
Class Float (F : Type) : Type := {
  fadd : F -> F -> F;
  fsub : F -> F -> F;
  fle : F -> F -> bool;
  of_int : Z -> F;
  one_tenth : F
}.

(** What the device does when it is read: it gives bytes (none at the end
    of the stream of a socket), or the timeout passes, or it fails. *)
Inductive dev_answer : Type :=
| GotBytes (data : bytes)
| TimedOut
| Failed.

(** What [input] does: it returns a line, or raises [EOFError] or
    [KeyboardInterrupt]. *)
Inductive input_answer : Type :=
| Line (s : string)
| EndOfFile
| Interrupt.

(** What [readline.read_history_file] finds: a file, the history having
    [length] lines once it is read, or no file. *)
Inductive history_answer : Type :=
| HistoryRead (length : nat)
| HistoryMissing.

(** [str.split(sep)] for a separator of one character. *)
Fixpoint split (sep : Ascii.ascii) (s : string) : list string :=
  match s with
  | EmptyString => [EmptyString]
  | String ch rest =>
      match split sep rest with
      | [] => []
      | first :: others =>
          if decide (ch = sep) then EmptyString :: first :: others
          else String ch first :: others
      end
  end.

(** [sep.join(words)] *)
Fixpoint join (sep : string) (words : list string) : string :=
  match words with
  | [] => EmptyString
  | [word] => word
  | word :: rest => String.append word (String.append sep (join sep rest))
  end.

(** [split_host_and_port]; [int] is Python's, [None] its [ValueError]. *)
Definition split_host_and_port (int : string -> option Z) (host_colon_port : string) :
    outcome (string * Z) :=
  match split ":"%char host_colon_port with
  | [host; port] =>
      match int port with
      | Some n =>
          Return (if decide (host = EmptyString) then "localhost"%string else host, n)
      | None => Raise ValueError
      end
  | _ => Raise ValueError
  end.

(** [os.path.join(a, b)] on a POSIX system. *)
Definition path_join (a b : string) : string :=
  match b with
  | String "/"%char _ => b
  | _ =>
      match a with
      | EmptyString => b
      | _ =>
          if decide (String.get (String.length a - 1) a = Some "/"%char)
          then String.append a b
          else String.append a (String.append "/"%string b)
      end
  end.

(** [str(n)] for an [int] that is not negative. *)
Definition str_of_nat (n : nat) : string :=
  DecimalString.NilEmpty.string_of_uint (Nat.to_uint n).

(** The parsed command line: [None] for an option that is not given. *)
Record Args : Type := mkArgs {
  arg_serial : option string;
  arg_socket : option string;
  arg_baudrate : Z;
  arg_timeout : Z;
  arg_cmd : list string
}.

(** Python's truth value of an optional [str]. *)
Definition truthy_str (s : option string) : bool :=
  match s with
  | Some (String _ _) => true
  | _ => false
  end.

Section Program.

Context {F : Type} `{Float F}.

(** The calls of the program to the outside.
    - [OpenSerial port baudrate]: [serial.Serial(port, baudrate)];
    - [Connect host port]: [socket.socket(...)] and [connect((host, port))];
    - [SetTimeout t]: [dev.timeout = t], or [dev.settimeout(t)];
    - [DevRead size a]: [dev.read(size)], or [dev.recv(size)];
    - [DevWrite data]: [dev.write(data)], or [dev.send(data)];
    - [StdoutBufferWrite data]: [sys.stdout.buffer.write(data)];
    - [Print s]: [print(s)];
    - [Input prompt a]: [input(prompt)];
    - [ReadHistoryFile f a]: [readline.read_history_file(f)];
    - [SetHistoryLength n]: [readline.set_history_length(n)];
    - [AtexitWriteHistory f]:
      [atexit.register(readline.write_history_file, f)]. *)
Inductive event : Type :=
| OpenSerial (port : string) (baudrate : Z)
| Connect (host : string) (port : Z)
| SetTimeout (t : F)
| DevRead (size : Z) (a : dev_answer)
| DevWrite (data : bytes)
| StdoutBufferWrite (data : bytes)
| Print (s : string)
| Input (prompt : string) (a : input_answer)
| ReadHistoryFile (f : string) (a : history_answer)
| SetHistoryLength (n : Z)
| AtexitWriteHistory (f : string).

(** The answers the outside still has to give, and the calls made so far:
    what the device answers to the next reads, the next readings of
    [time.time()], what the next calls of [input] give; whether the device
    can be opened and written to, the home directory, the history file. *)
Record World : Type := mkWorld {
  answers : list dev_answer;
  clock : list F;
  inputs : list input_answer;
  can_open : bool;
  can_write : bool;
  home : string;
  history : history_answer;
  trace : list event
}.

Definition M (A : Type) : Type := World -> outcome A * World.

Definition ret {A : Type} (a : A) : M A := fun w => (Return a, w).

Definition bind {A B : Type} (m : M A) (k : A -> M B) : M B :=
  fun w =>
    match m w with
    | (Return a, w') => k a w'
    | (Raise e, w') => (Raise e, w')
    | (Fault f, w') => (Fault f, w')
    end.

Declare Scope client_scope.
Notation "x <- m ;; k" := (bind m (fun x => k))
  (at level 100, m at next level, right associativity) : client_scope.
Notation "m ;; k" := (bind m (fun _ => k))
  (at level 100, right associativity) : client_scope.
Local Open Scope client_scope.

Definition raise {A : Type} (e : exn) : M A := fun w => (Raise e, w).

Definition model_fault {A : Type} (f : fault) : M A := fun w => (Fault f, w).

(** [try: m  except: handler], for the exceptions [catches] selects. *)
Definition try_except {A : Type} (m : M A) (catches : exn -> bool) (handler : M A) : M A :=
  fun w =>
    match m w with
    | (Raise e, w') => if catches e then handler w' else (Raise e, w')
    | r => r
    end.

Definition emit (ev : event) : M unit :=
  fun w =>
    (Return tt,
     mkWorld (answers w) (clock w) (inputs w) (can_open w) (can_write w) (home w) (history w)
       (trace w ++ [ev])).

Definition get_world : M World := fun w => (Return w, w).

(** [time.time()] *)
Definition time_time : M F :=
  fun w =>
    match clock w with
    | [] => (Fault OutOfAnswers, w)
    | t :: rest =>
        (Return t,
         mkWorld (answers w) rest (inputs w) (can_open w) (can_write w) (home w) (history w) (trace w))
    end.

(** The read of the device: [dev.read(size)] or [dev.recv(size)]. *)
Definition dev_read (size : Z) : M dev_answer :=
  fun w =>
    match answers w with
    | [] => (Fault OutOfAnswers, w)
    | a :: rest =>
        (Return a,
         mkWorld rest (clock w) (inputs w) (can_open w) (can_write w) (home w) (history w)
           (trace w ++ [DevRead size a]))
    end.

(** [input(prompt)] *)
Definition input (prompt : string) : M string :=
  fun w =>
    match inputs w with
    | [] => (Fault OutOfAnswers, w)
    | a :: rest =>
        let w' := mkWorld (answers w) (clock w) rest (can_open w) (can_write w) (home w) (history w)
                    (trace w ++ [Input prompt a]) in
        match a with
        | Line s => (Return s, w')
        | EndOfFile => (Raise EOFError, w')
        | Interrupt => (Raise KeyboardInterrupt, w')
        end
    end.

(** ** class Interface and its subclasses

    [SerialInterface] and [SocketInterface] are the two kinds of object
    the program passes as [interface]. *)
Inductive Interface : Type :=
| SerialInterface (port : string) (baudrate : Z)
| SocketInterface (host : string) (port : Z).

(** [SerialInterface.__init__] and [SocketInterface.__init__] *)
Definition SerialInterface_init (port : string) (baudrate : Z) : M Interface :=
  emit (OpenSerial port baudrate) ;;
  w <- get_world ;;
  if can_open w then ret (SerialInterface port baudrate) else raise OSError.

Definition SocketInterface_init (host : string) (port : Z) : M Interface :=
  emit (Connect host port) ;;
  w <- get_world ;;
  if can_open w then ret (SocketInterface host port) else raise OSError.

(** [read(size, timeout)], of the class of [self]. *)
Definition read (self : Interface) (size : Z) (timeout : F) : M bytes :=
  match self with
  | SerialInterface _ _ =>
      emit (SetTimeout timeout) ;;
      a <- dev_read size ;;
      match a with
      | GotBytes data => ret data
      | TimedOut => ret []
      | Failed => raise OSError
      end
  | SocketInterface _ _ =>
      emit (SetTimeout timeout) ;;
      try_except
        (a <- dev_read size ;;
         match a with
         | GotBytes data => ret data
         | TimedOut => raise SocketTimeout
         | Failed => raise OSError
         end)
        (fun e => match e with SocketTimeout => true | _ => false end)
        (ret [])
  end.

(** [write(data)], which is [dev.write(data)] or [dev.send(data)]. *)
Definition write (self : Interface) (data : bytes) : M unit :=
  emit (DevWrite data) ;;
  w <- get_world ;;
  if can_write w then ret tt else raise OSError.

(** [while self.read(1024, timeout=0.1): pass]; every turn of the loop uses
    an answer of the device, so one unit of fuel per answer, and one more,
    is enough. *)
Fixpoint flush_input_loop (fuel : nat) (self : Interface) : M unit :=
  match fuel with
  | O => model_fault OutOfFuel
  | S fuel' =>
      data <- read self 1024 one_tenth ;;
      match data with
      | [] => ret tt
      | _ :: _ => flush_input_loop fuel' self
      end
  end.

Definition flush_input (self : Interface) : M unit :=
  w <- get_world ;;
  flush_input_loop (S (length (answers w))) self.

(** The loop of [wait_for_response]: it returns [found_prompt] and
    [newline] as they are when the loop is left.  Every turn reads the
    clock, so one unit of fuel per reading, and one more, is enough. *)
Fixpoint wait_loop (fuel : nat) (interface : Interface) (start : F) (timeout : Z)
    (newline : bool) : M (bool * bool) :=
  match fuel with
  | O => model_fault OutOfFuel
  | S fuel' =>
      now <- time_time ;;
      let time_left := fsub (fadd start (of_int timeout)) now in
      if fle time_left (of_int 0) then ret (false, newline)
      else
        data <- read interface 1 time_left ;;
        let found_prompt := bool_decide (data = encode PROMPT) && newline in
        if found_prompt then ret (true, newline)
        else
          now <- time_time ;;
          if fle (fadd start (of_int timeout)) now then ret (false, newline)
          else
            let newline := bool_decide (data = [NL]) in
            emit (StdoutBufferWrite data) ;;
            wait_loop fuel' interface start timeout newline
  end.

Definition wait_for_response (interface : Interface) (timeout : Z) : M unit :=
  start <- time_time ;;
  w <- get_world ;;
  r <- wait_loop (S (length (clock w))) interface start timeout false ;;
  let (found_prompt, newline) := r : bool * bool in
  if found_prompt then ret tt
  else
    (if newline then ret tt else emit (Print ""%string)) ;;
    emit (Print "Timeout before prompt was found. Perhaps increase timeout?"%string).

(** [while data := interface.read(1024, timeout=0.1): ...] *)
Fixpoint read_available_input_loop (fuel : nat) (interface : Interface) : M unit :=
  match fuel with
  | O => model_fault OutOfFuel
  | S fuel' =>
      data <- read interface 1024 one_tenth ;;
      match data with
      | [] => ret tt
      | _ :: _ =>
          emit (StdoutBufferWrite data) ;;
          read_available_input_loop fuel' interface
      end
  end.

Definition read_available_input (interface : Interface) : M unit :=
  w <- get_world ;;
  read_available_input_loop (S (length (answers w))) interface.

(** [readline.read_history_file(histfile)] *)
Definition read_history_file (histfile : string) : M unit :=
  w <- get_world ;;
  emit (ReadHistoryFile histfile (history w)) ;;
  match history w with
  | HistoryRead _ => ret tt
  | HistoryMissing => raise FileNotFoundError
  end.

(** [readline.get_current_history_length()] *)
Definition get_current_history_length : M nat :=
  w <- get_world ;;
  match history w with
  | HistoryRead length => ret length
  | HistoryMissing => ret O
  end.

(** The loop of [interactive]; every turn uses an answer of [input]. *)
Fixpoint interactive_loop (fuel : nat) (interface : Interface) (timeout : Z) : M unit :=
  match fuel with
  | O => model_fault OutOfFuel
  | S fuel' =>
      cmd <- input (String.append PROMPT " "%string) ;;
      read_available_input interface ;;
      write interface (encode (String.append cmd (String "010"%char EmptyString))) ;;
      wait_for_response interface timeout ;;
      interactive_loop fuel' interface timeout
  end.

Definition interactive (interface : Interface) (timeout : Z) : M unit :=
  w <- get_world ;;
  let histfile := path_join (home w) ".serial_client_history"%string in
  try_except
    (read_history_file histfile ;;
     emit (SetHistoryLength 1000) ;;
     length <- get_current_history_length ;;
     let plural := if decide (length <> 1%nat) then "s"%string else ""%string in
     emit (Print (String.append "Read "%string
                   (String.append (str_of_nat length)
                     (String.append " line"%string
                       (String.append plural
                         (String.append " from history file '"%string
                           (String.append histfile "'."%string))))))))
    (fun e => match e with FileNotFoundError => true | _ => false end)
    (ret tt) ;;
  emit (AtexitWriteHistory histfile) ;;
  w <- get_world ;;
  try_except
    (interactive_loop (S (length (inputs w))) interface timeout)
    (fun e => match e with EOFError | KeyboardInterrupt => true | _ => false end)
    (ret tt).

(** [sys.exit(code)] *)
Definition sys_exit {A : Type} (code : Z) : M A := raise (SystemExit code).

(** [main], after [parse_args]; [int] is Python's, as in
    [split_host_and_port]. *)
Definition main (int : string -> option Z) (args : Args) : M unit :=
  (if truthy_str (arg_socket args) && truthy_str (arg_serial args) then
     emit (Print "Please specify either --socket or --serial, not both."%string) ;;
     sys_exit 1
   else ret tt) ;;
  interface <-
    (if truthy_str (arg_socket args) then
       match split_host_and_port int (default EmptyString (arg_socket args)) with
       | Return (host, port) => SocketInterface_init host port
       | Raise ValueError =>
           emit (Print "Please specify target to connect to as '<host>:<port>', or just ':<port>' for localhost."%string) ;;
           sys_exit 1
       | Raise e => raise e
       | Fault f => model_fault f
       end
     else if truthy_str (arg_serial args) then
       SerialInterface_init (default EmptyString (arg_serial args)) (arg_baudrate args)
     else
       emit (Print "Please specify either --socket or --serial."%string) ;;
       sys_exit 1) ;;
  match arg_cmd args with
  | _ :: _ =>
      write interface
        (encode (String.append (join " "%string (arg_cmd args))
                   (String "010"%char EmptyString))) ;;
      wait_for_response interface (arg_timeout args)
  | [] =>
      emit (Print "No command given. Entering interactive mode. Use ctrl+c or ctrl+d to exit."%string) ;;
      interactive interface (arg_timeout args)
  end.

(** ** What the properties of the client speak of *)

(** The number of [sep] in [s]. *)
Fixpoint count_char (sep : Ascii.ascii) (s : string) : nat :=
  match s with
  | EmptyString => O
  | String ch rest =>
      if decide (ch = sep) then S (count_char sep rest) else count_char sep rest
  end.

(** The world once the outside has [answers'], [clock'] and [inputs'] left
    to give and the calls [evs] were made. *)
Definition advance (w : World) (answers' : list dev_answer) (clock' : list F)
    (inputs' : list input_answer) (evs : list event) : World :=
  mkWorld answers' clock' inputs' (can_open w) (can_write w) (home w) (history w)
    (trace w ++ evs).

(** What [read] returns for an answer of the device that is no failure. *)
Definition answer_data (a : dev_answer) : bytes :=
  match a with
  | GotBytes data => data
  | TimedOut | Failed => []
  end.

Definition is_failure (a : dev_answer) : bool :=
  match a with
  | Failed => true
  | GotBytes _ | TimedOut => false
  end.

(** What was written to standard output, to the device, what was printed,
    and the answers of the device, in some calls. *)
Definition stdout_writes (evs : list event) : list bytes :=
  omap (fun ev => match ev with StdoutBufferWrite data => Some data | _ => None end) evs.

Definition dev_writes (evs : list event) : list bytes :=
  omap (fun ev => match ev with DevWrite data => Some data | _ => None end) evs.

Definition prints (evs : list event) : list string :=
  omap (fun ev => match ev with Print s => Some s | _ => None end) evs.

Definition dev_reads (evs : list event) : list (Z * dev_answer) :=
  omap (fun ev => match ev with DevRead size a => Some (size, a) | _ => None end) evs.

(** The calls that open the device. *)
Definition opens (evs : list event) : list event :=
  omap (fun ev => match ev with OpenSerial _ _ | Connect _ _ => Some ev | _ => None end) evs.



(** A reading [t] of the clock at which neither test of the deadline in
    [wait_for_response] holds, and the two tests. *)
Definition no_time_left (start : F) (timeout : Z) (t : F) : bool :=
  fle (fsub (fadd start (of_int timeout)) t) (of_int 0).

Definition deadline_passed (start : F) (timeout : Z) (t : F) : bool :=
  fle (fadd start (of_int timeout)) t.

Definition in_time (start : F) (timeout : Z) (t : F) : Prop :=
  no_time_left start timeout t = false /\ deadline_passed start timeout t = false.

(** No ">" comes directly after a newline in what is read. *)
Definition no_prompt (datas : list bytes) : Prop :=
  forall i : nat, datas !! i = Some [NL] -> datas !! S i <> Some (encode PROMPT).

(** [newline] after the loop of [wait_for_response] has been given
    [datas] in time, when it was [newline] before. *)
Definition newline_after (newline : bool) (datas : list bytes) : bool :=
  match last datas with
  | Some data => bool_decide (data = [NL])
  | None => newline
  end.

Definition timeout_message : string :=
  "Timeout before prompt was found. Perhaps increase timeout?"%string.

(** [m] takes nothing from the keyboard, writes nothing to the device and
    raises neither [EOFError] nor [KeyboardInterrupt]. *)
Definition quiet {A : Type} (m : M A) : Prop :=
  forall w : World,
    inputs (m w).2 = inputs w /\
    (m w).1 <> Raise EOFError /\ (m w).1 <> Raise KeyboardInterrupt /\
    exists evs : list event, trace (m w).2 = trace w ++ evs /\ dev_writes evs = [].

(** What [main] sends for the words of a command. *)
Definition command_bytes (cmd : list string) : bytes :=
  encode (String.append (join " "%string cmd) (String "010"%char EmptyString)).

(** The command lines [main] refuses: both [--socket] and [--serial],
    neither, or a [--socket] that [split_host_and_port] does not take. *)
Definition bad_arguments (int : string -> option Z) (args : Args) : Prop :=
  (truthy_str (arg_socket args) = true /\ truthy_str (arg_serial args) = true) \/
  (truthy_str (arg_socket args) = false /\ truthy_str (arg_serial args) = false) \/
  (truthy_str (arg_socket args) = true /\ truthy_str (arg_serial args) = false /\
   split_host_and_port int (default EmptyString (arg_socket args)) = Raise ValueError).

End Program.

End serial_client.

(** Time in tenths of a second, with exact arithmetic: a [Float] to run
    the client on. *)
#[global] Instance tenths : serial_client.Float Z := {|
  serial_client.fadd := Z.add;
  serial_client.fsub := Z.sub;
  serial_client.fle := Z.leb;
  serial_client.of_int := fun n => 10 * n;
  serial_client.one_tenth := 1
|}.

(** Python's [int] on a [str] of ASCII characters, to run the client on:
    white space around the number ([" \t\n\r\v\f"]), a sign, and decimal
    digits with single underscores between them.  [None] is its
    [ValueError].  Python's [int] also reads digits and white space that
    are not ASCII, which this one refuses, and since Python 3.11 it
    refuses numbers of more than 4300 digits, which this one reads. *)
Definition is_space (ch : Ascii.ascii) : bool :=
  let n := Ascii.nat_of_ascii ch in
  ((9 <=? n)%nat && (n <=? 13)%nat) || (n =? 32)%nat.

Definition digit_value (ch : Ascii.ascii) : option Z :=
  let d := Z.of_nat (Ascii.nat_of_ascii ch) - 48 in
  if decide (0 <= d <= 9) then Some d else None.

Fixpoint lstrip (s : string) : string :=
  match s with
  | EmptyString => EmptyString
  | String ch rest => if is_space ch then lstrip rest else s
  end.

Fixpoint rstrip (s : string) : string :=
  match s with
  | EmptyString => EmptyString
  | String ch rest =>
      match rstrip rest with
      | EmptyString => if is_space ch then EmptyString else String ch EmptyString
      | kept => String ch kept
      end
  end.

(** The digits after the first: [acc] is the number read so far, and
    [underscore] says that the last character was an underscore. *)
Fixpoint decimal_digits (underscore : bool) (s : string) (acc : Z) : option Z :=
  match s with
  | EmptyString => if underscore then None else Some acc
  | String ch rest =>
      match digit_value ch with
      | Some d => decimal_digits false rest (10 * acc + d)
      | None =>
          if decide (ch = "_"%char) then
            if underscore then None else decimal_digits true rest acc
          else None
      end
  end.

Definition unsigned_int (s : string) : option Z :=
  match s with
  | EmptyString => None
  | String ch rest =>
      match digit_value ch with
      | Some d => decimal_digits false rest d
      | None => None
      end
  end.

Definition decimal_int (s : string) : option Z :=
  match lstrip (rstrip s) with
  | String "+"%char rest => unsigned_int rest
  | String "-"%char rest => Z.opp <$> unsigned_int rest
  | stripped => unsigned_int stripped
  end.

(** A world to run the client on: a device that can be opened and written
    to, no history file. *)
Definition client_world (answers : list serial_client.dev_answer) (clock : list Z)
    (inputs : list serial_client.input_answer) : serial_client.World (F:=Z) :=
  serial_client.mkWorld answers clock inputs true true "/home/user"%string
    serial_client.HistoryMissing [].

(** * Properties *)

(** ** Bytes and [find] *)

Lemma find_from_absent (sub : byte) (data : bytes) (start : Z) :
  sub ∉ data -> find_from sub data start = -1.
Proof.
  revert start. induction data as [|b rest IH]; intros start Hnot; simpl.
  - reflexivity.
  - apply not_elem_of_cons in Hnot as [Hne Hrest].
    destruct (decide (b = sub)) as [->|_]; [congruence|]. now apply IH.
Qed.

Lemma find_from_first (sub : byte) (pre post : bytes) (start : Z) :
  sub ∉ pre ->
  find_from sub (pre ++ sub :: post) start = start + Z.of_nat (length pre).
Proof.
  revert start. induction pre as [|b pre IH]; intros start Hnot; simpl.
  - destruct (decide (sub = sub)); [lia|congruence].
  - apply not_elem_of_cons in Hnot as [Hne Hrest].
    destruct (decide (b = sub)) as [->|_]; [congruence|].
    rewrite IH by assumption. lia.
Qed.

(** Either [data] has no newline, or it splits at its first one. *)
Lemma first_newline (data : bytes) :
  NL ∉ data \/ exists pre post, data = pre ++ NL :: post /\ NL ∉ pre.
Proof.
  destruct (decide (NL ∈ data)) as [Hin|Hnot]; [right|now left].
  apply list_elem_of_split_l in Hin as (pre & post & -> & Hpre). eauto.
Qed.

Lemma slice_line (pre post : bytes) :
  slice (pre ++ NL :: post) 0 (Z.of_nat (length pre) + 1) = pre ++ [NL].
Proof.
  unfold slice. change (Z.to_nat 0) with 0%nat. rewrite drop_0.
  replace (Z.to_nat (Z.of_nat (length pre) + 1) - 0)%nat with (length (pre ++ [NL])).
  - rewrite (cons_middle _ pre post), app_assoc. apply take_app_length.
  - rewrite length_app. simpl. lia.
Qed.

Lemma slice_from_rest (pre post : bytes) :
  slice_from (pre ++ NL :: post) (Z.of_nat (length pre) + 1) = post.
Proof.
  unfold slice_from.
  replace (Z.to_nat (Z.of_nat (length pre) + 1)) with (length (pre ++ [NL])).
  - rewrite (cons_middle _ pre post), app_assoc. apply drop_app_length.
  - rewrite length_app. simpl. lia.
Qed.

(** ** [LineBuf.readline] *)

Lemma readline_none (b : LineBuf.t) :
  NL ∉ BytesIO.getvalue (LineBuf.buf b) -> LineBuf.readline b = (None, b).
Proof.
  intros Hnot. unfold LineBuf.readline, bytes_find.
  rewrite find_from_absent by assumption. reflexivity.
Qed.

Lemma readline_some (b : LineBuf.t) (pre post : bytes) :
  BytesIO.getvalue (LineBuf.buf b) = pre ++ NL :: post -> NL ∉ pre ->
  LineBuf.readline b = (Some (pre ++ [NL]), LineBuf.mk (BytesIO.new post)).
Proof.
  intros Hval Hpre. unfold LineBuf.readline, bytes_find.
  rewrite Hval, find_from_first by assumption. cbv zeta.
  rewrite Z.add_0_l.
  destruct (decide (Z.of_nat (length pre) = -1)) as [Heq|_]; [lia|].
  now rewrite slice_line, slice_from_rest.
Qed.

(** ** [split_lines] *)

Lemma split_lines_no_newline (data : bytes) :
  NL ∉ data -> split_lines data = ([], data).
Proof.
  induction data as [|b rest IH]; intros Hnot; simpl; [reflexivity|].
  apply not_elem_of_cons in Hnot as [Hne Hrest].
  rewrite IH by assumption.
  destruct (decide (b = NL)); [congruence|reflexivity].
Qed.

Lemma split_lines_first (pre post : bytes) :
  NL ∉ pre ->
  split_lines (pre ++ NL :: post) =
    ((pre ++ [NL]) :: fst (split_lines post), snd (split_lines post)).
Proof.
  induction pre as [|b pre IH]; intros Hnot; simpl.
  - destruct (split_lines post) as [lines tail]. simpl.
    destruct (decide (NL = NL)); [reflexivity|congruence].
  - apply not_elem_of_cons in Hnot as [Hne Hrest].
    rewrite IH by assumption.
    destruct (decide (b = NL)); [congruence|reflexivity].
Qed.

Lemma split_lines_concat (data : bytes) :
  concat (fst (split_lines data)) ++ snd (split_lines data) = data.
Proof.
  induction data as [|b rest IH]; simpl; [reflexivity|].
  destruct (split_lines rest) as [lines tail]. simpl in IH.
  destruct (decide (b = NL)); simpl; [now rewrite IH|].
  destruct lines as [|l lines']; simpl in *; now rewrite IH.
Qed.

Lemma split_lines_tail (data : bytes) : NL ∉ snd (split_lines data).
Proof.
  induction data as [|b rest IH]; simpl; [apply not_elem_of_nil|].
  destruct (split_lines rest) as [lines tail]. simpl in IH.
  destruct (decide (b = NL)); simpl; [assumption|].
  destruct lines as [|l lines']; simpl; [|assumption].
  apply not_elem_of_cons. split; [congruence|assumption].
Qed.

Lemma split_lines_lines (data : bytes) : Forall is_line (fst (split_lines data)).
Proof.
  induction data as [|b rest IH]; simpl; [constructor|].
  destruct (split_lines rest) as [lines tail]. simpl in IH.
  destruct (decide (b = NL)) as [->|Hne]; simpl.
  - constructor; [|assumption]. exists []. split; [reflexivity|apply not_elem_of_nil].
  - destruct lines as [|l lines']; simpl; [constructor|].
    inversion IH as [|? ? (body & -> & Hbody) Hrest]; subst.
    constructor; [|assumption].
    exists (b :: body). split; [reflexivity|].
    apply not_elem_of_cons. split; [congruence|assumption].
Qed.

Lemma split_lines_count (data : bytes) :
  length (fst (split_lines data)) = count_newlines data.
Proof.
  unfold count_newlines.
  induction data as [|b rest IH]; simpl; [reflexivity|].
  destruct (split_lines rest) as [lines tail]. simpl in IH.
  rewrite filter_cons.
  destruct (decide (b = NL)); simpl; [now rewrite IH|].
  destruct lines as [|l lines']; simpl in *; assumption.
Qed.

(** ** [BytesIO.write] and [LineBuf.write] *)

Lemma BytesIO_write_inside (v : bytes) (p : nat) (d : bytes) :
  (p <= length v)%nat ->
  BytesIO.write (BytesIO.mk v p) d =
    BytesIO.mk (take p v ++ d ++ drop (p + length d) v) (p + length d).
Proof.
  intros Hp. unfold BytesIO.write. simpl.
  replace (p - length v)%nat with 0%nat by lia. simpl. rewrite app_nil_r.
  destruct d as [|b d]; [|reflexivity].
  simpl. now rewrite !Nat.add_0_r, take_drop.
Qed.

Lemma BytesIO_write_end (v d : bytes) :
  BytesIO.write (BytesIO.mk v (length v)) d =
    BytesIO.mk (v ++ d) (length (v ++ d)).
Proof.
  rewrite BytesIO_write_inside by lia.
  rewrite firstn_all, drop_ge by lia.
  now rewrite app_nil_r, length_app.
Qed.

Lemma write_all_end (v : bytes) (chunks : list bytes) :
  write_all (LineBuf.mk (BytesIO.mk v (length v))) chunks =
    LineBuf.mk (BytesIO.mk (v ++ concat chunks) (length (v ++ concat chunks))).
Proof.
  revert v. induction chunks as [|c chunks IH]; intros v; simpl.
  - now rewrite app_nil_r.
  - unfold LineBuf.write at 1. simpl. rewrite BytesIO_write_end.
    unfold write_all in IH. rewrite IH. now rewrite app_assoc.
Qed.

Lemma write_all_init (chunks : list bytes) :
  write_all LineBuf.init chunks =
    LineBuf.mk (BytesIO.mk (concat chunks) (length (concat chunks))).
Proof. apply (write_all_end []). Qed.

(** ** Draining a buffer *)

Lemma drained_new (post : bytes) :
  drained (LineBuf.mk (BytesIO.new post)) =
    LineBuf.mk (BytesIO.new (snd (split_lines post))).
Proof.
  unfold drained. simpl.
  pose proof (split_lines_concat post) as Hcat.
  destruct (fst (split_lines post)); [|reflexivity].
  simpl in Hcat. now rewrite Hcat.
Qed.

Lemma drained_no_newline (b : LineBuf.t) :
  NL ∉ BytesIO.getvalue (LineBuf.buf b) -> drained b = b.
Proof.
  intros Hnot. unfold drained. now rewrite split_lines_no_newline.
Qed.

Lemma drained_first (b : LineBuf.t) (pre post : bytes) :
  BytesIO.getvalue (LineBuf.buf b) = pre ++ NL :: post -> NL ∉ pre ->
  drained b = drained (LineBuf.mk (BytesIO.new post)).
Proof.
  intros Hval Hpre. rewrite drained_new. unfold drained.
  now rewrite Hval, split_lines_first.
Qed.

Lemma drained_value (b : LineBuf.t) :
  BytesIO.getvalue (LineBuf.buf (drained b)) =
    snd (split_lines (BytesIO.getvalue (LineBuf.buf b))).
Proof.
  unfold drained.
  pose proof (split_lines_concat (BytesIO.getvalue (LineBuf.buf b))) as Hcat.
  destruct (fst (split_lines (BytesIO.getvalue (LineBuf.buf b)))); [|reflexivity].
  simpl in Hcat. now rewrite Hcat.
Qed.

Lemma readlines_drain (lines : list bytes) (b : LineBuf.t) :
  fst (split_lines (BytesIO.getvalue (LineBuf.buf b))) = lines ->
  readlines (S (length lines)) b = ((Some <$> lines) ++ [None], drained b).
Proof.
  revert b. induction lines as [|l lines IH]; intros b Hlines.
  - destruct (first_newline (BytesIO.getvalue (LineBuf.buf b)))
      as [Hnot|(pre & post & Hval & Hpre)].
    + simpl. rewrite readline_none, drained_no_newline by assumption. reflexivity.
    + rewrite Hval, split_lines_first in Hlines by assumption. discriminate.
  - destruct (first_newline (BytesIO.getvalue (LineBuf.buf b)))
      as [Hnot|(pre & post & Hval & Hpre)].
    + rewrite split_lines_no_newline in Hlines by assumption. discriminate.
    + rewrite Hval, split_lines_first in Hlines by assumption.
      simpl in Hlines. injection Hlines as Hl Hrest.
      change (readlines (S (length (l :: lines))) b)
        with (let (line, b') := LineBuf.readline b in
              let (results, b'') := readlines (S (length lines)) b' in
              (line :: results, b'')).
      rewrite (readline_some b pre post Hval Hpre).
      rewrite (IH (LineBuf.mk (BytesIO.new post)) Hrest).
      rewrite (drained_first b pre post Hval Hpre), Hl. reflexivity.
Qed.

(** A write that follows a [readline] that returned a line.  The buffer
    is then a new [BytesIO] that holds the bytes after the line, and its
    position is 0: the bytes written next are stored from the start, over
    the bytes that were kept. *)
Lemma write_after_readline_overwrites :
  let b1 := LineBuf.write LineBuf.init (ping ++ AT_CR) in
  fst (LineBuf.readline b1) = Some ping /\
  BytesIO.getvalue (LineBuf.buf (snd (LineBuf.readline b1))) = AT_CR /\
  BytesIO.pos (LineBuf.buf (snd (LineBuf.readline b1))) = 0%nat /\
  BytesIO.getvalue (LineBuf.buf (LineBuf.write (snd (LineBuf.readline b1)) [NL])) =
    [NL; x54; x0d].
Proof. repeat split. Qed.

(** C2.  Chunks are appended to a new [LineBuf]; their concatenation has
    [k] newline bytes.  Then [k] calls of [readline] in a row each return a
    line and the next call returns [None] and changes nothing.  The lines,
    in the order returned, followed by the bytes the buffer still holds,
    are the concatenation byte for byte; every line ends with its newline
    and has no other; the bytes left in the buffer have none. *)
Theorem LineBuf_readline_returns_the_lines (chunks : list bytes) :
  let data := concat chunks in
  let k := count_newlines data in
  let b := write_all LineBuf.init chunks in
  exists (lines : list bytes) (b' : LineBuf.t),
    readlines (S k) b = ((Some <$> lines) ++ [None], b') /\
    length lines = k /\
    LineBuf.readline b' = (None, b') /\
    concat lines ++ BytesIO.getvalue (LineBuf.buf b') = data /\
    Forall is_line lines /\
    NL ∉ BytesIO.getvalue (LineBuf.buf b').
Proof.
  intros data k b.
  exists (fst (split_lines data)), (drained b).
  assert (Hval : BytesIO.getvalue (LineBuf.buf b) = data).
  { unfold b. now rewrite write_all_init. }
  assert (Htail : NL ∉ BytesIO.getvalue (LineBuf.buf (drained b))).
  { rewrite drained_value, Hval. apply split_lines_tail. }
  split; [|split; [|split; [|split; [|split]]]].
  - unfold k. rewrite <- split_lines_count.
    apply readlines_drain. now rewrite Hval.
  - apply split_lines_count.
  - now apply readline_none.
  - rewrite drained_value, Hval. apply split_lines_concat.
  - apply split_lines_lines.
  - exact Htail.
Qed.

(** ** Running the program: the monad *)

Lemma bind_return {A B : Type} (m : M A) (k : A -> M B) (w w' : World) (a : A) :
  m w = (Return a, w') -> bind m k w = k a w'.
Proof. intros H. unfold bind. now rewrite H. Qed.

Lemma bind_raise {A B : Type} (m : M A) (k : A -> M B) (w w' : World) (e : exn) :
  m w = (Raise e, w') -> bind m k w = (Raise e, w').
Proof. intros H. unfold bind. now rewrite H. Qed.

(** Unfolds the operations of the monad. *)
Ltac prog_unfold :=
  unfold bind, ret, raise, model_fault, try_except_OSError, emit, deref, assign,
    new_object, get_ser, set_ser.

Lemma set_buf_same (o : ClientObj.t) : set_buf o (ClientObj.buf o) = o.
Proof. now destruct o. Qed.

Lemma set_buf_twice (o : ClientObj.t) (b b' : LineBuf.t) :
  set_buf (set_buf o b) b' = set_buf o b'.
Proof. reflexivity. Qed.

(** ** The methods of [Client] *)

Lemma Client_read_spec (env : Env) (c : nat) (w : World) (o : ClientObj.t) (k : Z) :
  heap w !! c = Some o -> ClientObj.sock o = Socket.mk k false ->
  Client.read env c w =
    (Return (received env k),
     mkWorld
       (match received env k with
        | Some data => <[c := set_buf o (LineBuf.write (ClientObj.buf o) data)]> (heap w)
        | None => heap w
        end)
       (ser w)
       (trace w ++ [SockRecv k (sock_recv_result env k)])).
Proof.
  intros Hc Hsock.
  unfold Client.read, sock_recv, received, set_buf. prog_unfold.
  rewrite Hc, Hsock. simpl.
  destruct (sock_recv_result env k) as [[|b l]|]; reflexivity.
Qed.

Lemma Client_readline_spec (c : nat) (w : World) (o : ClientObj.t) :
  heap w !! c = Some o ->
  Client.readline c w =
    (Return (fst (LineBuf.readline (ClientObj.buf o))),
     mkWorld (<[c := set_buf o (snd (LineBuf.readline (ClientObj.buf o)))]> (heap w))
       (ser w) (trace w)).
Proof.
  intros Hc. unfold Client.readline. prog_unfold. rewrite Hc.
  destruct (LineBuf.readline (ClientObj.buf o)) as [line b]. reflexivity.
Qed.

Lemma Client_write_spec (env : Env) (c : nat) (data : bytes) (w : World)
    (o : ClientObj.t) (k : Z) :
  heap w !! c = Some o -> ClientObj.sock o = Socket.mk k false ->
  Client.write env c data w =
    (Return tt,
     mkWorld (heap w) (ser w)
       (trace w ++ [SockSend k data (sock_send_result env k data)])).
Proof.
  intros Hc Hsock.
  unfold Client.write, sock_send. prog_unfold.
  rewrite Hc, Hsock. simpl.
  destruct (sock_send_result env k data); reflexivity.
Qed.

Lemma Client_fileno_spec (c : nat) (w : World) (o : ClientObj.t) (k : Z) :
  heap w !! c = Some o -> ClientObj.sock o = Socket.mk k false ->
  Client.fileno c w = (Return k, w).
Proof.
  intros Hc Hsock. unfold Client.fileno. prog_unfold. rewrite Hc, Hsock. reflexivity.
Qed.

(** ** The loop [while line := c.readline(): ser.write(line)] *)

Lemma while_readline_spec (fuel : nat) (c : nat) (w : World) (o : ClientObj.t) :
  heap w !! c = Some o ->
  (length (buffered o) < fuel)%nat ->
  while_readline fuel c w =
    (Return tt,
     mkWorld (<[c := set_buf o (drained (ClientObj.buf o))]> (heap w)) (ser w)
       (trace w ++ (DevWrite <$> fst (split_lines (buffered o))))).
Proof.
  revert w o. induction fuel as [|fuel IH]; intros w o Hc Hlen; [lia|].
  simpl. rewrite (bind_return _ _ _ _ _ (Client_readline_spec c w o Hc)).
  unfold buffered in *.
  destruct (first_newline (BytesIO.getvalue (LineBuf.buf (ClientObj.buf o))))
    as [Hnot|(pre & post & Hval & Hpre)].
  - rewrite readline_none, drained_no_newline, split_lines_no_newline by assumption.
    simpl. unfold ret. now rewrite app_nil_r.
  - rewrite (readline_some _ pre post Hval Hpre). simpl.
    assert (Hline : exists b l, pre ++ [NL] = b :: l).
    { destruct pre; simpl; eauto. }
    destruct Hline as (b & l & Hline). rewrite Hline.
    unfold bind at 1, Serial.write, emit. simpl.
    rewrite (IH _ (set_buf o (LineBuf.mk (BytesIO.new post)))).
    + simpl. rewrite insert_insert_eq, <- Hline.
      rewrite (drained_first _ pre post Hval Hpre).
      rewrite Hval, split_lines_first by assumption.
      simpl. rewrite <- app_assoc. reflexivity.
    + simpl. apply lookup_insert_eq.
    + simpl. rewrite Hval, length_app in Hlen. simpl in Hlen. lia.
Qed.

Lemma forward_lines_spec (c : nat) (w : World) (o : ClientObj.t) :
  heap w !! c = Some o ->
  forward_lines c w =
    (Return tt,
     mkWorld (<[c := set_buf o (drained (ClientObj.buf o))]> (heap w)) (ser w)
       (trace w ++ (DevWrite <$> fst (split_lines (buffered o))))).
Proof.
  intros Hc. unfold forward_lines, bind, deref. rewrite Hc.
  apply while_readline_spec; [assumption|]. unfold buffered. lia.
Qed.

Lemma process_client_spec (env : Env) (c : nat) (w : World) (o : ClientObj.t) (k : Z) :
  heap w !! c = Some o -> ClientObj.sock o = Socket.mk k false ->
  process_client env c w =
    (Return (bool_decide (received env k = None)),
     mkWorld (<[c := client_after env k o]> (heap w)) (ser w)
       (trace w ++ client_events env k o)).
Proof.
  intros Hc Hsock. unfold process_client.
  rewrite (bind_return _ _ _ _ _ (Client_read_spec env c w o k Hc Hsock)).
  unfold client_after, client_events.
  assert (Hrecv : received env k = None \/ exists b l, received env k = Some (b :: l)).
  { unfold received. destruct (sock_recv_result env k) as [[|b l]|]; eauto. }
  destruct Hrecv as [Hnone|(b & l & Hsome)].
  - rewrite Hnone. simpl. unfold ret. rewrite insert_id by assumption. reflexivity.
  - rewrite Hsome.
    erewrite bind_return; [|apply forward_lines_spec; simpl; apply lookup_insert_eq].
    unfold ret. simpl. rewrite insert_insert_eq.
    rewrite <- app_assoc. reflexivity.
Qed.

(** ** The dict *)


Lemma dict_del_middle (pre post : Dict) (k : Z) (v : nat) :
  k ∉ dict_keys pre -> dict_del (pre ++ (k, v) :: post) k = Some (pre ++ post).
Proof.
  induction pre as [|[k' v'] pre IH]; intros Hnot; simpl.
  - destruct (decide (k = k)); [reflexivity|congruence].
  - unfold dict_keys in Hnot. simpl in Hnot.
    apply not_elem_of_cons in Hnot as [Hne Hrest].
    destruct (decide (k' = k)); [congruence|].
    now rewrite IH.
Qed.

Lemma dict_set_elem (d : Dict) (k : Z) (v : nat) (k' : Z) (v' : nat) :
  (k', v') ∈ dict_set d k v -> (k' = k /\ v' = v) \/ (k', v') ∈ d.
Proof.
  induction d as [|[k0 v0] d IH]; simpl; intros Hin.
  - apply list_elem_of_singleton in Hin. injection Hin as -> ->. now left.
  - destruct (decide (k0 = k)) as [->|Hne].
    + apply elem_of_cons in Hin as [Heq|Hin].
      * injection Heq as -> ->. now left.
      * right. apply elem_of_cons. now right.
    + apply elem_of_cons in Hin as [Heq|Hin].
      * injection Heq as -> ->. right. apply elem_of_cons. now left.
      * destruct (IH Hin) as [?|?]; [now left|].
        right. apply elem_of_cons. now right.
Qed.

Lemma dict_set_keys (d : Dict) (k : Z) (v : nat) :
  dict_keys (dict_set d k v) =
    if decide (k ∈ dict_keys d) then dict_keys d else dict_keys d ++ [k].
Proof.
  unfold dict_keys. induction d as [|[k0 v0] d IH]; csimpl.
  - reflexivity.
  - destruct (decide (k0 = k)) as [->|Hne]; csimpl.
    + destruct (decide (k ∈ k :: d.*1)) as [_|Hnot]; [reflexivity|].
      exfalso. apply Hnot, elem_of_cons. now left.
    + rewrite IH.
      destruct (decide (k ∈ d.*1)) as [Hin|Hnot];
        destruct (decide (k ∈ k0 :: d.*1)) as [Hin'|Hnot']; try reflexivity.
      * exfalso. apply Hnot', elem_of_cons. now right.
      * exfalso. apply elem_of_cons in Hin' as [?|?]; [congruence|contradiction].
Qed.

Lemma dict_set_NoDup (d : Dict) (k : Z) (v : nat) :
  NoDup (dict_keys d) -> NoDup (dict_keys (dict_set d k v)).
Proof.
  intros Hnd. rewrite dict_set_keys.
  destruct (decide (k ∈ dict_keys d)) as [Hin|Hnot]; [assumption|].
  apply NoDup_app. split; [assumption|]. split.
  - intros x Hx Hx'. apply list_elem_of_singleton in Hx'. now subst.
  - apply NoDup_singleton.
Qed.

(** ** The clients of the registry *)

Lemma open_clients_refs_NoDup (items : list (Z * nat)) (w : World) :
  NoDup (fst <$> items) -> open_clients items w -> NoDup (snd <$> items).
Proof.
  induction items as [|[k c] items IH]; intros Hnd Hopen; csimpl; [constructor|].
  csimpl in Hnd. apply NoDup_cons in Hnd as [Hk Hnd].
  apply NoDup_cons. split.
  - intros Hc. apply list_elem_of_fmap in Hc as ([k' c'] & Heq & Hin).
    simpl in Heq. subst c'.
    destruct (Hopen k c) as (o & Ho & Hs); [apply elem_of_cons; now left|].
    destruct (Hopen k' c) as (o' & Ho' & Hs'); [apply elem_of_cons; now right|].
    rewrite Ho in Ho'. injection Ho' as <-. rewrite Hs in Hs'. injection Hs' as <-.
    apply Hk. apply (list_elem_of_fmap_2 fst) in Hin. exact Hin.
  - apply IH; [assumption|]. intros k' c' Hin. apply Hopen, elem_of_cons. now right.
Qed.

Lemma open_clients_filter (P : Z * nat -> Prop) `{forall x, Decision (P x)}
    (items : list (Z * nat)) (w : World) :
  open_clients items w -> open_clients (filter P items) w.
Proof.
  intros Hopen k c Hin. apply list_elem_of_filter in Hin as [_ Hin]. now apply Hopen.
Qed.

Lemma append_filenos_spec (items : list (Z * nat)) (fds : list Z) (w : World) :
  open_clients items w ->
  append_filenos fds (snd <$> items) w = (Return (fds ++ (fst <$> items)), w).
Proof.
  revert fds. induction items as [|[k c] items IH]; intros fds Hopen; csimpl.
  - unfold ret. now rewrite app_nil_r.
  - destruct (Hopen k c) as (o & Ho & Hs); [apply elem_of_cons; now left|].
    unfold bind at 1, deref. rewrite Ho, Hs. simpl.
    rewrite IH.
    + now rewrite <- app_assoc.
    + intros k' c' Hin. apply Hopen, elem_of_cons. now right.
Qed.

Lemma broadcast_spec (env : Env) (data : bytes) (items : list (Z * nat)) (w : World) :
  open_clients items w ->
  for_each (snd <$> items) (fun c => Client.write env c data) w =
    (Return tt,
     mkWorld (heap w) (ser w)
       (trace w ++
        ((fun k => SockSend k data (sock_send_result env k data)) <$> (fst <$> items)))).
Proof.
  revert w. induction items as [|[k c] items IH]; intros w Hopen; csimpl.
  - unfold ret. rewrite app_nil_r. now destruct w.
  - destruct (Hopen k c) as (o & Ho & Hs); [apply elem_of_cons; now left|].
    rewrite (bind_return _ _ _ _ _ (Client_write_spec env c data w o k Ho Hs)).
    rewrite IH.
    + simpl. now rewrite <- app_assoc.
    + intros k' c' Hin. simpl. apply Hopen, elem_of_cons. now right.
Qed.

Lemma flat_map_ext_elem {A B : Type} (f g : A -> list B) (l : list A) :
  (forall x, x ∈ l -> f x = g x) -> flat_map f l = flat_map g l.
Proof.
  induction l as [|x l IH]; intros Hfg; simpl; [reflexivity|].
  rewrite Hfg by (apply elem_of_cons; now left).
  rewrite IH; [reflexivity|]. intros y Hy. apply Hfg, elem_of_cons. now right.
Qed.

Lemma process_clients_from_spec (env : Env) (items : list (Z * nat))
    (acc : list nat) (w : World) :
  NoDup (snd <$> items) -> open_clients items w ->
  exists w',
    process_clients_from env (snd <$> items) acc w =
      (Return (acc ++ (snd <$> filter (fun it => received env (fst it) = None) items)), w') /\
    ser w' = ser w /\
    (forall k c o, (k, c) ∈ items -> heap w !! c = Some o ->
       heap w' !! c = Some (client_after env k o)) /\
    (forall r, r ∉ snd <$> items -> heap w' !! r = heap w !! r) /\
    trace w' = trace w ++ flat_map (turn_events env (heap w)) items.
Proof.
  revert acc w. induction items as [|[k c] items IH]; intros acc w Hnd Hopen.
  - exists w. csimpl. unfold ret. rewrite !app_nil_r.
    repeat split; try reflexivity.
    intros k c o Hin. now apply elem_of_nil in Hin.
  - csimpl in Hnd. apply NoDup_cons in Hnd as [Hc Hnd].
    destruct (Hopen k c) as (o & Ho & Hs); [apply elem_of_cons; now left|].
    set (w1 := mkWorld (<[c := client_after env k o]> (heap w)) (ser w)
                 (trace w ++ client_events env k o)).
    assert (Hother : forall r, r ∈ snd <$> items -> heap w1 !! r = heap w !! r).
    { intros r Hr. simpl. apply lookup_insert_ne. intros ->. contradiction. }
    assert (Hopen1 : open_clients items w1).
    { intros k' c' Hin.
      destruct (Hopen k' c') as (o' & Ho' & Hs'); [apply elem_of_cons; now right|].
      exists o'. split; [|assumption].
      rewrite Hother; [assumption|]. now apply (list_elem_of_fmap_2 snd) in Hin. }
    destruct (IH (if bool_decide (received env k = None) then acc ++ [c] else acc)
                w1 Hnd Hopen1) as (w' & Hrun & Hser & Hin' & Hout' & Htrace').
    exists w'. split; [|split; [|split; [|split]]].
    + csimpl.
      rewrite (bind_return _ _ _ _ _ (process_client_spec env c w o k Ho Hs)).
      fold w1. rewrite Hrun. f_equal. f_equal.
      rewrite filter_cons. simpl.
      destruct (decide (received env k = None)) as [Hnone|Hsome].
      * rewrite bool_decide_eq_true_2 by assumption. simpl. now rewrite <- app_assoc.
      * rewrite bool_decide_eq_false_2 by assumption. reflexivity.
    + now rewrite Hser.
    + intros k' c' o' Hin Ho'. apply elem_of_cons in Hin as [Heq|Hin].
      * injection Heq as -> ->. rewrite Ho in Ho'. injection Ho' as <-.
        rewrite Hout' by assumption. simpl. apply lookup_insert_eq.
      * apply Hin'; [assumption|]. rewrite Hother; [assumption|].
        now apply (list_elem_of_fmap_2 snd) in Hin.
    + intros r Hr. csimpl in Hr. apply not_elem_of_cons in Hr as [Hne Hr].
      rewrite Hout' by assumption. simpl. now apply lookup_insert_ne.
    + rewrite Htrace'. simpl. unfold turn_events at 2. simpl. rewrite Ho.
      rewrite <- app_assoc. f_equal. f_equal.
      apply flat_map_ext_elem. intros [k' c'] Hit. unfold turn_events. simpl.
      rewrite lookup_insert_ne; [reflexivity|]. intros ->.
      apply Hc. now apply (list_elem_of_fmap_2 snd) in Hit.
Qed.

Lemma delete_clients_spec (P : Z * nat -> Prop) `{forall x, Decision (P x)}
    (post pre : Dict) (w : World) :
  NoDup (dict_keys (pre ++ post)) -> open_clients post w ->
  Forall (fun it => ~ P it) pre ->
  delete_clients (snd <$> filter P post) (pre ++ post) w =
    (Return (pre ++ filter (fun it => ~ P it) post), w).
Proof.
  revert pre. induction post as [|[k c] post IH]; intros pre Hnd Hopen Hpre.
  - simpl. reflexivity.
  - assert (Hopen' : open_clients post w).
    { intros k' c' Hin. apply Hopen, elem_of_cons. now right. }
    rewrite !filter_cons. destruct (decide (P (k, c))) as [HP|HnP].
    + destruct (decide (~ P (k, c))) as [?|_]; [contradiction|].
      destruct (Hopen k c) as (o & Ho & Hs); [apply elem_of_cons; now left|].
      simpl.
      rewrite (bind_return _ _ _ _ _ (Client_fileno_spec c w o k Ho Hs)).
      unfold del_item. rewrite dict_del_middle.
      * unfold bind at 1, ret. apply IH; [|assumption|assumption].
        unfold dict_keys in *. rewrite fmap_app in *. csimpl in Hnd.
        apply NoDup_app in Hnd as (Hnd1 & Hdisj & Hnd2).
        apply NoDup_cons in Hnd2 as [_ Hnd2].
        apply NoDup_app. split; [assumption|]. split; [|assumption].
        intros x Hx Hx'. apply (Hdisj x Hx), elem_of_cons. now right.
      * unfold dict_keys in *. rewrite fmap_app in Hnd. csimpl in Hnd.
        apply NoDup_app in Hnd as (_ & Hdisj & _).
        intros Hk. apply (Hdisj k Hk), elem_of_cons. now left.
    + destruct (decide (~ P (k, c))) as [_|?]; [|contradiction].
      rewrite (cons_middle (k, c) pre post), app_assoc.
      rewrite IH.
      * now rewrite <- app_assoc.
      * now rewrite <- app_assoc.
      * assumption.
      * apply Forall_app. split; [assumption|]. now constructor.
Qed.

(** ** [process_serial] *)

Lemma Serial_read_spec (env : Env) (w : World) :
  Serial.read env w =
    (Return (if truthy (dev_read env) then Some (dev_read env) else None),
     mkWorld (heap w)
       (if truthy (dev_read env)
        then SerialObj.mk (SerialObj.dev (ser w))
               (LineBuf.write (SerialObj.buf (ser w)) (dev_read env))
        else ser w)
       (trace w ++ [DevRead (dev_read env)])).
Proof.
  unfold Serial.read. prog_unfold. simpl.
  destruct (truthy (dev_read env)); reflexivity.
Qed.

Lemma process_serial_spec (env : Env) (clients : Dict) (w : World) :
  dev_read env <> [] -> open_clients (dict_items clients) w ->
  process_serial env clients w =
    (Return tt,
     mkWorld (heap w)
       (SerialObj.mk (SerialObj.dev (ser w))
          (LineBuf.write (SerialObj.buf (ser w)) (dev_read env)))
       (trace w ++
        [DevRead (dev_read env); StdoutWriteDecoded (dev_read env)] ++
        ((fun k => SockSend k (dev_read env) (sock_send_result env k (dev_read env)))
           <$> dict_keys clients))).
Proof.
  intros Hdata Hopen. unfold process_serial.
  rewrite (bind_return _ _ _ _ _ (Serial_read_spec env w)).
  assert (Htruthy : truthy (dev_read env) = true).
  { destruct (dev_read env); [congruence|reflexivity]. }
  rewrite Htruthy. unfold bind at 1, emit. simpl.
  unfold dict_values. rewrite broadcast_spec by exact Hopen.
  simpl. unfold dict_keys. repeat rewrite <- app_assoc. reflexivity.
Qed.

Lemma process_serial_empty (env : Env) (clients : Dict) (w : World) :
  dev_read env = [] ->
  process_serial env clients w =
    (Raise AttributeError, mkWorld (heap w) (ser w) (trace w ++ [DevRead []])).
Proof.
  intros Hdata. unfold process_serial.
  rewrite (bind_return _ _ _ _ _ (Serial_read_spec env w)).
  rewrite Hdata. reflexivity.
Qed.

(** ** One iteration of [run] *)

Lemma client_after_sock (env : Env) (k : Z) (o : ClientObj.t) :
  ClientObj.sock (client_after env k o) = ClientObj.sock o.
Proof. unfold client_after. now destruct (received env k). Qed.

Lemma client_after_buffered (env : Env) (k : Z) (o : ClientObj.t) :
  NL ∉ buffered o -> NL ∉ buffered (client_after env k o).
Proof.
  intros Hnot. unfold client_after. destruct (received env k); [|assumption].
  unfold buffered. simpl. rewrite drained_value. apply split_lines_tail.
Qed.

Lemma NoDup_keys_filter (P : Z * nat -> Prop) `{forall x, Decision (P x)} (d : Dict) :
  NoDup (dict_keys d) -> NoDup (dict_keys (filter P d)).
Proof.
  unfold dict_keys. intros Hnd. eapply sublist_NoDup; [exact Hnd|].
  apply fmap_sublist, sublist_filter.
Qed.

Lemma registered_filter (P : Z * nat -> Prop) `{forall x, Decision (P x)}
    (d : Dict) (w : World) :
  registered d w -> registered (filter P d) w.
Proof.
  intros [Hnd Hopen]. split.
  - now apply NoDup_keys_filter.
  - now apply open_clients_filter.
Qed.

Lemma registered_same_key (d : Dict) (w : World) (k k' : Z) (c : nat) :
  open_clients d w -> (k, c) ∈ d -> (k', c) ∈ d -> k = k'.
Proof.
  intros Hopen Hin Hin'.
  destruct (Hopen k c Hin) as (o & Ho & Hs).
  destruct (Hopen k' c Hin') as (o' & Ho' & Hs').
  rewrite Ho in Ho'. injection Ho' as <-. rewrite Hs in Hs'. now injection Hs'.
Qed.

(** The registration of an accepted connection. *)
Lemma accept_spec (clients : Dict) (w : World) (fd : Z) (addr : Addr) :
  registered clients w ->
  let c := fresh (dom (heap w)) in
  let w1 := mkWorld (<[c := Client.init (Socket.mk fd false) addr]> (heap w)) (ser w)
              (trace w ++ [Accept fd]) in
  registered (dict_set clients fd c) w1 /\
  (no_pending_line clients w -> no_pending_line (dict_set clients fd c) w1).
Proof.
  intros [Hnd Hopen] c w1.
  assert (Hfresh : heap w !! c = None).
  { apply not_elem_of_dom, is_fresh. }
  assert (Hold : forall k' c', (k', c') ∈ clients -> heap w1 !! c' = heap w !! c').
  { intros k' c' Hin. simpl. apply lookup_insert_ne. intros <-.
    destruct (Hopen k' c Hin) as (o & Ho & _). congruence. }
  split; [split|].
  - now apply dict_set_NoDup.
  - intros k' c' Hin. apply dict_set_elem in Hin as [[-> ->]|Hin].
    + eexists. split; [simpl; apply lookup_insert_eq|reflexivity].
    + destruct (Hopen k' c' Hin) as (o & Ho & Hs).
      exists o. split; [|assumption]. now rewrite (Hold k' c' Hin).
  - intros Hinv k' c' o Hin Ho. apply dict_set_elem in Hin as [[-> ->]|Hin].
    + simpl in Ho. rewrite lookup_insert_eq in Ho. injection Ho as <-.
      apply not_elem_of_nil.
    + rewrite (Hold k' c' Hin) in Ho. now apply (Hinv k' c' o).
Qed.

(** The last two steps of an iteration: the ready clients are read and
    the ones that disconnected are removed. *)
Lemma process_and_delete_spec (env : Env) (r : list Z) (clients : Dict) (w : World) :
  registered clients w ->
  exists w',
    bind (process_clients env (snd <$> filter (fun item => fst item ∈ r) (dict_items clients)))
         (fun remove_clients => delete_clients remove_clients clients) w =
      (Return (filter (fun it => ~ disconnecting env r it) clients), w') /\
    ser w' = ser w /\
    registered (filter (fun it => ~ disconnecting env r it) clients) w' /\
    (no_pending_line clients w ->
     no_pending_line (filter (fun it => ~ disconnecting env r it) clients) w') /\
    (forall k c o, (k, c) ∈ clients -> heap w !! c = Some o ->
       heap w' !! c = Some (if decide (k ∈ r) then client_after env k o else o)) /\
    (forall c, c ∉ dict_values clients -> heap w' !! c = heap w !! c) /\
    trace w' =
      trace w ++ flat_map (turn_events env (heap w)) (filter (fun item => fst item ∈ r) clients).
Proof.
  intros [Hnd Hopen]. unfold dict_items in *.
  set (ready := filter (fun item : Z * nat => fst item ∈ r) clients).
  assert (Hrefs : NoDup (snd <$> ready)).
  { apply (open_clients_refs_NoDup ready w).
    - now apply (NoDup_keys_filter (fun item => fst item ∈ r)).
    - now apply open_clients_filter. }
  destruct (process_clients_from_spec env ready [] w Hrefs)
    as (w' & Hrun & Hser & Hin & Hout & Htrace).
  { now apply open_clients_filter. }
  assert (Hheap : forall k c o, (k, c) ∈ clients -> heap w !! c = Some o ->
            heap w' !! c = Some (if decide (k ∈ r) then client_after env k o else o)).
  { intros k c o Hkc Ho. destruct (decide (k ∈ r)) as [Hr|Hr].
    - apply Hin; [|assumption]. apply list_elem_of_filter. now split.
    - rewrite Hout; [assumption|]. intros Hc.
      apply list_elem_of_fmap in Hc as ([k' c'] & Heq & Hin'). simpl in Heq. subst c'.
      apply list_elem_of_filter in Hin' as [Hr' Hin']. simpl in Hr'.
      now rewrite (registered_same_key clients w k k' c Hopen Hkc Hin') in Hr. }
  assert (Hopen' : open_clients clients w').
  { intros k c Hkc. destruct (Hopen k c Hkc) as (o & Ho & Hs).
    eexists. split; [apply (Hheap k c o Hkc Ho)|].
    destruct (decide (k ∈ r)); [now rewrite client_after_sock|assumption]. }
  exists w'. split; [|split; [|split; [|split; [|split; [|split]]]]].
  - unfold process_clients. rewrite (bind_return _ _ _ _ _ Hrun). simpl.
    unfold ready. rewrite list_filter_filter.
    apply (delete_clients_spec (disconnecting env r) clients [] w'); [assumption|assumption|constructor].
  - assumption.
  - apply registered_filter. now split.
  - intros Hinv k c o' Hkc Ho'.
    apply list_elem_of_filter in Hkc as [Hstay Hkc].
    destruct (Hopen k c Hkc) as (o & Ho & Hs).
    rewrite (Hheap k c o Hkc Ho) in Ho'. injection Ho' as <-.
    destruct (decide (k ∈ r)); [|now apply (Hinv k c o)].
    apply client_after_buffered. now apply (Hinv k c o).
  - exact Hheap.
  - intros c Hc. apply Hout. intros Hc'. apply Hc.
    apply list_elem_of_fmap in Hc' as (it & -> & Hit).
    apply list_elem_of_filter in Hit as [_ Hit].
    now apply (list_elem_of_fmap_2 snd).
  - exact Htrace.
Qed.

Lemma registered_heap (d : Dict) (w w' : World) :
  heap w' = heap w -> registered d w -> registered d w'.
Proof.
  intros Hh [Hnd Hopen]. split; [assumption|].
  intros k c Hin. rewrite Hh. now apply Hopen.
Qed.

Lemma no_pending_line_heap (d : Dict) (w w' : World) :
  heap w' = heap w -> no_pending_line d w -> no_pending_line d w'.
Proof.
  intros Hh Hinv k c o Hin Ho. rewrite Hh in Ho. now apply (Hinv k c o).
Qed.

(** The first step of an iteration: a pending connection is accepted. *)
Lemma accept_stage_spec (P : Prop) `{Decision P} (env : Env) (clients : Dict) (w : World) :
  (if decide P
   then
     let (fd, addr) := accept_result env in
     let sock := Socket.mk fd false in
     emit (Accept fd) ;;
     c <- new_object (Client.init sock addr) ;;
     ret (dict_set clients (Socket.fileno sock) c)
   else ret clients) w =
    (Return (if decide P
             then dict_set clients (fst (accept_result env)) (fresh (dom (heap w)))
             else clients),
     if decide P
     then mkWorld (<[fresh (dom (heap w)) :=
                       Client.init (Socket.mk (fst (accept_result env)) false)
                         (snd (accept_result env))]> (heap w))
            (ser w) (trace w ++ [Accept (fst (accept_result env))])
     else w).
Proof.
  destruct (decide P); [|reflexivity].
  now destruct (accept_result env) as [fd addr].
Qed.

(** An iteration, when the registry is well formed and the serial device
    has bytes: it returns normally, and what it returns, the clients it
    leaves and the calls it made are these. *)
Lemma run_iteration_spec (serversocket : Socket.t) (env : Env) (clients : Dict) (w : World) :
  registered clients w -> dev_read env <> [] ->
  let r := ready_set serversocket env clients w in
  let clients1 :=
    if decide (Socket.fileno serversocket ∈ r)
    then dict_set clients (fst (accept_result env)) (fresh (dom (heap w)))
    else clients in
  exists w',
    run_iteration serversocket env clients w =
      (Return (filter (fun it => ~ disconnecting env r it) clients1), w') /\
    registered (filter (fun it => ~ disconnecting env r it) clients1) w' /\
    (no_pending_line clients w ->
     no_pending_line (filter (fun it => ~ disconnecting env r it) clients1) w') /\
    SerialObj.dev (ser w') = SerialObj.dev (ser w) /\
    (forall k c o, (k, c) ∈ clients -> heap w !! c = Some o ->
       heap w' !! c =
         Some (if decide (k ∈ r /\ (k, c) ∈ clients1) then client_after env k o else o)) /\
    trace w' = trace w ++ iteration_events serversocket env clients w.
Proof.
  intros Hreg Hdata r clients1.
  unfold run_iteration.
  assert (Hfileno : forall w0, Serial.fileno w0 = (Return (SerialObj.dev (ser w0)), w0)).
  { intros w0. reflexivity. }
  rewrite (bind_return _ _ _ _ _ (Hfileno w)).
  unfold dict_values.
  rewrite (bind_return _ _ _ _ _
             (append_filenos_spec clients
                [Socket.fileno serversocket; SerialObj.dev (ser w)] w (proj2 Hreg))).
  fold (dict_keys clients). fold (ready_set serversocket env clients w). fold r.
  (* the accepted connection *)
  rewrite (bind_return _ _ _ _ _ (accept_stage_spec _ env clients w)).
  fold clients1.
  set (w1 := if decide (Socket.fileno serversocket ∈ r) then _ else w).
  assert (Haccept :
    registered clients1 w1 /\
    (no_pending_line clients w -> no_pending_line clients1 w1) /\
    ser w1 = ser w /\
    (forall c o, heap w !! c = Some o -> heap w1 !! c = Some o) /\
    (forall k c, (k, c) ∈ clients1 -> is_Some (heap w !! c) -> (k, c) ∈ clients) /\
    heap w1 = heap_after_accept serversocket env clients w /\
    trace w1 = trace w ++
      (if decide (Socket.fileno serversocket ∈ r) then [Accept (fst (accept_result env))]
       else [])).
  { unfold w1, clients1, heap_after_accept. fold r.
    destruct (decide (Socket.fileno serversocket ∈ r)) as [Hsrv|Hsrv].
    - destruct (accept_spec clients w (fst (accept_result env)) (snd (accept_result env)) Hreg)
        as [Hreg1 Hinv1].
      split; [exact Hreg1|]. split; [exact Hinv1|]. split; [reflexivity|].
      assert (Hfresh : heap w !! fresh (dom (heap w)) = None).
      { apply not_elem_of_dom, is_fresh. }
      split; [|split; [|split; reflexivity]].
      + intros c o Ho. simpl. rewrite lookup_insert_ne; [assumption|]. congruence.
      + intros k c Hin [o Ho]. apply dict_set_elem in Hin as [[_ ->]|Hin]; [|assumption].
        congruence.
    - split; [assumption|]. split; [tauto|]. split; [reflexivity|].
      split; [tauto|]. split; [tauto|]. split; [reflexivity|]. now rewrite app_nil_r. }
  destruct Haccept as (Hreg1 & Hinv1 & Hser1 & Hkeep1 & Hold1 & Hheap1 & Htrace1).
  rewrite (bind_return _ _ _ _ _ (Hfileno w1)).
  (* the serial device *)
  assert (Hserial : exists w2,
    (if decide (SerialObj.dev (ser w1) ∈ r) then process_serial env clients1 else ret tt) w1 =
      (Return tt, w2) /\
    heap w2 = heap w1 /\ SerialObj.dev (ser w2) = SerialObj.dev (ser w) /\
    trace w2 = trace w1 ++
      (if decide (SerialObj.dev (ser w) ∈ r)
       then [DevRead (dev_read env); StdoutWriteDecoded (dev_read env)] ++
            ((fun k => SockSend k (dev_read env) (sock_send_result env k (dev_read env)))
               <$> dict_keys clients1)
       else [])).
  { rewrite Hser1. destruct (decide (SerialObj.dev (ser w) ∈ r)) as [Hser|Hser].
    - rewrite (process_serial_spec env clients1 w1 Hdata (proj2 Hreg1)).
      eexists. split; [reflexivity|]. simpl. now rewrite Hser1.
    - exists w1. split; [reflexivity|]. rewrite Hser1, app_nil_r. now repeat split. }
  destruct Hserial as (w2 & Hrun2 & Hheap2 & Hdev2 & Htrace2).
  rewrite (bind_return _ _ _ _ _ Hrun2).
  (* the clients *)
  destruct (process_and_delete_spec env r clients1 w2 (registered_heap _ _ _ Hheap2 Hreg1))
    as (w' & Hrun3 & Hser3 & Hreg3 & Hinv3 & Hin3 & Hout3 & Htrace3).
  exists w'. split; [exact Hrun3|]. split; [exact Hreg3|]. split; [|split; [|split]].
  - intros Hinv. apply Hinv3. apply (no_pending_line_heap _ w1); [assumption|]. now apply Hinv1.
  - now rewrite Hser3.
  - intros k c o Hkc Ho.
    assert (Ho2 : heap w2 !! c = Some o) by (rewrite Hheap2; now apply Hkeep1).
    destruct (decide ((k, c) ∈ clients1)) as [Hkc1|Hkc1].
    + rewrite (Hin3 k c o Hkc1 Ho2).
      destruct (decide (k ∈ r)) as [Hr|Hr];
        destruct (decide (k ∈ r /\ (k, c) ∈ clients1)) as [Hboth|Hboth];
        try reflexivity; tauto.
    + rewrite Hout3.
      * rewrite Ho2. destruct (decide (k ∈ r /\ (k, c) ∈ clients1)); [tauto|reflexivity].
      * intros Hc. apply list_elem_of_fmap in Hc as ([k' c'] & Heq & Hin').
        simpl in Heq. subst c'.
        assert (Hk'c : (k', c) ∈ clients) by (apply Hold1; eauto).
        rewrite (registered_same_key clients w k k' c (proj2 Hreg) Hkc Hk'c) in Hkc1.
        contradiction.
  - rewrite Htrace3, Htrace2, Htrace1, Hheap2, Hheap1.
    unfold iteration_events, registry_after_accept. fold r. fold clients1.
    now rewrite <- !app_assoc.
Qed.

(** The loop: all the iterations there are answers for. *)
Lemma run_from_spec (serversocket : Socket.t) (envs : list Env) (clients : Dict) (w : World) :
  registered clients w -> no_pending_line clients w ->
  Forall (fun env => dev_read env <> []) envs ->
  exists clients' w',
    run_from serversocket envs clients w = (Return clients', w') /\
    registered clients' w' /\ no_pending_line clients' w'.
Proof.
  revert clients w. induction envs as [|env envs IH]; intros clients w Hreg Hinv Hdata.
  - exists clients, w. split; [reflexivity|]. now split.
  - apply Forall_cons in Hdata as [Hdata Hrest].
    destruct (run_iteration_spec serversocket env clients w Hreg Hdata)
      as (w1 & Hrun & Hreg1 & Hinv1 & _).
    simpl. rewrite (bind_return _ _ _ _ _ Hrun).
    apply IH; [assumption| |assumption]. now apply Hinv1.
Qed.

(** ** The bridge with two clients *)

Lemma clients0_open (w : World) (o7 o8 : ClientObj.t) :
  heap w !! 0%nat = Some o7 -> heap w !! 1%nat = Some o8 ->
  ClientObj.sock o7 = Socket.mk 7 false -> ClientObj.sock o8 = Socket.mk 8 false ->
  registered clients0 w.
Proof.
  intros H7 H8 Hs7 Hs8. split.
  - unfold clients0, dict_keys. csimpl. apply NoDup_cons. split.
    + intros Hin%list_elem_of_singleton. discriminate.
    + apply NoDup_singleton.
  - intros k c Hin. unfold clients0, dict_items in Hin.
    apply elem_of_cons in Hin as [Heq|Hin].
    + injection Heq as -> ->. eauto.
    + apply list_elem_of_singleton in Hin. injection Hin as -> ->. eauto.
Qed.

Lemma world0_registered : registered clients0 world0.
Proof. now apply (clients0_open world0 client7 client8). Qed.

Lemma world_partial_registered : registered clients0 world_partial.
Proof.
  now apply (clients0_open world_partial
               (set_buf client7 (LineBuf.write LineBuf.init AT_CR)) client8).
Qed.

(** ** The properties of the specification *)

(** C1.  One read of the serial device returns the bytes [data].  Then
    [process_serial] returns normally and what it did is: the read, the
    echo of [data] to the console, decoded with [backslashreplace], and for
    every registered client, in the order of the registry, one [send] of
    exactly [data]; nothing is read from a client and nothing else is sent
    in between.  The clients are unchanged. *)
Theorem process_serial_broadcasts (env : Env) (clients : Dict) (w : World) (data : bytes) :
  registered clients w ->
  dev_read env = data -> data <> [] ->
  exists w',
    process_serial env clients w = (Return tt, w') /\
    heap w' = heap w /\
    trace w' =
      trace w ++ [DevRead data; StdoutWriteDecoded data] ++
      ((fun k => SockSend k data (sock_send_result env k data)) <$> dict_keys clients).
Proof.
  intros [_ Hopen] <- Hdata.
  rewrite (process_serial_spec env clients w Hdata Hopen).
  eexists. split; [reflexivity|]. split; reflexivity.
Qed.

Lemma process_serial_broadcasts_witness :
  exists w',
    process_serial (env_of [3] pong (fun _ => RecvBytes [])) clients0 world0 = (Return tt, w') /\
    heap w' = heap world0 /\
    trace w' =
      trace world0 ++ [DevRead pong; StdoutWriteDecoded pong] ++
      ((fun k => SockSend k pong
                   (sock_send_result (env_of [3] pong (fun _ => RecvBytes [])) k pong))
         <$> dict_keys clients0).
Proof.
  apply (process_serial_broadcasts (env_of [3] pong (fun _ => RecvBytes [])) clients0 world0 pong).
  - exact world0_registered.
  - reflexivity.
  - discriminate.
Defined.

(** C9.  When the read of the serial device returns no byte,
    [Serial.read] returns [None] and [process_serial] raises
    [AttributeError] at the decoding, before any client is written to;
    the iteration raises it and so does the loop, whatever iterations
    would follow.  When the read returns at least one byte,
    [process_serial] returns normally. *)
Theorem process_serial_needs_data (serversocket : Socket.t) (env : Env)
    (clients : Dict) (w : World) :
  registered clients w ->
  (dev_read env = [] ->
     (exists w', process_serial env clients w = (Raise AttributeError, w') /\
                 trace w' = trace w ++ [DevRead []]) /\
     (SerialObj.dev (ser w) ∈ select_readable env ->
      forall rest, exists w',
        run_from serversocket (env :: rest) clients w = (Raise AttributeError, w'))) /\
  (dev_read env <> [] ->
     exists w', process_serial env clients w = (Return tt, w')).
Proof.
  intros Hreg. split.
  - intros Hdata. split.
    + rewrite (process_serial_empty env clients w Hdata).
      eexists. split; reflexivity.
    + intros Hready rest.
      assert (Hiter : exists w',
                run_iteration serversocket env clients w = (Raise AttributeError, w'));
        [|destruct Hiter as (w' & Hiter); exists w'; simpl;
          apply (bind_raise _ _ _ _ _ Hiter)].
      unfold run_iteration.
      assert (Hfileno : forall w0, Serial.fileno w0 = (Return (SerialObj.dev (ser w0)), w0)).
      { intros w0. reflexivity. }
      rewrite (bind_return _ _ _ _ _ (Hfileno w)).
      unfold dict_values.
      rewrite (bind_return _ _ _ _ _
                 (append_filenos_spec clients
                    [Socket.fileno serversocket; SerialObj.dev (ser w)] w (proj2 Hreg))).
      set (r := select env _).
      assert (Hr : SerialObj.dev (ser w) ∈ r).
      { unfold r, select. apply list_elem_of_filter. split; [|assumption].
        apply elem_of_cons. right. apply elem_of_cons. now left. }
      rewrite (bind_return _ _ _ _ _ (accept_stage_spec _ env clients w)).
      set (w1 := if decide (Socket.fileno serversocket ∈ r) then _ else w).
      assert (Hser1 : ser w1 = ser w).
      { unfold w1. now destruct (decide (Socket.fileno serversocket ∈ r)). }
      rewrite (bind_return _ _ _ _ _ (Hfileno w1)). rewrite Hser1.
      destruct (decide (SerialObj.dev (ser w) ∈ r)) as [_|?]; [|contradiction].
      eexists. apply bind_raise. now apply process_serial_empty.
  - intros Hdata. rewrite (process_serial_spec env clients w Hdata (proj2 Hreg)).
    eexists. reflexivity.
Qed.

Lemma process_serial_needs_data_witness :
  (exists w', process_serial (env_of [3] [] (fun _ => RecvBytes [])) clients0 world0 =
                (Raise AttributeError, w') /\
              trace w' = trace world0 ++ [DevRead []]) /\
  (forall rest, exists w',
     run_from serversocket0 (env_of [3] [] (fun _ => RecvBytes []) :: rest) clients0 world0 =
       (Raise AttributeError, w')) /\
  (exists w', process_serial (env_of [3] pong (fun _ => RecvBytes [])) clients0 world0 =
                (Return tt, w')).
Proof.
  split; [|split].
  - apply (process_serial_needs_data serversocket0 (env_of [3] [] (fun _ => RecvBytes []))
             clients0 world0 world0_registered).
    reflexivity.
  - apply (process_serial_needs_data serversocket0 (env_of [3] [] (fun _ => RecvBytes []))
             clients0 world0 world0_registered).
    + reflexivity.
    + simpl. apply list_elem_of_singleton. reflexivity.
  - apply (process_serial_needs_data serversocket0 (env_of [3] pong (fun _ => RecvBytes []))
             clients0 world0 world0_registered).
    discriminate.
Defined.

Lemma received_None (env : Env) (k : Z) :
  received env k = None <->
  sock_recv_result env k = RecvOSError \/ sock_recv_result env k = RecvBytes [].
Proof.
  unfold received. destruct (sock_recv_result env k) as [[|b l]|]; split; intros H;
    try reflexivity; try discriminate; auto; destruct H; discriminate.
Qed.

(** C6.  Whatever [recv] and [send] do on the client sockets, [OSError]
    included: [Client.write] returns normally and changes no client;
    [Client.read] returns normally, with [None] exactly when [recv] raised
    [OSError] or returned no byte; and the iteration returns normally.  The
    registry it returns is the registry after the accept, less the clients
    that were readable and whose read gave [None]; every client left in it
    still has its open socket. *)
Theorem client_errors_stay_local (serversocket : Socket.t) (env : Env)
    (clients : Dict) (w : World) :
  registered clients w -> dev_read env <> [] ->
  (forall k c data, (k, c) ∈ clients ->
     exists w', Client.write env c data w = (Return tt, w') /\ heap w' = heap w) /\
  (forall k c, (k, c) ∈ clients ->
     exists w', Client.read env c w = (Return (received env k), w') /\
       (received env k = None <->
        sock_recv_result env k = RecvOSError \/ sock_recv_result env k = RecvBytes [])) /\
  let r := ready_set serversocket env clients w in
  let clients1 :=
    if decide (Socket.fileno serversocket ∈ r)
    then dict_set clients (fst (accept_result env)) (fresh (dom (heap w)))
    else clients in
  exists w',
    run_iteration serversocket env clients w =
      (Return (filter (fun it => ~ disconnecting env r it) clients1), w') /\
    registered (filter (fun it => ~ disconnecting env r it) clients1) w'.
Proof.
  intros Hreg Hdata. split; [|split].
  - intros k c data Hin. destruct (proj2 Hreg k c Hin) as (o & Ho & Hs).
    rewrite (Client_write_spec env c data w o k Ho Hs). eexists. split; reflexivity.
  - intros k c Hin. destruct (proj2 Hreg k c Hin) as (o & Ho & Hs).
    rewrite (Client_read_spec env c w o k Ho Hs). eexists. split; [reflexivity|].
    apply received_None.
  - intros r clients1.
    destruct (run_iteration_spec serversocket env clients w Hreg Hdata)
      as (w' & Hrun & Hreg' & _).
    exists w'. split; assumption.
Qed.

Lemma client_errors_stay_local_witness :
  registered clients0 world0 /\ dev_read env_broken <> [] /\
  exists w',
    run_iteration serversocket0 env_broken clients0 world0 = (Return [], w') /\
    registered [] w'.
Proof.
  split; [exact world0_registered|]. split; [discriminate|].
  destruct (client_errors_stay_local serversocket0 env_broken clients0 world0
              world0_registered) as (_ & _ & w' & Hrun & Hreg); [discriminate|].
  exists w'. split; [exact Hrun|exact Hreg].
Defined.

(** C10.  The loop starts with an empty registry.  After any number of
    iterations in which the serial device, when read, gave at least one
    byte, the loop has returned normally from each and no client of the
    registry has a newline in its buffer.  This is because the turn of a
    client that sent bytes forwards every line its buffer then holds: the
    lines written to the serial device, followed by what the buffer keeps,
    are the contents of the buffer after the append, and what it keeps has
    no newline. *)
Theorem no_line_waits_in_a_buffer :
  (forall (serversocket : Socket.t) (envs : list Env) (w : World),
     Forall (fun env => dev_read env <> []) envs ->
     exists clients' w',
       run serversocket envs w = (Return clients', w') /\
       registered clients' w' /\ no_pending_line clients' w') /\
  (forall (env : Env) (clients : Dict) (w : World) (k : Z) (c : nat)
          (o : ClientObj.t) (data : bytes),
     registered clients w -> (k, c) ∈ clients -> heap w !! c = Some o ->
     received env k = Some data ->
     exists w' o' lines,
       process_clients env [c] w = (Return [], w') /\
       trace w' = trace w ++ SockRecv k (RecvBytes data) :: (DevWrite <$> lines) /\
       heap w' !! c = Some o' /\
       Forall is_line lines /\
       concat lines ++ buffered o' =
         BytesIO.getvalue (LineBuf.buf (LineBuf.write (ClientObj.buf o) data)) /\
       NL ∉ buffered o').
Proof.
  split.
  - intros serversocket envs w Hdata. unfold run.
    apply run_from_spec; [| |assumption].
    + split; [apply NoDup_nil_2|]. intros k c Hin. now apply elem_of_nil in Hin.
    + intros k c o Hin. now apply elem_of_nil in Hin.
  - intros env clients w k c o data Hreg Hin Ho Hrecv.
    destruct (proj2 Hreg k c Hin) as (o0 & Ho0 & Hs).
    rewrite Ho in Ho0. injection Ho0 as <-.
    assert (Hres : sock_recv_result env k = RecvBytes data).
    { unfold received in Hrecv.
      destruct (sock_recv_result env k) as [[|b l]|]; congruence. }
    eexists _, (client_after env k o), _.
    split; [|split; [|split; [|split; [|split]]]].
    + unfold process_clients. simpl.
      rewrite (bind_return _ _ _ _ _ (process_client_spec env c w o k Ho Hs)).
      rewrite bool_decide_eq_false_2 by congruence. reflexivity.
    + simpl. unfold client_events. rewrite Hrecv, Hres. reflexivity.
    + simpl. apply lookup_insert_eq.
    + apply split_lines_lines.
    + unfold client_after. rewrite Hrecv. unfold buffered. simpl.
      rewrite drained_value. apply split_lines_concat.
    + unfold client_after. rewrite Hrecv. unfold buffered. simpl.
      rewrite drained_value. apply split_lines_tail.
Qed.

Lemma no_line_waits_in_a_buffer_witness :
  Forall (fun env => dev_read env <> [])
    [env_of [4] pong (fun _ => RecvBytes []); env_of [9] pong (fun _ => RecvBytes ping)] /\
  exists clients' w',
    run serversocket0
      [env_of [4] pong (fun _ => RecvBytes []); env_of [9] pong (fun _ => RecvBytes ping)]
      world0 = (Return clients', w') /\
    registered clients' w' /\ no_pending_line clients' w'.
Proof.
  assert (H : Forall (fun env => dev_read env <> [])
                [env_of [4] pong (fun _ => RecvBytes []);
                 env_of [9] pong (fun _ => RecvBytes ping)]).
  { repeat constructor; discriminate. }
  split; [exact H|].
  exact (proj1 no_line_waits_in_a_buffer serversocket0 _ world0 H).
Defined.





(** C3, on the bridge with two clients: the client on descriptor 7 is at
    end of stream.  The iteration removes it from the registry and its
    only call to the outside is the [recv]: [close] is not called, and the
    socket of the removed client is still open. *)
Theorem removed_client_is_not_closed :
  exists w' o,
    run_iteration serversocket0 (env_of [7] [] (fun _ => RecvBytes [])) clients0 world_partial =
      (Return [(8, 1%nat)], w') /\
    trace w' = [SockRecv 7 (RecvBytes [])] /\
    heap w' !! 0%nat = Some o /\
    Socket.closed (ClientObj.sock o) = false /\
    buffered o = AT_CR.
Proof.
  eexists _, _. split; [vm_compute; reflexivity|].
  split; [reflexivity|]. split; [vm_compute; reflexivity|]. split; reflexivity.
Qed.

(** The world [w] with another buffer in the client object [c]. *)
Lemma replace_buffer_registered (clients : Dict) (w : World) (c : nat)
    (o : ClientObj.t) (b : LineBuf.t) :
  registered clients w -> heap w !! c = Some o ->
  registered clients (mkWorld (<[c := set_buf o b]> (heap w)) (ser w) (trace w)).
Proof.
  intros [Hnd Hopen] Ho. split; [assumption|].
  intros k' c' Hin. destruct (Hopen k' c' Hin) as (o' & Ho' & Hs'). simpl.
  destruct (decide (c' = c)) as [->|Hne].
  - rewrite Ho in Ho'. injection Ho' as <-.
    exists (set_buf o b). split; [apply lookup_insert_eq|exact Hs'].
  - exists o'. split; [|assumption]. now rewrite lookup_insert_ne by congruence.
Qed.

(** The calls of an iteration do not depend on what the buffer of a
    client that disconnects in it holds. *)
Lemma iteration_events_replace_buffer (serversocket : Socket.t) (env : Env)
    (clients : Dict) (w : World) (k : Z) (c : nat) (o : ClientObj.t) (b : LineBuf.t) :
  registered clients w -> (k, c) ∈ clients -> heap w !! c = Some o ->
  received env k = None ->
  let w2 := mkWorld (<[c := set_buf o b]> (heap w)) (ser w) (trace w) in
  registry_after_accept serversocket env clients w2 =
    registry_after_accept serversocket env clients w /\
  iteration_events serversocket env clients w2 = iteration_events serversocket env clients w.
Proof.
  intros Hreg Hin Ho Hrecv w2.
  assert (Hdom : dom (heap w2) = dom (heap w)).
  { simpl. apply dom_insert_lookup_L. eauto. }
  assert (Hreg1 : registry_after_accept serversocket env clients w2 =
                  registry_after_accept serversocket env clients w).
  { unfold registry_after_accept, ready_set. now rewrite Hdom. }
  split; [exact Hreg1|].
  unfold iteration_events. rewrite Hreg1.
  change (ready_set serversocket env clients w2) with (ready_set serversocket env clients w).
  change (ser w2) with (ser w).
  f_equal. f_equal.
  apply flat_map_ext_elem. intros [k' c'] Hit.
  apply list_elem_of_filter in Hit as [_ Hit].
  unfold turn_events, heap_after_accept. simpl snd. simpl fst.
  change (ready_set serversocket env clients w2) with (ready_set serversocket env clients w).
  rewrite Hdom.
  assert (Hfresh : heap w !! fresh (dom (heap w)) = None).
  { apply not_elem_of_dom, is_fresh. }
  assert (Hlookup : forall h2 h1 : gmap nat ClientObj.t,
            (h2 !! c' = h1 !! c' \/
             (c' = c /\ h2 !! c = Some (set_buf o b) /\ h1 !! c = Some o /\ k' = k)) ->
            match h2 !! c' with Some o0 => client_events env k' o0 | None => [] end =
            match h1 !! c' with Some o0 => client_events env k' o0 | None => [] end).
  { intros h2 h1 [->|(-> & -> & -> & ->)]; [reflexivity|].
    unfold client_events. now rewrite Hrecv. }
  apply Hlookup.
  destruct (decide (c' = c)) as [->|Hne].
  - right. split; [reflexivity|].
    assert (Hcf : c <> fresh (dom (heap w))) by congruence.
    assert (Hk : k' = k).
    { symmetry. apply (registered_same_key clients w k k' c (proj2 Hreg) Hin).
      unfold registry_after_accept in Hit.
      destruct (decide _) in Hit; [|assumption].
      apply dict_set_elem in Hit as [[_ ->]|?]; [congruence|assumption]. }
    destruct (decide (Socket.fileno serversocket ∈ ready_set serversocket env clients w)).
    + rewrite !lookup_insert_ne by congruence. simpl. rewrite lookup_insert_eq. auto.
    + simpl. rewrite lookup_insert_eq. auto.
  - left.
    destruct (decide (Socket.fileno serversocket ∈ ready_set serversocket env clients w)).
    + destruct (decide (c' = fresh (dom (heap w)))) as [->|Hnf].
      * now rewrite !lookup_insert_eq.
      * rewrite !lookup_insert_ne by congruence. simpl. now rewrite lookup_insert_ne by congruence.
    + simpl. now rewrite lookup_insert_ne by congruence.
Qed.

(** C8.  A registered client, whatever its buffer holds, is readable and
    its read gives nothing (end of stream or [OSError]).  Its turn in
    [process_clients] makes the [recv] call and nothing else, writes
    nothing to the serial device, leaves every client as it was, and marks
    it for removal.  After the iteration neither its descriptor nor the
    client is in the registry, and its buffer was left as it was.  Had its
    buffer held any other bytes, the iteration would have made the same
    calls, with the same bytes, and returned the same registry: nothing of
    what the buffer holds reaches the serial device. *)
Theorem disconnect_forwards_nothing (serversocket : Socket.t) (env : Env)
    (clients : Dict) (w : World) (k : Z) (c : nat) (o : ClientObj.t) :
  registered clients w -> dev_read env <> [] ->
  (k, c) ∈ clients -> heap w !! c = Some o ->
  k ∈ ready_set serversocket env clients w ->
  received env k = None ->
  (exists w1,
     process_clients env [c] w = (Return [c], w1) /\
     heap w1 = heap w /\
     trace w1 = trace w ++ [SockRecv k (sock_recv_result env k)]) /\
  (exists clients' w',
     run_iteration serversocket env clients w = (Return clients', w') /\
     (k ∉ dict_keys clients') /\ (c ∉ dict_values clients') /\
     heap w' !! c = Some o /\
     forall b, exists w2',
       run_iteration serversocket env clients
         (mkWorld (<[c := set_buf o b]> (heap w)) (ser w) (trace w)) =
         (Return clients', w2') /\
       trace w2' = trace w').
Proof.
  intros Hreg Hdata Hin Ho Hready Hrecv.
  destruct (proj2 Hreg k c Hin) as (o0 & Ho0 & Hs).
  rewrite Ho in Ho0. injection Ho0 as <-.
  assert (Hafter : client_after env k o = o).
  { unfold client_after. now rewrite Hrecv. }
  split.
  - unfold process_clients. simpl.
    rewrite (bind_return _ _ _ _ _ (process_client_spec env c w o k Ho Hs)).
    rewrite bool_decide_eq_true_2 by assumption.
    eexists. split; [reflexivity|]. simpl. split.
    + rewrite Hafter. now apply insert_id.
    + unfold client_events. now rewrite Hrecv.
  - destruct (run_iteration_spec serversocket env clients w Hreg Hdata)
      as (w' & Hrun & Hreg' & _ & _ & Hheap & Htrace).
    eexists _, w'. split; [exact Hrun|].
    set (r := ready_set serversocket env clients w) in *.
    assert (Hdrop : forall c', (k, c') ∉ filter (fun it => ~ disconnecting env r it)
                      (if decide (Socket.fileno serversocket ∈ r)
                       then dict_set clients (fst (accept_result env)) (fresh (dom (heap w)))
                       else clients)).
    { intros c' Hc'. apply list_elem_of_filter in Hc' as [Hstay _].
      apply Hstay. split; assumption. }
    split; [|split; [|split]].
    + intros Hk. apply list_elem_of_fmap in Hk as ([k' c'] & Heq & Hin').
      simpl in Heq. subst k'. now apply (Hdrop c').
    + intros Hc. apply list_elem_of_fmap in Hc as ([k' c'] & Heq & Hin').
      simpl in Heq. subst c'.
      assert (Hk'c : (k', c) ∈ clients).
      { apply list_elem_of_filter in Hin' as [_ Hin'].
        destruct (decide (Socket.fileno serversocket ∈ r)); [|assumption].
        apply dict_set_elem in Hin' as [[_ Hfresh]|?]; [|assumption].
        exfalso. apply (is_fresh (dom (heap w))). rewrite <- Hfresh.
        apply elem_of_dom. eauto. }
      rewrite <- (registered_same_key clients w k k' c (proj2 Hreg) Hin Hk'c) in Hin'.
      now apply (Hdrop c).
    + rewrite (Hheap k c o Hin Ho).
      destruct (decide (k ∈ r /\ _)); [rewrite Hafter|]; reflexivity.
    + intros b.
      destruct (iteration_events_replace_buffer serversocket env clients w k c o b
                  Hreg Hin Ho Hrecv) as [Hsame_registry Hsame_events].
      destruct (run_iteration_spec serversocket env clients _
                  (replace_buffer_registered clients w c o b Hreg Ho) Hdata)
        as (w2' & Hrun2 & _ & _ & _ & _ & Htrace2).
      exists w2'. split.
      * rewrite Hrun2. unfold registry_after_accept in Hsame_registry.
        simpl in Hsame_registry. simpl. unfold r.
        change (ready_set serversocket env clients
                  (mkWorld (<[c := set_buf o b]> (heap w)) (ser w) (trace w)))
          with (ready_set serversocket env clients w) in *.
        now rewrite Hsame_registry.
      * rewrite Htrace2, Htrace, Hsame_events. reflexivity.
Qed.

Lemma disconnect_forwards_nothing_witness :
  registered clients0 world_partial /\
  (exists w1,
     process_clients (env_of [7] pong (fun _ => RecvBytes [])) [0%nat] world_partial =
       (Return [0%nat], w1) /\
     heap w1 = heap world_partial /\
     trace w1 = trace world_partial ++ [SockRecv 7 (RecvBytes [])]) /\
  (exists clients' w',
     run_iteration serversocket0 (env_of [7] pong (fun _ => RecvBytes [])) clients0
       world_partial = (Return clients', w') /\
     (7 ∉ dict_keys clients') /\ (0%nat ∉ dict_values clients') /\
     heap w' !! 0%nat = Some (set_buf client7 (LineBuf.write LineBuf.init AT_CR)) /\
     forall b, exists w2',
       run_iteration serversocket0 (env_of [7] pong (fun _ => RecvBytes [])) clients0
         (mkWorld (<[0%nat := set_buf (set_buf client7 (LineBuf.write LineBuf.init AT_CR)) b]>
                     (heap world_partial))
            (ser world_partial) (trace world_partial)) =
         (Return clients', w2') /\
       trace w2' = trace w').
Proof.
  split; [exact world_partial_registered|].
  apply (disconnect_forwards_nothing serversocket0 (env_of [7] pong (fun _ => RecvBytes []))
           clients0 world_partial 7 0%nat).
  - exact world_partial_registered.
  - discriminate.
  - apply elem_of_cons. now left.
  - reflexivity.
  - vm_compute. apply elem_of_cons. now left.
  - reflexivity.
Defined.

Lemma not_elem_of_drop (x : byte) (n : nat) (l : bytes) : x ∉ l -> x ∉ drop n l.
Proof. intros Hnot Hin. apply Hnot. now apply (subseteq_drop n l). Qed.

Lemma not_elem_of_take (x : byte) (n : nat) (l : bytes) : x ∉ l -> x ∉ take n l.
Proof. intros Hnot Hin. apply Hnot. now apply (subseteq_take n l). Qed.

(** The split line that is forwarded whole.  A client has no newline in
    its buffer; [pending] is what the buffer holds before its position, the
    bytes of an unfinished line read earlier, none for a new client and
    for one whose last read gave a line and nothing after it.  A line then
    arrives in two reads: first [first], not empty and without newline,
    then [rest] and the newline.  The turn of the client
    after the first read writes nothing to the serial device.  Its turn
    after the second read writes one line and no more, which is [pending],
    [first], [rest] and the newline; with nothing pending it is [first],
    [rest] and the newline, byte for byte.  No newline is left in the
    buffer, so that nothing is written again before another newline
    arrives. *)
Theorem split_line_is_forwarded_once (env1 env2 : Env) (w : World) (k : Z) (c : nat)
    (o : ClientObj.t) (first rest : bytes) :
  heap w !! c = Some o -> ClientObj.sock o = Socket.mk k false ->
  (BytesIO.pos (LineBuf.buf (ClientObj.buf o)) <= length (buffered o))%nat ->
  NL ∉ buffered o ->
  first <> [] -> NL ∉ first -> NL ∉ rest ->
  sock_recv_result env1 k = RecvBytes first ->
  sock_recv_result env2 k = RecvBytes (rest ++ [NL]) ->
  let pending := take (BytesIO.pos (LineBuf.buf (ClientObj.buf o))) (buffered o) in
  exists w1 w2 o2,
    process_clients env1 [c] w = (Return [], w1) /\
    trace w1 = trace w ++ [SockRecv k (RecvBytes first)] /\
    process_clients env2 [c] w1 = (Return [], w2) /\
    trace w2 = trace w1 ++
      [SockRecv k (RecvBytes (rest ++ [NL])); DevWrite (pending ++ first ++ rest ++ [NL])] /\
    (BytesIO.pos (LineBuf.buf (ClientObj.buf o)) = 0%nat ->
     trace w2 = trace w1 ++
       [SockRecv k (RecvBytes (rest ++ [NL])); DevWrite (first ++ rest ++ [NL])]) /\
    heap w2 !! c = Some o2 /\ NL ∉ buffered o2.
Proof.
  intros Ho Hs Hpos Hclean Hne Hfirst Hrest Hrecv1 Hrecv2.
  destruct o as [sock addr [[v p]]]. unfold buffered in *. simpl in Hs, Hpos, Hclean.
  simpl. subst sock.
  assert (Hreceived1 : received env1 k = Some first).
  { unfold received. rewrite Hrecv1. destruct first; congruence. }
  assert (Hreceived2 : received env2 k = Some (rest ++ [NL])).
  { unfold received. rewrite Hrecv2. destruct rest; reflexivity. }
  set (v1 := take p v ++ first ++ drop (p + length first) v).
  assert (Hv1 : NL ∉ v1).
  { unfold v1. apply not_elem_of_app. split; [now apply not_elem_of_take|].
    apply not_elem_of_app. split; [assumption|]. now apply not_elem_of_drop. }
  assert (Hhead : length (take p v ++ first) = (p + length first)%nat).
  { rewrite length_app, length_take_le by assumption. reflexivity. }
  set (o0 := ClientObj.mk (Socket.mk k false) addr (LineBuf.mk (BytesIO.mk v p))) in *.
  set (o1 := set_buf o0 (LineBuf.mk (BytesIO.mk v1 (p + length first)))).
  assert (Hafter1 : client_after env1 k o0 = o1).
  { unfold client_after. rewrite Hreceived1. unfold o1. f_equal.
    unfold LineBuf.write. simpl. rewrite BytesIO_write_inside by assumption.
    fold v1. now apply drained_no_newline. }
  assert (Hevents1 : client_events env1 k o0 = [SockRecv k (RecvBytes first)]).
  { unfold client_events. rewrite Hreceived1, Hrecv1.
    unfold LineBuf.write. simpl. rewrite BytesIO_write_inside by assumption.
    simpl. fold v1. now rewrite split_lines_no_newline. }
  set (tail := drop (p + length first + length (rest ++ [NL])) v1).
  assert (Htail : NL ∉ tail) by now apply not_elem_of_drop.
  assert (Hv2 : BytesIO.getvalue (LineBuf.buf (LineBuf.write (ClientObj.buf o1) (rest ++ [NL])))
                = (take p v ++ first ++ rest) ++ NL :: tail).
  { unfold LineBuf.write. simpl. rewrite BytesIO_write_inside.
    - simpl. fold tail. unfold v1 at 1.
      replace (take p v ++ first ++ drop (p + length first) v)
        with ((take p v ++ first) ++ drop (p + length first) v)
        by (now rewrite <- app_assoc).
      rewrite take_app_length' by (symmetry; exact Hhead).
      now rewrite <- !app_assoc.
    - unfold v1. rewrite app_assoc, length_app. lia. }
  assert (Hline : NL ∉ take p v ++ first ++ rest).
  { apply not_elem_of_app. split; [now apply not_elem_of_take|].
    apply not_elem_of_app. now split. }
  set (w1 := mkWorld (<[c := o1]> (heap w)) (ser w) (trace w ++ [SockRecv k (RecvBytes first)])).
  assert (Htrace2 : client_events env2 k o1 =
            [SockRecv k (RecvBytes (rest ++ [NL]));
             DevWrite (take p v ++ first ++ rest ++ [NL])]).
  { unfold client_events. rewrite Hreceived2, Hrecv2, Hv2.
    rewrite split_lines_first, split_lines_no_newline by assumption.
    simpl. now rewrite <- !app_assoc. }
  exists w1. eexists _, (client_after env2 k o1).
  split; [|split; [|split; [|split; [|split; [|split]]]]].
  - unfold process_clients. simpl.
    rewrite (bind_return _ _ _ _ _ (process_client_spec env1 c w o0 k Ho eq_refl)).
    rewrite bool_decide_eq_false_2 by congruence.
    rewrite Hafter1, Hevents1. reflexivity.
  - reflexivity.
  - unfold process_clients. simpl.
    rewrite (bind_return _ _ _ _ _
               (process_client_spec env2 c w1 o1 k (lookup_insert_eq _ _ _) eq_refl)).
    rewrite bool_decide_eq_false_2 by congruence. reflexivity.
  - simpl. now rewrite Htrace2.
  - intros ->. simpl. rewrite Htrace2. now rewrite take_0.
  - simpl. apply lookup_insert_eq.
  - unfold client_after. rewrite Hreceived2. simpl.
    rewrite drained_value. apply split_lines_tail.
Qed.

Lemma split_line_is_forwarded_once_witness :
  exists w1 w2 o2,
    process_clients (env_of [7] pong (fun _ => RecvBytes AT_CR)) [0%nat] world0 =
      (Return [], w1) /\
    trace w1 = trace world0 ++ [SockRecv 7 (RecvBytes AT_CR)] /\
    process_clients (env_of [7] pong (fun _ => RecvBytes [NL])) [0%nat] w1 =
      (Return [], w2) /\
    trace w2 = trace w1 ++ [SockRecv 7 (RecvBytes [NL]); DevWrite (AT_CR ++ [NL])] /\
    heap w2 !! 0%nat = Some o2 /\ NL ∉ buffered o2.
Proof.
  destruct (split_line_is_forwarded_once
              (env_of [7] pong (fun _ => RecvBytes AT_CR))
              (env_of [7] pong (fun _ => RecvBytes [NL]))
              world0 7 0%nat client7 AT_CR [])
    as (w1 & w2 & o2 & Hrun1 & Htrace1 & Hrun2 & _ & Htrace2 & Ho2 & Hclean).
  - reflexivity.
  - reflexivity.
  - simpl. lia.
  - apply not_elem_of_nil.
  - discriminate.
  - unfold AT_CR. intros Hin. repeat (apply elem_of_cons in Hin as [?|Hin]; [discriminate|]).
    now apply elem_of_nil in Hin.
  - apply not_elem_of_nil.
  - reflexivity.
  - reflexivity.
  - exists w1, w2, o2. repeat split; try assumption. now apply Htrace2.
Defined.

(** C7, on the bridge with two clients.  The client on descriptor 7 has
    sent nothing yet.  Its first read gives [b"ping\nAT\r"], a whole line
    and the start of the line [b"AT\r\n"], and its second read gives
    [b"\n"], the end of that line: the line is split across the two reads.
    The loop writes [b"ping\n"] to the serial device after the first read
    and [b"\n"] after the second.  The line [b"AT\r\n"] is never written:
    [readline] left the [b"AT\r"] it kept in a [BytesIO] at position 0, and
    the write of the second read went over its first byte.  The buffer
    still holds [b"T\r"]. *)
Theorem split_line_after_a_line_is_not_forwarded :
  exists w' o,
    run_from serversocket0
      [env_of [7] [] (fun _ => RecvBytes (ping ++ AT_CR));
       env_of [7] [] (fun _ => RecvBytes [NL])]
      clients0 world0 = (Return clients0, w') /\
    trace w' =
      [SockRecv 7 (RecvBytes (ping ++ AT_CR)); DevWrite ping;
       SockRecv 7 (RecvBytes [NL]); DevWrite [NL]] /\
    (DevWrite (AT_CR ++ [NL]) ∉ trace w') /\
    heap w' !! 0%nat = Some o /\
    buffered o = [x54; x0d].
Proof.
  eexists _, _. split; [vm_compute; reflexivity|].
  split; [reflexivity|]. split; [|split; [vm_compute; reflexivity|reflexivity]].
  intros Hin. simpl in Hin.
  repeat (apply elem_of_cons in Hin as [Heq|Hin]; [discriminate Heq|]).
  now apply elem_of_nil in Hin.
Qed.

(** ** The order of the calls *)

Section Emits.

Context (P : event -> Prop).

Lemma emits_ret {A : Type} (a : A) : emits P (ret a).
Proof. intros w. exists []. simpl. now rewrite app_nil_r. Qed.

Lemma emits_raise {A : Type} (e : exn) : emits P (@raise A e).
Proof. intros w. exists []. simpl. now rewrite app_nil_r. Qed.

Lemma emits_model_fault {A : Type} (f : fault) : emits P (@model_fault A f).
Proof. intros w. exists []. simpl. now rewrite app_nil_r. Qed.

Lemma emits_emit (ev : event) : P ev -> emits P (emit ev).
Proof. intros Hev w. exists [ev]. simpl. split; [reflexivity|]. now constructor. Qed.

Lemma emits_deref (r : nat) : emits P (deref r).
Proof.
  intros w. exists []. unfold deref. destruct (heap w !! r); simpl; now rewrite app_nil_r.
Qed.

Lemma emits_assign (r : nat) (c : ClientObj.t) : emits P (assign r c).
Proof. intros w. exists []. simpl. now rewrite app_nil_r. Qed.

Lemma emits_new_object (c : ClientObj.t) : emits P (new_object c).
Proof. intros w. exists []. simpl. now rewrite app_nil_r. Qed.

Lemma emits_get_ser : emits P get_ser.
Proof. intros w. exists []. simpl. now rewrite app_nil_r. Qed.

Lemma emits_set_ser (s : SerialObj.t) : emits P (set_ser s).
Proof. intros w. exists []. simpl. now rewrite app_nil_r. Qed.

Lemma emits_bind {A B : Type} (m : M A) (k : A -> M B) :
  emits P m -> (forall a, emits P (k a)) -> emits P (bind m k).
Proof.
  intros Hm Hk w. destruct (Hm w) as (evs1 & Ht1 & HP1).
  unfold bind. destruct (m w) as [[a|e|f] w1]; simpl in Ht1.
  - destruct (Hk a w1) as (evs2 & Ht2 & HP2).
    exists (evs1 ++ evs2). rewrite Ht2, Ht1, app_assoc.
    split; [reflexivity|]. now apply Forall_app.
  - exists evs1. now split.
  - exists evs1. now split.
Qed.

Lemma emits_try {A : Type} (m handler : M A) :
  emits P m -> emits P handler -> emits P (try_except_OSError m handler).
Proof.
  intros Hm Hh w. destruct (Hm w) as (evs1 & Ht1 & HP1).
  unfold try_except_OSError. destruct (m w) as [[a|[| |key]|f] w1]; simpl in Ht1;
    try (exists evs1; now split).
  destruct (Hh w1) as (evs2 & Ht2 & HP2).
  exists (evs1 ++ evs2). rewrite Ht2, Ht1, app_assoc.
  split; [reflexivity|]. now apply Forall_app.
Qed.

Lemma emits_for_each {A : Type} (l : list A) (body : A -> M unit) :
  (forall x, emits P (body x)) -> emits P (for_each l body).
Proof.
  intros Hbody. induction l as [|x l IH]; simpl.
  - apply emits_ret.
  - apply emits_bind; [apply Hbody|intros _; exact IH].
Qed.

End Emits.

Lemma emits_then_left (P Q : event -> Prop) {A B : Type} (m : M A) (k : A -> M B) :
  emits P m -> (forall a, emits_then P Q (k a)) -> emits_then P Q (bind m k).
Proof.
  intros Hm Hk w. destruct (Hm w) as (evs & Ht & HP).
  unfold bind. destruct (m w) as [[a|e|f] w1]; simpl in Ht.
  - destruct (Hk a w1) as (evs1 & evs2 & Ht' & HP1 & HQ2).
    exists (evs ++ evs1), evs2. rewrite Ht', Ht, <- !app_assoc.
    split; [reflexivity|]. split; [now apply Forall_app|assumption].
  - exists evs, []. rewrite app_nil_r. split; [exact Ht|]. split; [assumption|constructor].
  - exists evs, []. rewrite app_nil_r. split; [exact Ht|]. split; [assumption|constructor].
Qed.

Lemma emits_then_split (P Q : event -> Prop) {A B : Type} (m : M A) (k : A -> M B) :
  emits P m -> (forall a, emits Q (k a)) -> emits_then P Q (bind m k).
Proof.
  intros Hm Hk w. destruct (Hm w) as (evs1 & Ht1 & HP).
  unfold bind. destruct (m w) as [[a|e|f] w1]; simpl in Ht1.
  - destruct (Hk a w1) as (evs2 & Ht2 & HQ).
    exists evs1, evs2. rewrite Ht2, Ht1, <- app_assoc. split; [reflexivity|]. now split.
  - exists evs1, []. rewrite app_nil_r. split; [exact Ht1|]. split; [assumption|constructor].
  - exists evs1, []. rewrite app_nil_r. split; [exact Ht1|]. split; [assumption|constructor].
Qed.

(** Takes a program apart, down to its calls. *)
Ltac emits_steps :=
  repeat first
    [ apply emits_ret | apply emits_raise | apply emits_model_fault
    | apply emits_deref | apply emits_assign | apply emits_new_object
    | apply emits_get_ser | apply emits_set_ser
    | apply emits_emit; exact I
    | apply emits_try
    | apply emits_bind; [|intros ?]
    | match goal with
      | |- emits _ (match ?x with _ => _ end) => destruct x
      end ].

Lemma process_serial_emits (env : Env) (clients : Dict) :
  emits first_phase (process_serial env clients).
Proof.
  unfold process_serial, Serial.read. emits_steps.
  apply emits_for_each. intros c. unfold Client.write, sock_send. emits_steps.
Qed.

Lemma while_readline_emits (fuel : nat) (c : nat) :
  emits second_phase (while_readline fuel c).
Proof.
  induction fuel as [|fuel IH]; simpl; [apply emits_model_fault|].
  unfold Client.readline, Serial.write. emits_steps. exact IH.
Qed.

Lemma process_client_emits (env : Env) (c : nat) :
  emits second_phase (process_client env c).
Proof.
  unfold process_client, Client.read, sock_recv, forward_lines. emits_steps.
  apply while_readline_emits.
Qed.

Lemma process_clients_from_emits (env : Env) (clients acc : list nat) :
  emits second_phase (process_clients_from env clients acc).
Proof.
  revert acc. induction clients as [|c clients IH]; intros acc; simpl.
  - apply emits_ret.
  - apply emits_bind; [apply process_client_emits|]. intros remove. apply IH.
Qed.

Lemma delete_clients_emits (remove_clients : list nat) (clients : Dict) :
  emits second_phase (delete_clients remove_clients clients).
Proof.
  revert clients. induction remove_clients as [|c rest IH]; intros clients; simpl.
  - apply emits_ret.
  - unfold Client.fileno, del_item. emits_steps; apply IH.
Qed.

Lemma append_filenos_emits (fds : list Z) (cs : list nat) :
  emits first_phase (append_filenos fds cs).
Proof.
  revert fds. induction cs as [|c cs IH]; intros fds; simpl.
  - apply emits_ret.
  - apply emits_bind; [apply emits_deref|]. intros o. apply IH.
Qed.

Lemma run_iteration_phases (serversocket : Socket.t) (env : Env) (clients : Dict) :
  emits_then first_phase second_phase (run_iteration serversocket env clients).
Proof.
  unfold run_iteration, Serial.fileno.
  apply emits_then_left; [emits_steps|]. intros ser_fd.
  apply emits_then_left; [apply append_filenos_emits|]. intros fds.
  apply emits_then_left; [emits_steps|]. intros clients1.
  apply emits_then_left; [emits_steps|]. intros ser_fd'.
  apply emits_then_split.
  - destruct (decide _); [apply process_serial_emits|apply emits_ret].
  - intros _. apply emits_bind.
    + apply process_clients_from_emits.
    + intros remove. apply delete_clients_emits.
Qed.

(** In the calls of an iteration, whatever it returns or raises, no [send]
    to a client comes after a write to the serial device. *)
Lemma no_send_after_a_device_write (serversocket : Socket.t) (env : Env)
    (clients : Dict) (w : World) :
  exists evs,
    trace (snd (run_iteration serversocket env clients w)) = trace w ++ evs /\
    forall i j k data res line,
      evs !! i = Some (SockSend k data res) ->
      evs !! j = Some (DevWrite line) ->
      (i < j)%nat.
Proof.
  destruct (run_iteration_phases serversocket env clients w)
    as (evs1 & evs2 & Htrace & H1 & H2).
  exists (evs1 ++ evs2). split; [exact Htrace|].
  intros i j k data res line Hi Hj.
  destruct (decide (i < length evs1)%nat) as [Hil|Hil].
  - destruct (decide (j < length evs1)%nat) as [Hjl|Hjl]; [|lia].
    rewrite lookup_app_l in Hj by assumption.
    now apply (Forall_lookup_1 _ _ _ _ H1) in Hj.
  - rewrite lookup_app_r in Hi by lia.
    now apply (Forall_lookup_1 _ _ _ _ H2) in Hi.
Qed.

(** The calls of the turns of the clients are reads of their sockets and
    writes to the serial device. *)
Lemma turn_events_second_phase (env : Env) (h : gmap nat ClientObj.t)
    (items : list (Z * nat)) :
  Forall second_phase (flat_map (turn_events env h) items).
Proof.
  induction items as [|[k c] items IH]; simpl; [constructor|].
  apply Forall_app. split; [|exact IH].
  unfold turn_events. simpl. destruct (h !! c) as [o|]; [|constructor].
  unfold client_events. constructor; [exact I|].
  destruct (received env k); [|constructor].
  apply Forall_fmap, Forall_forall. intros line _. exact I.
Qed.

(** C5.  An iteration finds the registry well formed and the serial
    device reported by [select], with bytes to read.  Then the broadcast is
    made and it is over before anything is forwarded: the calls of the
    iteration are the accept, if a connection is pending, the read of the
    serial device and its echo, then one [send] of the bytes read to every
    client of the registry, in its order, and only then the turns of the
    clients that [select] reports, each the [recv] on the client followed
    by the writes to the serial device of the lines it gave.  So every
    write of a line to the serial device comes after the whole
    broadcast. *)
Theorem broadcast_before_forwarding (serversocket : Socket.t) (env : Env)
    (clients : Dict) (w : World) :
  registered clients w -> dev_read env <> [] ->
  let r := ready_set serversocket env clients w in
  let clients1 := registry_after_accept serversocket env clients w in
  let accepted :=
    if decide (Socket.fileno serversocket ∈ r) then [Accept (fst (accept_result env))] else [] in
  let broadcast :=
    (fun k => SockSend k (dev_read env) (sock_send_result env k (dev_read env)))
      <$> dict_keys clients1 in
  let turns :=
    flat_map (turn_events env (heap_after_accept serversocket env clients w))
      (filter (fun item => fst item ∈ r) clients1) in
  SerialObj.dev (ser w) ∈ r ->
  exists clients' w' evs,
    run_iteration serversocket env clients w = (Return clients', w') /\
    trace w' = trace w ++ evs /\
    evs = accepted ++ [DevRead (dev_read env); StdoutWriteDecoded (dev_read env)] ++
          broadcast ++ turns /\
    Forall second_phase turns /\
    (forall j line,
       evs !! j = Some (DevWrite line) ->
       (length accepted + 2 + length broadcast <= j)%nat) /\
    (forall i j k data res line,
       evs !! i = Some (SockSend k data res) ->
       evs !! j = Some (DevWrite line) ->
       (i < j)%nat).
Proof.
  intros Hreg Hdata r clients1 accepted broadcast turns Hser.
  destruct (run_iteration_spec serversocket env clients w Hreg Hdata)
    as (w' & Hrun & _ & _ & _ & _ & Htrace).
  assert (Hevs : iteration_events serversocket env clients w =
                 accepted ++ [DevRead (dev_read env); StdoutWriteDecoded (dev_read env)] ++
                 broadcast ++ turns).
  { unfold iteration_events. fold r. fold clients1.
    destruct (decide (SerialObj.dev (ser w) ∈ r)); [|contradiction].
    fold accepted. fold broadcast. fold turns. now rewrite <- !app_assoc. }
  assert (Hturns : Forall second_phase turns) by apply turn_events_second_phase.
  assert (Hfirst : Forall first_phase
                     (accepted ++ [DevRead (dev_read env); StdoutWriteDecoded (dev_read env)] ++
                      broadcast)).
  { apply Forall_app. split.
    - unfold accepted. destruct (decide _); repeat constructor.
    - apply Forall_app. split; [repeat constructor|].
      unfold broadcast. apply Forall_fmap, Forall_forall. intros k _. exact I. }
  assert (Hlen : length (accepted ++ [DevRead (dev_read env); StdoutWriteDecoded (dev_read env)] ++
                         broadcast) = (length accepted + 2 + length broadcast)%nat).
  { rewrite !length_app. simpl. lia. }
  eexists _, w', _. split; [exact Hrun|]. split; [exact Htrace|].
  split; [exact Hevs|]. split; [exact Hturns|].
  rewrite Hevs.
  replace (accepted ++ [DevRead (dev_read env); StdoutWriteDecoded (dev_read env)] ++
           broadcast ++ turns)
    with ((accepted ++ [DevRead (dev_read env); StdoutWriteDecoded (dev_read env)] ++
           broadcast) ++ turns) by (now rewrite <- !app_assoc).
  assert (Hwrite : forall j line,
            ((accepted ++ [DevRead (dev_read env); StdoutWriteDecoded (dev_read env)] ++
              broadcast) ++ turns) !! j = Some (DevWrite line) ->
            (length accepted + 2 + length broadcast <= j)%nat).
  { intros j line Hj. rewrite <- Hlen.
    destruct (decide (j < length (accepted ++
                [DevRead (dev_read env); StdoutWriteDecoded (dev_read env)] ++ broadcast))%nat)
      as [Hjl|Hjl]; [|lia].
    rewrite lookup_app_l in Hj by assumption.
    now apply (Forall_lookup_1 _ _ _ _ Hfirst) in Hj. }
  split; [exact Hwrite|].
  intros i j k data res line Hi Hj. specialize (Hwrite j line Hj).
  destruct (decide (i < length (accepted ++
              [DevRead (dev_read env); StdoutWriteDecoded (dev_read env)] ++ broadcast))%nat)
    as [Hil|Hil]; [lia|].
  rewrite lookup_app_r in Hi by lia.
  now apply (Forall_lookup_1 _ _ _ _ Hturns) in Hi.
Qed.

Lemma broadcast_before_forwarding_witness :
  registered clients0 world0 /\
  exists clients' w',
    run_iteration serversocket0 (env_of [3; 7] pong (fun _ => RecvBytes ping)) clients0 world0 =
      (Return clients', w') /\
    trace w' =
      [DevRead pong; StdoutWriteDecoded pong;
       SockSend 7 pong (SendCount 5); SockSend 8 pong (SendCount 5);
       SockRecv 7 (RecvBytes ping); DevWrite ping].
Proof.
  split; [exact world0_registered|].
  destruct (broadcast_before_forwarding serversocket0
              (env_of [3; 7] pong (fun _ => RecvBytes ping)) clients0 world0)
    as (clients' & w' & evs & Hrun & Htrace & Hevs & _).
  - exact world0_registered.
  - discriminate.
  - vm_compute. apply elem_of_cons. now left.
  - exists clients', w'. split; [exact Hrun|].
    rewrite Htrace, Hevs. vm_compute. reflexivity.
Defined.

(** An iteration in which the serial device and a client are both
    readable: the bytes of the device are sent to both clients, then the
    line of the client is written to the device. *)
Lemma iteration_with_both_ready :
  trace (snd (run_iteration serversocket0
                (env_of [3; 7] pong (fun _ => RecvBytes ping)) clients0 world0)) =
    [DevRead pong; StdoutWriteDecoded pong;
     SockSend 7 pong (SendCount 5); SockSend 8 pong (SendCount 5);
     SockRecv 7 (RecvBytes ping); DevWrite ping].
Proof. vm_compute. reflexivity. Qed.

(** Two clients connect, the first sends [b"ping\n"], then the serial
    device gives [b"pong\n"]: the line is written once to the device, and
    the bytes of the device are sent once to each client. *)
Lemma two_clients_ping_pong :
  exists w,
    run serversocket0
      [env_accept 7; env_accept 8;
       env_of [7] [] (fun _ => RecvBytes ping); env_of [3] pong (fun _ => RecvBytes [])]
      (mkWorld ∅ (Serial.init 3) []) = (Return clients0, w) /\
    trace w =
      [Accept 7; Accept 8; SockRecv 7 (RecvBytes ping); DevWrite ping;
       DevRead pong; StdoutWriteDecoded pong;
       SockSend 7 pong (SendCount 5); SockSend 8 pong (SendCount 5)].
Proof. eexists. split; vm_compute; reflexivity. Qed.

(** No iteration calls [close]: whatever it is given and however it ends,
    [sock.close()] is not among the calls it makes.  This is about the
    calls written in the loop; what the interpreter does with a socket
    object that nothing refers to any more is not a call of the loop. *)
Lemma run_iteration_never_closes (serversocket : Socket.t) (env : Env)
    (clients : Dict) (w : World) (fd : Z) :
  exists evs,
    trace (snd (run_iteration serversocket env clients w)) = trace w ++ evs /\
    SockClose fd ∉ evs.
Proof.
  destruct (run_iteration_phases serversocket env clients w)
    as (evs1 & evs2 & Htrace & H1 & H2).
  exists (evs1 ++ evs2). split; [exact Htrace|].
  intros Hin. apply elem_of_app in Hin as [Hin|Hin].
  - now apply (proj1 (Forall_forall _ _) H1) in Hin.
  - now apply (proj1 (Forall_forall _ _) H2) in Hin.
Qed.

(** * Further properties of [serial_server.py] *)

(** ** [LineBuf] *)

(** The two outcomes of [readline], on any buffer. *)
Lemma LineBuf_readline_cases (b : LineBuf.t) :
  match LineBuf.readline b with
  | (None, b') => (NL ∉ BytesIO.getvalue (LineBuf.buf b)) /\ b' = b
  | (Some line, b') =>
      is_line line /\
      BytesIO.getvalue (LineBuf.buf b) = line ++ BytesIO.getvalue (LineBuf.buf b') /\
      BytesIO.pos (LineBuf.buf b') = 0%nat
  end.
Proof.
  destruct (first_newline (BytesIO.getvalue (LineBuf.buf b)))
    as [Hnot|(pre & post & Hval & Hpre)].
  - rewrite readline_none by assumption. now split.
  - rewrite (readline_some b pre post Hval Hpre). simpl.
    split; [now exists pre|]. split; [|reflexivity].
    now rewrite Hval, <- app_assoc.
Qed.

(** X1.  [readline] on any buffer: it returns [None] when the buffer has
    no newline, and then leaves the buffer as it is; otherwise it returns a
    line, the bytes of the buffer up to its first newline, and the buffer
    keeps the bytes after it, in a new [BytesIO] whose position is 0. *)
Theorem readline_takes_the_first_line (b : LineBuf.t) :
  match LineBuf.readline b with
  | (None, b') => (NL ∉ BytesIO.getvalue (LineBuf.buf b)) /\ b' = b
  | (Some line, b') =>
      is_line line /\
      BytesIO.getvalue (LineBuf.buf b) = line ++ BytesIO.getvalue (LineBuf.buf b') /\
      BytesIO.pos (LineBuf.buf b') = 0%nat
  end.
Proof.
  destruct (first_newline (BytesIO.getvalue (LineBuf.buf b)))
    as [Hnot|(pre & post & Hval & Hpre)].
  - rewrite readline_none by assumption. now split.
  - rewrite (readline_some b pre post Hval Hpre). simpl.
    split; [now exists pre|]. split; [|reflexivity].
    now rewrite Hval, <- app_assoc.
Qed.

(** X2.  A write that follows a [readline] that returned a line is stored
    from the start of the bytes the buffer kept, over them: the buffer
    then holds the bytes written, followed by the kept bytes beyond their
    length.  When at least as many bytes are written as were kept, none of
    the kept bytes is left. *)
Theorem write_after_readline_overwrites_kept_bytes (b b' : LineBuf.t) (line data : bytes) :
  LineBuf.readline b = (Some line, b') ->
  let kept := BytesIO.getvalue (LineBuf.buf b') in
  BytesIO.getvalue (LineBuf.buf (LineBuf.write b' data)) = data ++ drop (length data) kept /\
  ((length kept <= length data)%nat ->
   BytesIO.getvalue (LineBuf.buf (LineBuf.write b' data)) = data).
Proof.
  intros Hread kept.
  pose proof (LineBuf_readline_cases b) as Hspec. rewrite Hread in Hspec.
  destruct Hspec as (_ & _ & Hpos).
  assert (Hwrite : BytesIO.getvalue (LineBuf.buf (LineBuf.write b' data)) =
                   data ++ drop (length data) kept).
  { unfold kept. destruct b' as [[v p]]. simpl in *. subst p.
    rewrite BytesIO_write_inside by lia. simpl. reflexivity. }
  split; [exact Hwrite|].
  intros Hlen. rewrite Hwrite, drop_ge by assumption. apply app_nil_r.
Qed.

Lemma write_after_readline_overwrites_kept_bytes_witness :
  LineBuf.readline (LineBuf.write LineBuf.init (ping ++ AT_CR)) =
    (Some ping, LineBuf.mk (BytesIO.new AT_CR)) /\
  BytesIO.getvalue (LineBuf.buf (LineBuf.write (LineBuf.mk (BytesIO.new AT_CR)) [NL])) =
    [NL] ++ drop (length [NL]) AT_CR.
Proof.
  split; [reflexivity|].
  apply (write_after_readline_overwrites_kept_bytes
           (LineBuf.write LineBuf.init (ping ++ AT_CR)) (LineBuf.mk (BytesIO.new AT_CR))
           ping [NL]).
  reflexivity.
Defined.

(** ** The turn of a client *)

(** X3.  A client with nothing pending sends, in one read, a line and
    the start of a second line, and in the next read the end of the second
    line.  The first line is written to the serial device after the first
    read.  After the second read the line written is the bytes of the
    second read alone: the start of the second line, which came with the
    first read, is not in it, and the buffer keeps of it only what lies
    beyond the length of the second read. *)
Theorem start_of_next_line_is_overwritten (env1 env2 : Env) (w : World) (k : Z) (c : nat)
    (o : ClientObj.t) (line1 start rest : bytes) :
  heap w !! c = Some o -> ClientObj.sock o = Socket.mk k false ->
  BytesIO.pos (LineBuf.buf (ClientObj.buf o)) = 0%nat -> NL ∉ buffered o ->
  NL ∉ line1 -> NL ∉ start -> NL ∉ rest ->
  sock_recv_result env1 k = RecvBytes (line1 ++ [NL] ++ start) ->
  sock_recv_result env2 k = RecvBytes (rest ++ [NL]) ->
  exists w1 w2 o2,
    process_clients env1 [c] w = (Return [], w1) /\
    trace w1 = trace w ++
      [SockRecv k (RecvBytes (line1 ++ [NL] ++ start)); DevWrite (line1 ++ [NL])] /\
    process_clients env2 [c] w1 = (Return [], w2) /\
    trace w2 = trace w1 ++
      [SockRecv k (RecvBytes (rest ++ [NL])); DevWrite (rest ++ [NL])] /\
    heap w2 !! c = Some o2 /\
    buffered o2 = drop (length (rest ++ [NL])) (start ++ drop (length (line1 ++ [NL] ++ start)) (buffered o)).
Proof.
  intros Ho Hs Hpos Hclean Hline1 Hstart Hrest Hrecv1 Hrecv2.
  destruct o as [sock addr [[v p]]]. unfold buffered in *. simpl in Hs, Hpos, Hclean.
  simpl. subst sock p.
  set (d1 := line1 ++ [NL] ++ start) in *.
  assert (Hd1 : exists b l, d1 = b :: l).
  { unfold d1. destruct line1; simpl; eauto. }
  destruct Hd1 as (b1 & l1 & Hd1).
  assert (Hreceived1 : received env1 k = Some d1).
  { unfold received. rewrite Hrecv1, Hd1. reflexivity. }
  assert (Hreceived2 : received env2 k = Some (rest ++ [NL])).
  { unfold received. rewrite Hrecv2. destruct rest; reflexivity. }
  set (o0 := ClientObj.mk (Socket.mk k false) addr (LineBuf.mk (BytesIO.mk v 0))) in *.
  set (kept := start ++ drop (length d1) v).
  assert (Hkept : NL ∉ kept).
  { unfold kept. apply not_elem_of_app. split; [assumption|]. now apply not_elem_of_drop. }
  assert (Hv1 : BytesIO.getvalue (LineBuf.buf (LineBuf.write (ClientObj.buf o0) d1)) =
                line1 ++ NL :: kept).
  { unfold LineBuf.write. simpl. rewrite BytesIO_write_inside by (simpl; lia).
    simpl. unfold kept, d1. now rewrite <- !app_assoc. }
  set (o1 := set_buf o0 (LineBuf.mk (BytesIO.new kept))).
  assert (Hafter1 : client_after env1 k o0 = o1).
  { unfold client_after. rewrite Hreceived1. unfold o1. f_equal.
    rewrite (drained_first _ line1 kept Hv1 Hline1).
    now apply drained_no_newline. }
  assert (Hevents1 : client_events env1 k o0 =
                     [SockRecv k (RecvBytes d1); DevWrite (line1 ++ [NL])]).
  { unfold client_events. rewrite Hreceived1, Hrecv1, Hv1.
    rewrite split_lines_first, split_lines_no_newline by assumption. reflexivity. }
  set (tail := drop (length (rest ++ [NL])) kept).
  assert (Htail : NL ∉ tail) by now apply not_elem_of_drop.
  assert (Hv2 : BytesIO.getvalue (LineBuf.buf (LineBuf.write (ClientObj.buf o1) (rest ++ [NL])))
                = rest ++ NL :: tail).
  { unfold LineBuf.write, o1, BytesIO.new. simpl.
    rewrite BytesIO_write_inside by (simpl; lia).
    simpl. fold tail. now rewrite <- app_assoc. }
  set (w1 := mkWorld (<[c := o1]> (heap w)) (ser w)
               (trace w ++ [SockRecv k (RecvBytes d1); DevWrite (line1 ++ [NL])])).
  exists w1. eexists _, (client_after env2 k o1).
  split; [|split; [|split; [|split; [|split]]]].
  - unfold process_clients. simpl.
    rewrite (bind_return _ _ _ _ _ (process_client_spec env1 c w o0 k Ho eq_refl)).
    rewrite bool_decide_eq_false_2 by congruence.
    rewrite Hafter1, Hevents1. reflexivity.
  - reflexivity.
  - unfold process_clients. simpl.
    rewrite (bind_return _ _ _ _ _
               (process_client_spec env2 c w1 o1 k (lookup_insert_eq _ _ _) eq_refl)).
    rewrite bool_decide_eq_false_2 by congruence. reflexivity.
  - simpl. unfold client_events. rewrite Hreceived2, Hrecv2, Hv2.
    rewrite split_lines_first, split_lines_no_newline by assumption. reflexivity.
  - simpl. apply lookup_insert_eq.
  - unfold client_after. rewrite Hreceived2.
    change (ClientObj.buf (set_buf o1 ?x)) with x.
    rewrite drained_value, Hv2, split_lines_first, split_lines_no_newline by assumption.
    reflexivity.
Qed.

Lemma start_of_next_line_is_overwritten_witness :
  exists w1 w2 o2,
    process_clients (env_of [7] pong (fun _ => RecvBytes (ping ++ AT_CR))) [0%nat] world0 =
      (Return [], w1) /\
    trace w1 = trace world0 ++ [SockRecv 7 (RecvBytes (ping ++ AT_CR)); DevWrite ping] /\
    process_clients (env_of [7] pong (fun _ => RecvBytes [NL])) [0%nat] w1 = (Return [], w2) /\
    trace w2 = trace w1 ++ [SockRecv 7 (RecvBytes [NL]); DevWrite [NL]] /\
    heap w2 !! 0%nat = Some o2 /\ buffered o2 = [x54; x0d].
Proof.
  destruct (start_of_next_line_is_overwritten
              (env_of [7] pong (fun _ => RecvBytes (ping ++ AT_CR)))
              (env_of [7] pong (fun _ => RecvBytes [NL]))
              world0 7 0%nat client7 [x70; x69; x6e; x67] AT_CR [])
    as (w1 & w2 & o2 & H1 & H2 & H3 & H4 & H5 & H6).
  - reflexivity.
  - reflexivity.
  - reflexivity.
  - apply not_elem_of_nil.
  - intros Hin. repeat (apply elem_of_cons in Hin as [?|Hin]; [discriminate|]).
    now apply elem_of_nil in Hin.
  - unfold AT_CR. intros Hin. repeat (apply elem_of_cons in Hin as [?|Hin]; [discriminate|]).
    now apply elem_of_nil in Hin.
  - apply not_elem_of_nil.
  - reflexivity.
  - reflexivity.
  - exists w1, w2, o2. repeat split; assumption.
Defined.

(** ** One iteration of [run], in full *)

(** An iteration, when the registry is well formed and the serial device
    has bytes: the clients it leaves, new one included, and the [Serial]
    object it leaves. *)
Lemma run_iteration_full (serversocket : Socket.t) (env : Env) (clients : Dict) (w : World) :
  registered clients w -> dev_read env <> [] ->
  let r := ready_set serversocket env clients w in
  let clients1 := registry_after_accept serversocket env clients w in
  let heap1 := heap_after_accept serversocket env clients w in
  exists w',
    run_iteration serversocket env clients w =
      (Return (filter (fun it => ~ disconnecting env r it) clients1), w') /\
    trace w' = trace w ++ iteration_events serversocket env clients w /\
    registered clients1 (mkWorld heap1 (ser w) (trace w)) /\
    (forall k c o, (k, c) ∈ clients1 -> heap1 !! c = Some o ->
       heap w' !! c = Some (if decide (k ∈ r) then client_after env k o else o)) /\
    ser w' =
      (if decide (SerialObj.dev (ser w) ∈ r)
       then SerialObj.mk (SerialObj.dev (ser w))
              (LineBuf.write (SerialObj.buf (ser w)) (dev_read env))
       else ser w).
Proof.
  intros Hreg Hdata r clients1 heap1.
  assert (Hreg1 : registered clients1 (mkWorld heap1 (ser w) (trace w))).
  { unfold clients1, heap1, registry_after_accept, heap_after_accept. fold r.
    destruct (decide (Socket.fileno serversocket ∈ r)).
    - apply (registered_heap _
               (mkWorld (<[fresh (dom (heap w)) :=
                            Client.init (Socket.mk (fst (accept_result env)) false)
                              (snd (accept_result env))]> (heap w))
                  (ser w) (trace w ++ [Accept (fst (accept_result env))]))); [reflexivity|].
      apply (accept_spec clients w _ _ Hreg).
    - now destruct w. }
  unfold run_iteration.
  assert (Hfileno : forall w0, Serial.fileno w0 = (Return (SerialObj.dev (ser w0)), w0)).
  { intros w0. reflexivity. }
  rewrite (bind_return _ _ _ _ _ (Hfileno w)).
  unfold dict_values.
  rewrite (bind_return _ _ _ _ _
             (append_filenos_spec clients
                [Socket.fileno serversocket; SerialObj.dev (ser w)] w (proj2 Hreg))).
  fold (dict_keys clients). fold (ready_set serversocket env clients w). fold r.
  rewrite (bind_return _ _ _ _ _ (accept_stage_spec _ env clients w)).
  fold (registry_after_accept serversocket env clients w). fold clients1.
  set (w1 := if decide (Socket.fileno serversocket ∈ r) then _ else w).
  assert (Hw1 : heap w1 = heap1 /\ ser w1 = ser w /\
                trace w1 = trace w ++
                  (if decide (Socket.fileno serversocket ∈ r)
                   then [Accept (fst (accept_result env))] else [])).
  { unfold w1, heap1, heap_after_accept. fold r.
    destruct (decide (Socket.fileno serversocket ∈ r)); [now repeat split|].
    rewrite app_nil_r. now repeat split. }
  destruct Hw1 as (Hheap1 & Hser1 & Htrace1).
  assert (Hreg1' : registered clients1 w1)
    by exact (registered_heap _ (mkWorld heap1 (ser w) (trace w)) w1 Hheap1 Hreg1).
  rewrite (bind_return _ _ _ _ _ (Hfileno w1)). rewrite Hser1.
  assert (Hserial : exists w2,
    (if decide (SerialObj.dev (ser w) ∈ r) then process_serial env clients1 else ret tt) w1 =
      (Return tt, w2) /\
    heap w2 = heap1 /\
    ser w2 =
      (if decide (SerialObj.dev (ser w) ∈ r)
       then SerialObj.mk (SerialObj.dev (ser w))
              (LineBuf.write (SerialObj.buf (ser w)) (dev_read env))
       else ser w) /\
    trace w2 = trace w1 ++
      (if decide (SerialObj.dev (ser w) ∈ r)
       then [DevRead (dev_read env); StdoutWriteDecoded (dev_read env)] ++
            ((fun k => SockSend k (dev_read env) (sock_send_result env k (dev_read env)))
               <$> dict_keys clients1)
       else [])).
  { destruct (decide (SerialObj.dev (ser w) ∈ r)) as [Hser|Hser].
    - rewrite (process_serial_spec env clients1 w1 Hdata (proj2 Hreg1')).
      eexists. split; [reflexivity|]. simpl. rewrite Hser1. now repeat split.
    - exists w1. split; [reflexivity|]. rewrite app_nil_r. now repeat split. }
  destruct Hserial as (w2 & Hrun2 & Hheap2 & Hser2 & Htrace2).
  rewrite (bind_return _ _ _ _ _ Hrun2).
  assert (Hreg2 : registered clients1 w2)
    by exact (registered_heap _ (mkWorld heap1 (ser w) (trace w)) w2 Hheap2 Hreg1).
  destruct (process_and_delete_spec env r clients1 w2 Hreg2)
    as (w' & Hrun3 & Hser3 & _ & _ & Hin3 & _ & Htrace3).
  exists w'. split; [exact Hrun3|]. split; [|split; [exact Hreg1|split]].
  - rewrite Htrace3, Htrace2, Htrace1, Hheap2.
    unfold iteration_events. fold r. fold clients1. fold heap1.
    now rewrite <- !app_assoc.
  - intros k c o Hkc Ho. apply Hin3; [assumption|]. now rewrite Hheap2.
  - now rewrite Hser3.
Qed.

(** ** What is written to the serial device *)

(** A program whose calls [P] allows and whose result, when it returns,
    satisfies [Q], followed by a program that [P] allows for such results. *)
Lemma emits_bind_post (P : event -> Prop) {A B : Type} (Q : A -> Prop)
    (m : M A) (k : A -> M B) :
  (forall w, exists evs, trace (snd (m w)) = trace w ++ evs /\ Forall P evs /\
             forall a, fst (m w) = Return a -> Q a) ->
  (forall a, Q a -> emits P (k a)) ->
  emits P (bind m k).
Proof.
  intros Hm Hk w. destruct (Hm w) as (evs1 & Ht1 & HP1 & HQ).
  unfold bind. destruct (m w) as [[a|e|f] w1]; simpl in Ht1.
  - destruct (Hk a (HQ a eq_refl) w1) as (evs2 & Ht2 & HP2).
    exists (evs1 ++ evs2). rewrite Ht2, Ht1, app_assoc.
    split; [reflexivity|]. now apply Forall_app.
  - exists evs1. now split.
  - exists evs1. now split.
Qed.

Lemma Client_readline_returns_a_line (c : nat) (w : World) :
  exists evs,
    trace (snd (Client.readline c w)) = trace w ++ evs /\
    Forall writes_whole_lines evs /\
    forall line, fst (Client.readline c w) = Return line ->
      match line with Some l => is_line l | None => True end.
Proof.
  exists []. unfold Client.readline. prog_unfold.
  destruct (heap w !! c) as [o|]; simpl.
  - pose proof (LineBuf_readline_cases (ClientObj.buf o)) as Hspec.
    destruct (LineBuf.readline (ClientObj.buf o)) as [[l|] b']; simpl;
      rewrite app_nil_r; (split; [reflexivity|]); (split; [constructor|]);
      intros line [= <-]; [apply Hspec|exact I].
  - rewrite app_nil_r. split; [reflexivity|]. split; [constructor|]. discriminate.
Qed.

Lemma while_readline_whole_lines (fuel : nat) (c : nat) :
  emits writes_whole_lines (while_readline fuel c).
Proof.
  induction fuel as [|fuel IH]; simpl; [apply emits_model_fault|].
  apply (emits_bind_post _
           (fun line => match line with Some l => is_line l | None => True end)).
  - intros w. apply Client_readline_returns_a_line.
  - intros [[|b l]|] Hline; try apply emits_ret.
    apply emits_bind; [|intros _; exact IH].
    unfold Serial.write. apply emits_emit. exact Hline.
Qed.

Lemma run_iteration_whole_lines (serversocket : Socket.t) (env : Env) (clients : Dict) :
  emits writes_whole_lines (run_iteration serversocket env clients).
Proof.
  assert (Hclients : forall cs acc, emits writes_whole_lines (process_clients_from env cs acc)).
  { induction cs as [|c cs IH]; intros acc; simpl; [apply emits_ret|].
    apply emits_bind; [|intros remove; apply IH].
    unfold process_client. apply emits_bind.
    - unfold Client.read, sock_recv. emits_steps.
    - intros [[|b l]|]; try apply emits_ret.
      apply emits_bind; [|intros _; apply emits_ret].
      unfold forward_lines. apply emits_bind; [apply emits_deref|].
      intros o. apply while_readline_whole_lines. }
  assert (Hdelete : forall rs cl, emits writes_whole_lines (delete_clients rs cl)).
  { induction rs as [|c rs IH]; intros cl; simpl; [apply emits_ret|].
    unfold Client.fileno, del_item. emits_steps; apply IH. }
  assert (Hfilenos : forall cs fds, emits writes_whole_lines (append_filenos fds cs)).
  { induction cs as [|c cs IH]; intros fds; simpl; [apply emits_ret|].
    apply emits_bind; [apply emits_deref|]. intros o. apply IH. }
  unfold run_iteration, Serial.fileno, process_clients.
  apply emits_bind; [emits_steps|]. intros ser_fd.
  apply emits_bind; [apply Hfilenos|]. intros fds.
  apply emits_bind; [emits_steps|]. intros clients1.
  apply emits_bind; [emits_steps|]. intros ser_fd'.
  apply emits_bind.
  - destruct (decide _); [|apply emits_ret].
    unfold process_serial, Serial.read. emits_steps.
    apply emits_for_each. intros c. unfold Client.write, sock_send. emits_steps.
  - intros _. apply emits_bind; [apply Hclients|]. intros remove. apply Hdelete.
Qed.

(** X4.  Whatever an iteration is given and however it ends, every write
    it makes to the serial device is one line: bytes other than newline
    followed by one newline.  The device never gets a partial line, an
    empty write, or two lines in one write. *)
Theorem serial_device_gets_whole_lines (serversocket : Socket.t) (env : Env)
    (clients : Dict) (w : World) :
  exists evs,
    trace (snd (run_iteration serversocket env clients w)) = trace w ++ evs /\
    forall data, DevWrite data ∈ evs -> is_line data.
Proof.
  destruct (run_iteration_whole_lines serversocket env clients w) as (evs & Htrace & Hall).
  exists evs. split; [exact Htrace|].
  intros data Hin. exact (proj1 (Forall_forall _ _) Hall _ Hin).
Qed.

(** ** Who is read, who is accepted *)

Lemma recv_descriptors_turns (env : Env) (h : gmap nat ClientObj.t) (items : list (Z * nat)) :
  (forall k c, (k, c) ∈ items -> is_Some (h !! c)) ->
  recv_descriptors (flat_map (turn_events env h) items) = fst <$> items.
Proof.
  induction items as [|[k c] items IH]; intros Hsome; csimpl; [reflexivity|].
  unfold recv_descriptors in *. rewrite omap_app, IH.
  - destruct (Hsome k c) as [o Ho]; [apply elem_of_cons; now left|].
    unfold turn_events. simpl. rewrite Ho. unfold client_events. csimpl.
    f_equal.
    assert (Hnone : forall ls : list bytes,
              omap (fun e => match e with SockRecv k0 _ => Some k0 | _ => None end)
                (DevWrite <$> ls) = []).
    { induction ls as [|l ls IHls]; [reflexivity|exact IHls]. }
    destruct (received env k); [now rewrite Hnone|reflexivity].
  - intros k' c' Hin. apply (Hsome k' c'), elem_of_cons. now right.
Qed.

(** X5.  In an iteration that finds the registry well formed, [recv] is
    called once on each registered client that [select] reports, in the
    order of the registry, the client accepted in the iteration included
    if it is reported, and on no other socket; and [accept] is called once
    if the listening socket is reported and not at all otherwise. *)
Theorem each_readable_client_is_read_once (serversocket : Socket.t) (env : Env)
    (clients : Dict) (w : World) :
  registered clients w -> dev_read env <> [] ->
  let r := ready_set serversocket env clients w in
  let clients1 := registry_after_accept serversocket env clients w in
  exists clients' w' evs,
    run_iteration serversocket env clients w = (Return clients', w') /\
    trace w' = trace w ++ evs /\
    recv_descriptors evs = dict_keys (filter (fun item => fst item ∈ r) clients1) /\
    accepted_descriptors evs =
      (if decide (Socket.fileno serversocket ∈ r) then [fst (accept_result env)] else []).
Proof.
  intros Hreg Hdata r clients1.
  destruct (run_iteration_full serversocket env clients w Hreg Hdata)
    as (w' & Hrun & Htrace & Hreg1 & _).
  eexists _, w', _. split; [exact Hrun|]. split; [exact Htrace|].
  assert (Hsends : forall (X : Type) (f : X -> event) (g : event -> option Z) (ks : list X),
            (forall k, g (f k) = None) -> omap g (f <$> ks) = []).
  { intros X f g ks Hfg. induction ks as [|k ks IH]; csimpl; [reflexivity|].
    now rewrite Hfg. }
  unfold iteration_events. fold r. fold clients1. split.
  - unfold recv_descriptors. rewrite !omap_app.
    fold (recv_descriptors
            (flat_map (turn_events env (heap_after_accept serversocket env clients w))
               (filter (fun item => fst item ∈ r) clients1))).
    rewrite recv_descriptors_turns.
    + destruct (decide (Socket.fileno serversocket ∈ r));
        destruct (decide (SerialObj.dev (ser w) ∈ r)); csimpl;
        rewrite ?Hsends by reflexivity; reflexivity.
    + intros k c Hin. apply list_elem_of_filter in Hin as [_ Hin].
      destruct (proj2 Hreg1 k c Hin) as (o & Ho & _). simpl in Ho. eauto.
  - unfold accepted_descriptors. rewrite !omap_app.
    assert (Hturns : forall h items,
              omap (fun e => match e with Accept k => Some k | _ => None end)
                (flat_map (turn_events env h) items) = []).
    { intros h items. induction items as [|[k c] items IH]; csimpl; [reflexivity|].
      rewrite omap_app, IH, app_nil_r. unfold turn_events. simpl.
      destruct (h !! c) as [o|]; [|reflexivity]. unfold client_events. csimpl.
      destruct (received env k); [|reflexivity]. apply Hsends. reflexivity. }
    rewrite Hturns, app_nil_r.
    destruct (decide (Socket.fileno serversocket ∈ r));
      destruct (decide (SerialObj.dev (ser w) ∈ r)); csimpl;
      rewrite ?Hsends by reflexivity; reflexivity.
Qed.

Lemma each_readable_client_is_read_once_witness :
  registered clients0 world0 /\
  exists clients' w' evs,
    run_iteration serversocket0 (env_of [4; 7; 8] pong (fun _ => RecvBytes ping)) clients0 world0 =
      (Return clients', w') /\
    trace w' = trace world0 ++ evs /\
    recv_descriptors evs = [7; 8] /\
    accepted_descriptors evs = [9].
Proof.
  split; [exact world0_registered|].
  destruct (each_readable_client_is_read_once serversocket0
              (env_of [4; 7; 8] pong (fun _ => RecvBytes ping)) clients0 world0
              world0_registered) as (clients' & w' & evs & Hrun & Htrace & Hrecv & Hacc);
    [discriminate|].
  exists clients', w', evs. repeat split; assumption.
Defined.

(** ** Who stays in the registry *)

Lemma registry_after_accept_keys (serversocket : Socket.t) (env : Env)
    (clients : Dict) (w : World) (k : Z) :
  k ∈ dict_keys clients ->
  k ∈ dict_keys (registry_after_accept serversocket env clients w).
Proof.
  intros Hk. unfold registry_after_accept. destruct (decide _); [|assumption].
  rewrite dict_set_keys. destruct (decide _); [assumption|].
  apply elem_of_app. now left.
Qed.

(** X6.  A registered identifier is missing from the registry after an
    iteration exactly when its socket was reported readable in that
    iteration and reading it gave nothing: [recv] raised [OSError] or
    returned no byte.  Nothing else takes an identifier out. *)
Theorem identifier_leaves_only_by_disconnect (serversocket : Socket.t) (env : Env)
    (clients : Dict) (w : World) (k : Z) :
  registered clients w -> dev_read env <> [] ->
  k ∈ dict_keys clients ->
  exists clients' w',
    run_iteration serversocket env clients w = (Return clients', w') /\
    (k ∉ dict_keys clients' <->
     k ∈ ready_set serversocket env clients w /\
     (sock_recv_result env k = RecvOSError \/ sock_recv_result env k = RecvBytes [])).
Proof.
  intros Hreg Hdata Hk.
  destruct (run_iteration_full serversocket env clients w Hreg Hdata) as (w' & Hrun & _).
  eexists _, w'. split; [exact Hrun|].
  rewrite <- received_None.
  set (r := ready_set serversocket env clients w).
  apply (registry_after_accept_keys serversocket env clients w) in Hk.
  apply list_elem_of_fmap in Hk as ([k' c] & Heq & Hin). simpl in Heq. subst k'.
  split.
  - intros Hgone. destruct (decide (received env k = None /\ k ∈ r)) as [[? ?]|Hstay];
      [now split|].
    exfalso. apply Hgone. apply list_elem_of_fmap. exists (k, c). split; [reflexivity|].
    apply list_elem_of_filter. split; [exact Hstay|exact Hin].
  - intros [Hr Hrecv] Hstill.
    apply list_elem_of_fmap in Hstill as ([k' c'] & Heq & Hin'). simpl in Heq. subst k'.
    apply list_elem_of_filter in Hin' as [Hstay _]. apply Hstay. now split.
Qed.

Lemma identifier_leaves_only_by_disconnect_witness :
  registered clients0 world0 /\
  exists clients' w',
    run_iteration serversocket0 env_broken clients0 world0 = (Return clients', w') /\
    (7 ∉ dict_keys clients' <->
     7 ∈ ready_set serversocket0 env_broken clients0 world0 /\
     (sock_recv_result env_broken 7 = RecvOSError \/
      sock_recv_result env_broken 7 = RecvBytes [])).
Proof.
  split; [exact world0_registered|].
  apply (identifier_leaves_only_by_disconnect serversocket0 env_broken clients0 world0 7).
  - exact world0_registered.
  - discriminate.
  - unfold clients0, dict_keys. csimpl. apply elem_of_cons. now left.
Defined.

Lemma dict_set_elem_other (d : Dict) (k : Z) (v : nat) (k' : Z) (v' : nat) :
  (k', v') ∈ d -> k' <> k -> (k', v') ∈ dict_set d k v.
Proof.
  intros Hin Hne. induction d as [|[k0 v0] d IH]; simpl.
  - now apply elem_of_nil in Hin.
  - apply elem_of_cons in Hin as [Heq|Hin].
    + injection Heq as <- <-.
      destruct (decide (k' = k)); [contradiction|]. apply elem_of_cons. now left.
    + destruct (decide (k0 = k)); apply elem_of_cons; right; [exact Hin|exact (IH Hin)].
Qed.

(** X7.  A registered client whose socket [select] does not report is
    left alone by the iteration: its object is as it was, buffer included,
    and it is still registered, under the same identifier.  The connection
    accepted in the iteration, if there is one, has another descriptor
    than this client, whose socket is open: [clients[sock.fileno()] = ...]
    would put the new client in its place. *)
Theorem idle_client_is_left_alone (serversocket : Socket.t) (env : Env)
    (clients : Dict) (w : World) (k : Z) (c : nat) (o : ClientObj.t) :
  registered clients w -> dev_read env <> [] ->
  (k, c) ∈ clients -> heap w !! c = Some o ->
  k ∉ ready_set serversocket env clients w ->
  (Socket.fileno serversocket ∈ ready_set serversocket env clients w ->
   fst (accept_result env) <> k) ->
  exists clients' w',
    run_iteration serversocket env clients w = (Return clients', w') /\
    heap w' !! c = Some o /\
    (k, c) ∈ clients'.
Proof.
  intros Hreg Hdata Hin Ho Hidle Hnew.
  destruct (run_iteration_spec serversocket env clients w Hreg Hdata)
    as (w' & Hrun & _ & _ & _ & Hheap & _).
  eexists _, w'. split; [exact Hrun|]. split.
  - rewrite (Hheap k c o Hin Ho).
    destruct (decide (k ∈ _ /\ _)) as [[Hr _]|_]; [contradiction|reflexivity].
  - apply list_elem_of_filter. split; [intros [_ Hr]; contradiction|].
    destruct (decide (Socket.fileno serversocket ∈ ready_set serversocket env clients w))
      as [Hsrv|_]; [|exact Hin].
    apply dict_set_elem_other; [exact Hin|]. intros E. exact (Hnew Hsrv (eq_sym E)).
Qed.

Lemma idle_client_is_left_alone_witness :
  registered clients0 world_partial /\
  exists clients' w',
    run_iteration serversocket0
      (env_of [3; 4; 8] pong (fun _ => RecvBytes ping))
      clients0 world_partial = (Return clients', w') /\
    heap w' !! 0%nat = Some (set_buf client7 (LineBuf.write LineBuf.init AT_CR)) /\
    (7, 0%nat) ∈ clients'.
Proof.
  split; [exact world_partial_registered|].
  apply (idle_client_is_left_alone serversocket0
           (env_of [3; 4; 8] pong (fun _ => RecvBytes ping))
           clients0 world_partial 7 0%nat).
  - exact world_partial_registered.
  - discriminate.
  - apply elem_of_cons. now left.
  - reflexivity.
  - vm_compute. intros Hin.
    repeat (apply elem_of_cons in Hin as [?|Hin]; [discriminate|]).
    now apply elem_of_nil in Hin.
  - intros _. discriminate.
Defined.

Lemma dict_set_elem_new (d : Dict) (k : Z) (v : nat) : (k, v) ∈ dict_set d k v.
Proof.
  induction d as [|[k0 v0] d IH]; simpl.
  - apply list_elem_of_singleton. reflexivity.
  - destruct (decide (k0 = k)); apply elem_of_cons; [now left|now right].
Qed.

(** X8.  The listening socket is reported, and the descriptor of the
    socket that [accept] returns is not among those reported.  Then the
    iteration registers the connection under that descriptor, as a new
    [Client] object with an empty buffer, and does not read from it.  When
    the serial device is reported too, the bytes read from it are sent to
    the new client as well. *)
Theorem accepted_client_is_registered (serversocket : Socket.t) (env : Env)
    (clients : Dict) (w : World) :
  registered clients w -> dev_read env <> [] ->
  let r := ready_set serversocket env clients w in
  let fd := fst (accept_result env) in
  Socket.fileno serversocket ∈ r -> fd ∉ r ->
  exists clients' w' c,
    run_iteration serversocket env clients w = (Return clients', w') /\
    heap w !! c = None /\
    (fd, c) ∈ clients' /\
    heap w' !! c = Some (Client.init (Socket.mk fd false) (snd (accept_result env))) /\
    (SockRecv fd (sock_recv_result env fd) ∉ drop (length (trace w)) (trace w')) /\
    (SerialObj.dev (ser w) ∈ r ->
     SockSend fd (dev_read env) (sock_send_result env fd (dev_read env))
       ∈ drop (length (trace w)) (trace w')).
Proof.
  intros Hreg Hdata r fd Hsrv Hnew.
  destruct (run_iteration_full serversocket env clients w Hreg Hdata)
    as (w' & Hrun & Htrace & Hreg1 & Hheap & _).
  fold r in Hrun, Hheap.
  set (c := fresh (dom (heap w))).
  assert (Hclients1 : registry_after_accept serversocket env clients w = dict_set clients fd c).
  { unfold registry_after_accept. fold r. now destruct (decide _). }
  assert (Hheap1 : heap_after_accept serversocket env clients w =
                   <[c := Client.init (Socket.mk fd false) (snd (accept_result env))]> (heap w)).
  { unfold heap_after_accept. fold r. now destruct (decide _). }
  assert (Hevents : drop (length (trace w)) (trace w') =
                    iteration_events serversocket env clients w).
  { rewrite Htrace. apply drop_app_length. }
  eexists _, w', c. split; [exact Hrun|]. split; [|split; [|split; [|split]]].
  - apply not_elem_of_dom, is_fresh.
  - apply list_elem_of_filter. split.
    + intros [_ Hr]. contradiction.
    + rewrite Hclients1. apply dict_set_elem_new.
  - rewrite (Hheap fd c (Client.init (Socket.mk fd false) (snd (accept_result env)))).
    + destruct (decide (fd ∈ r)); [contradiction|reflexivity].
    + rewrite Hclients1. apply dict_set_elem_new.
    + rewrite Hheap1. apply lookup_insert_eq.
  - rewrite Hevents. unfold iteration_events. fold r. intros Hin.
    apply elem_of_app in Hin as [Hin|Hin].
    { destruct (decide _); [|now apply elem_of_nil in Hin].
      apply list_elem_of_singleton in Hin. discriminate. }
    apply elem_of_app in Hin as [Hin|Hin].
    { destruct (decide _); [|now apply elem_of_nil in Hin].
      apply elem_of_cons in Hin as [?|Hin]; [discriminate|].
      apply elem_of_cons in Hin as [?|Hin]; [discriminate|].
      apply list_elem_of_fmap in Hin as (k' & Heq & _). discriminate. }
    apply list_elem_of_In, in_flat_map in Hin as ([k' c'] & Hit & Hin).
    apply list_elem_of_In, list_elem_of_filter in Hit as [Hr _]. simpl in Hr.
    unfold turn_events in Hin. simpl in Hin.
    destruct (_ !! c') as [o|]; [|contradiction].
    unfold client_events in Hin. destruct Hin as [Heq|Hin].
    + injection Heq as -> _. contradiction.
    + destruct (received env k'); [|contradiction].
      apply list_elem_of_In, list_elem_of_fmap in Hin as (ln & Heq & _). discriminate.
  - intros Hser. rewrite Hevents. unfold iteration_events. fold r.
    apply elem_of_app. right. apply elem_of_app. left.
    destruct (decide (SerialObj.dev (ser w) ∈ r)); [|contradiction].
    apply elem_of_cons. right. apply elem_of_cons. right.
    apply list_elem_of_fmap. exists fd. split; [reflexivity|].
    rewrite Hclients1. apply (list_elem_of_fmap_2 fst _ (fd, c)), dict_set_elem_new.
Qed.

Lemma accepted_client_is_registered_witness :
  registered clients0 world0 /\
  exists clients' w' c,
    run_iteration serversocket0 (env_of [3; 4] pong (fun _ => RecvBytes ping)) clients0 world0 =
      (Return clients', w') /\
    heap world0 !! c = None /\
    (9, c) ∈ clients' /\
    heap w' !! c = Some (Client.init (Socket.mk 9 false) ("10.0.0.9"%string, 40009)) /\
    (SockRecv 9 (RecvBytes ping) ∉ drop (length (trace world0)) (trace w')) /\
    SockSend 9 pong (SendCount 5) ∈ drop (length (trace world0)) (trace w').
Proof.
  split; [exact world0_registered|].
  destruct (accepted_client_is_registered serversocket0
              (env_of [3; 4] pong (fun _ => RecvBytes ping)) clients0 world0
              world0_registered)
    as (clients' & w' & c & Hrun & Hfresh & Hin & Hobj & Hrecv & Hsend).
  - discriminate.
  - vm_compute. apply elem_of_cons. right. apply elem_of_cons. now left.
  - vm_compute. intros Hin.
    repeat (apply elem_of_cons in Hin as [?|Hin]; [discriminate|]).
    now apply elem_of_nil in Hin.
  - exists clients', w', c. repeat split; try assumption.
    apply Hsend. vm_compute. apply elem_of_cons. now left.
Defined.

(** ** The buffer of the [Serial] object *)

Lemma serial_ready_iff (serversocket : Socket.t) (env : Env) (clients : Dict) (w : World) :
  SerialObj.dev (ser w) ∈ ready_set serversocket env clients w <->
  SerialObj.dev (ser w) ∈ select_readable env.
Proof.
  unfold ready_set, select. rewrite list_elem_of_filter. split; [tauto|].
  intros Hin. split; [|assumption].
  apply elem_of_cons. right. apply elem_of_cons. now left.
Qed.

Lemma at_end_write (b : LineBuf.t) (data : bytes) :
  at_end b ->
  at_end (LineBuf.write b data) /\
  BytesIO.getvalue (LineBuf.buf (LineBuf.write b data)) =
    BytesIO.getvalue (LineBuf.buf b) ++ data.
Proof.
  unfold at_end. destruct b as [[v p]]. simpl. intros ->.
  unfold LineBuf.write. simpl. rewrite BytesIO_write_end. simpl. now split.
Qed.

Lemma serial_buffer_after_iteration (serversocket : Socket.t) (env : Env)
    (clients : Dict) (w : World) :
  registered clients w -> dev_read env <> [] -> at_end (SerialObj.buf (ser w)) ->
  exists clients' w',
    run_iteration serversocket env clients w = (Return clients', w') /\
    registered clients' w' /\
    SerialObj.dev (ser w') = SerialObj.dev (ser w) /\
    at_end (SerialObj.buf (ser w')) /\
    serial_buffered w' = serial_buffered w ++ serial_input (SerialObj.dev (ser w)) [env].
Proof.
  intros Hreg Hdata Hend.
  destruct (run_iteration_spec serversocket env clients w Hreg Hdata)
    as (w' & Hrun & Hreg' & _ & Hdev & _).
  destruct (run_iteration_full serversocket env clients w Hreg Hdata)
    as (w2 & Hrun2 & _ & _ & _ & Hser).
  rewrite Hrun in Hrun2. injection Hrun2 as <-.
  eexists _, w'. split; [exact Hrun|]. split; [exact Hreg'|]. split; [exact Hdev|].
  unfold serial_buffered, serial_input. simpl. rewrite app_nil_r, Hser.
  destruct (decide (SerialObj.dev (ser w) ∈ ready_set serversocket env clients w)) as [Hr|Hr];
    destruct (decide (SerialObj.dev (ser w) ∈ select_readable env)) as [Hs|Hs];
    try (apply serial_ready_iff in Hr; contradiction);
    try (apply (serial_ready_iff serversocket env clients w) in Hs; contradiction).
  - simpl. now apply at_end_write.
  - rewrite app_nil_r. now split.
Qed.

(** X9.  The [Serial] object keeps in its own buffer every byte that is
    read from the device and the loop never takes any out: after any
    number of iterations the buffer holds what it held at the start
    followed by all the bytes read from the device, in order. *)
Theorem serial_buffer_keeps_all_input (serversocket : Socket.t) (envs : list Env)
    (clients : Dict) (w : World) :
  registered clients w ->
  Forall (fun env => dev_read env <> []) envs ->
  at_end (SerialObj.buf (ser w)) ->
  exists clients' w',
    run_from serversocket envs clients w = (Return clients', w') /\
    serial_buffered w' = serial_buffered w ++ serial_input (SerialObj.dev (ser w)) envs.
Proof.
  revert clients w. induction envs as [|env envs IH]; intros clients w Hreg Hdata Hend.
  - exists clients, w. split; [reflexivity|]. simpl. now rewrite app_nil_r.
  - apply Forall_cons in Hdata as [Hdata Hrest].
    destruct (serial_buffer_after_iteration serversocket env clients w Hreg Hdata Hend)
      as (clients1 & w1 & Hrun & Hreg1 & Hdev & Hend1 & Hbuf).
    destruct (IH clients1 w1 Hreg1 Hrest Hend1) as (clients' & w' & Hrun' & Hbuf').
    exists clients', w'. split.
    + simpl. now rewrite (bind_return _ _ _ _ _ Hrun).
    + rewrite Hbuf', Hbuf, Hdev. simpl. rewrite app_nil_r, <- app_assoc. reflexivity.
Qed.

Lemma serial_buffer_keeps_all_input_witness :
  registered clients0 world0 /\
  exists clients' w',
    run_from serversocket0
      [env_of [3] pong (fun _ => RecvBytes []); env_of [7] ping (fun _ => RecvBytes ping);
       env_of [3; 8] ping (fun _ => RecvBytes ping)]
      clients0 world0 = (Return clients', w') /\
    serial_buffered w' = pong ++ ping.
Proof.
  split; [exact world0_registered|].
  apply (serial_buffer_keeps_all_input serversocket0
           [env_of [3] pong (fun _ => RecvBytes []); env_of [7] ping (fun _ => RecvBytes ping);
            env_of [3; 8] ping (fun _ => RecvBytes ping)]
           clients0 world0 world0_registered).
  - repeat constructor; discriminate.
  - reflexivity.
Defined.

(** ** [Client.close] *)

(** X10.  [Client.close] closes the socket of the client.  Afterwards
    [fileno] gives [-1], [read] gives [None] and [write] returns normally,
    and neither makes a call on the socket: the [OSError] of the closed
    socket is taken as end of stream by [read] and dropped by [write]. *)
Theorem closed_client_reads_as_end_of_stream (env : Env) (c : nat) (w : World)
    (o : ClientObj.t) (data : bytes) :
  heap w !! c = Some o ->
  exists w1,
    Client.close c w = (Return tt, w1) /\
    trace w1 = trace w ++ [SockClose (Socket.fd (ClientObj.sock o))] /\
    Client.fileno c w1 = (Return (-1), w1) /\
    Client.read env c w1 = (Return None, w1) /\
    Client.write env c data w1 = (Return tt, w1).
Proof.
  intros Ho. unfold Client.close, Client.fileno, Client.read, Client.write, sock_recv, sock_send.
  prog_unfold. rewrite Ho. simpl. eexists. split; [reflexivity|]. simpl.
  rewrite lookup_insert_eq. simpl. repeat split.
Qed.

Lemma closed_client_reads_as_end_of_stream_witness :
  exists w1,
    Client.close 0%nat world0 = (Return tt, w1) /\
    trace w1 = trace world0 ++ [SockClose 7] /\
    Client.fileno 0%nat w1 = (Return (-1), w1) /\
    Client.read env_broken 0%nat w1 = (Return None, w1) /\
    Client.write env_broken 0%nat pong w1 = (Return tt, w1).
Proof.
  apply (closed_client_reads_as_end_of_stream env_broken 0%nat world0 client7 pong).
  reflexivity.
Defined.

(** * Properties of [serial_client.py] *)

(** ** [split_host_and_port] *)

Lemma split_without_separator (sep : Ascii.ascii) (s : string) :
  serial_client.count_char sep s = 0%nat -> serial_client.split sep s = [s].
Proof.
  induction s as [|ch rest IH]; simpl; [reflexivity|].
  destruct (decide (ch = sep)); [discriminate|].
  intros Hc. rewrite (IH Hc). reflexivity.
Qed.

Lemma split_at_first_separator (sep : Ascii.ascii) (a b : string) :
  serial_client.count_char sep a = 0%nat ->
  serial_client.split sep (String.append a (String sep b)) = a :: serial_client.split sep b.
Proof.
  induction a as [|ch rest IH]; simpl.
  - intros _. destruct (serial_client.split sep b) eqn:E.
    + exfalso. clear -E. induction b as [|c b IHb]; simpl in E; [discriminate|].
      destruct (serial_client.split sep b); [auto|].
      destruct (decide (c = sep)); discriminate.
    + destruct (decide (sep = sep)); [reflexivity|congruence].
  - destruct (decide (ch = sep)); [discriminate|].
    intros Hc. rewrite (IH Hc). reflexivity.
Qed.

Lemma split_length (sep : Ascii.ascii) (s : string) :
  length (serial_client.split sep s) = S (serial_client.count_char sep s).
Proof.
  induction s as [|ch rest IH]; simpl; [reflexivity|].
  destruct (serial_client.split sep rest) as [|first others]; [discriminate|].
  destruct (decide (ch = sep)); simpl in *; lia.
Qed.

(** X11 ([split_host_and_port], the target is well formed).  For a host
    and a port that hold no colon, [split_host_and_port] of the host, a
    colon and the port gives back the host, or "localhost" when the host
    is empty, and the [int] of the port; it raises [ValueError] when
    [int] does. *)
Theorem split_host_and_port_of_a_target (int : string -> option Z) (host port : string) :
  serial_client.count_char ":"%char host = 0%nat ->
  serial_client.count_char ":"%char port = 0%nat ->
  serial_client.split_host_and_port int (String.append host (String ":"%char port)) =
  match int port with
  | Some n =>
      serial_client.Return
        (if decide (host = EmptyString) then "localhost"%string else host, n)
  | None => serial_client.Raise serial_client.ValueError
  end.
Proof.
  intros Hh Hp. unfold serial_client.split_host_and_port.
  rewrite (split_at_first_separator _ _ _ Hh), (split_without_separator _ _ Hp).
  reflexivity.
Qed.

Lemma split_host_and_port_of_a_target_witness :
  serial_client.split_host_and_port decimal_int "example.org:8000"%string =
    serial_client.Return ("example.org"%string, 8000) /\
  serial_client.split_host_and_port decimal_int ":8000"%string =
    serial_client.Return ("localhost"%string, 8000) /\
  serial_client.split_host_and_port decimal_int "example.org:http"%string =
    serial_client.Raise serial_client.ValueError.
Proof.
  split; [|split].
  - exact (split_host_and_port_of_a_target decimal_int "example.org" "8000" eq_refl eq_refl).
  - exact (split_host_and_port_of_a_target decimal_int "" "8000" eq_refl eq_refl).
  - exact (split_host_and_port_of_a_target decimal_int "example.org" "http" eq_refl eq_refl).
Defined.

(** X12 ([split_host_and_port], the target is not well formed).  A string
    that does not hold exactly one colon makes [split_host_and_port] raise
    [ValueError], whatever [int] accepts. *)
Theorem split_host_and_port_needs_one_colon (int : string -> option Z) (s : string) :
  serial_client.count_char ":"%char s <> 1%nat ->
  serial_client.split_host_and_port int s = serial_client.Raise serial_client.ValueError.
Proof.
  intros Hc. unfold serial_client.split_host_and_port.
  pose proof (split_length ":"%char s) as Hl.
  destruct (serial_client.split ":"%char s) as [|a [|b [|c l]]]; try reflexivity.
  simpl in Hl. lia.
Qed.

Lemma split_host_and_port_needs_one_colon_witness :
  serial_client.split_host_and_port decimal_int "8000"%string =
    serial_client.Raise serial_client.ValueError /\
  serial_client.split_host_and_port decimal_int "::1:8000"%string =
    serial_client.Raise serial_client.ValueError.
Proof.
  split.
  - apply (split_host_and_port_needs_one_colon decimal_int "8000"). simpl. lia.
  - apply (split_host_and_port_needs_one_colon decimal_int "::1:8000"). simpl. lia.
Defined.

(** ** The interfaces *)

Section client_reads.

Import serial_client.

Context {F : Type} `{Float F}.

Lemma advance_advance (w : @World F) a1 c1 i1 (e1 : list event) a2 c2 i2 (e2 : list event) :
  advance (advance w a1 c1 i1 e1) a2 c2 i2 e2 = advance w a2 c2 i2 (e1 ++ e2).
Proof. unfold advance. simpl. rewrite <- app_assoc. reflexivity. Qed.

Lemma advance_nothing (w : @World F) :
  advance w (answers w) (clock w) (inputs w) [] = w.
Proof. unfold advance. rewrite app_nil_r. destruct w; reflexivity. Qed.

(** What a read does, for both kinds of interface: it sets the timeout and
    reads the device once. *)
Lemma read_spec (self : Interface) (size : Z) (t : F) (w : World) :
  read self size t w =
  match answers w with
  | [] => (Fault OutOfAnswers, advance w [] (clock w) (inputs w) [SetTimeout t])
  | a :: rest =>
      (if is_failure a then Raise OSError else Return (answer_data a),
       advance w rest (clock w) (inputs w) [SetTimeout t; DevRead size a])
  end.
Proof.
  destruct self; unfold read, try_except, bind, emit, dev_read, ret, raise, advance; simpl;
    destruct (answers w) as [|[]] eqn:E; simpl; rewrite <- ?app_assoc; try reflexivity.
Qed.

(** X13 ([read] of both interfaces).  A read of a [SocketInterface] does
    what a read of a [SerialInterface] does: the [socket.timeout] of
    [recv] does not leave [read], and a timeout of the device reads as no
    bytes. *)
Theorem read_is_the_same_for_both_interfaces (self other : Interface) (size : Z) (t : F)
    (w : World) :
  read self size t w = read other size t w /\
  (read self size t w).1 <> Raise SocketTimeout /\
  (forall rest : list dev_answer,
     answers w = TimedOut :: rest -> (read self size t w).1 = Return []).
Proof.
  rewrite !read_spec. split; [reflexivity|]. split.
  - destruct (answers w) as [|a rest]; [discriminate|].
    simpl. destruct (is_failure a); discriminate.
  - intros rest ->. reflexivity.
Qed.

Lemma read_available_input_loop_spec (interface : Interface) (chunks : list bytes) :
  forall (fuel : nat) (w : @World F) (a : dev_answer) (rest : list dev_answer),
    Forall (fun c => c <> []) chunks ->
    answers w = (GotBytes <$> chunks) ++ a :: rest ->
    is_failure a = false -> answer_data a = [] ->
    (length chunks < fuel)%nat ->
    read_available_input_loop fuel interface w =
    (Return tt,
     advance w rest (clock w) (inputs w)
       (flat_map (fun c => [SetTimeout one_tenth; DevRead 1024 (GotBytes c);
                            StdoutBufferWrite c]) chunks ++
        [SetTimeout one_tenth; DevRead 1024 a])).
Proof.
  induction chunks as [|c chunks IH]; intros fuel w a rest Hne Hans Hf Hd Hfuel;
    (destruct fuel as [|fuel]; [simpl in Hfuel; lia|]); simpl;
    unfold bind at 1; rewrite read_spec, Hans; csimpl.
  - rewrite Hf, Hd. reflexivity.
  - inversion Hne as [|? ? Hc Hne']; subst.
    destruct c as [|b c]; [congruence|].
    unfold bind, emit. simpl.
    rewrite (IH fuel _ a rest Hne'); [|reflexivity|assumption|assumption|simpl in Hfuel; lia].
    simpl. f_equal. unfold advance. simpl. rewrite <- !app_assoc. reflexivity.
Qed.

(** X14 ([read_available_input]).  When the device gives some chunks of
    bytes and then nothing, [read_available_input] writes these chunks to
    standard output, in their order, and returns after the first read that
    gives nothing: it reads 1024 bytes at a time with a timeout of 0.1 s
    and leaves what the device gives later. *)
Theorem read_available_input_echoes_until_nothing_comes (interface : Interface)
    (chunks : list bytes) (w : @World F) (a : dev_answer) (rest : list dev_answer) :
  Forall (fun c => c <> []) chunks ->
  answers w = (GotBytes <$> chunks) ++ a :: rest ->
  is_failure a = false -> answer_data a = [] ->
  exists evs : list event,
    read_available_input interface w =
      (Return tt, advance w rest (clock w) (inputs w) evs) /\
    stdout_writes evs = chunks /\
    dev_reads evs = ((fun c => (1024, GotBytes c)) <$> chunks) ++ [(1024, a)] /\
    dev_writes evs = [] /\ prints evs = [].
Proof.
  intros Hne Hans Hf Hd. eexists. split.
  - unfold read_available_input, bind at 1, get_world.
    apply (read_available_input_loop_spec interface chunks _ w a rest); try assumption.
    simpl. rewrite Hans, length_app, length_fmap. simpl. lia.
  - clear. induction chunks as [|c chunks IH]; [repeat split; reflexivity|].
    destruct IH as (IH1 & IH2 & IH3 & IH4).
    unfold stdout_writes, dev_reads, dev_writes, prints in *. csimpl.
    rewrite IH1, IH2, IH3, IH4. repeat split; reflexivity.
Qed.

Lemma flush_input_loop_spec (self : Interface) (chunks : list bytes) :
  forall (fuel : nat) (w : @World F) (a : dev_answer) (rest : list dev_answer),
    Forall (fun c => c <> []) chunks ->
    answers w = (GotBytes <$> chunks) ++ a :: rest ->
    is_failure a = false -> answer_data a = [] ->
    (length chunks < fuel)%nat ->
    flush_input_loop fuel self w =
    (Return tt,
     advance w rest (clock w) (inputs w)
       (flat_map (fun c => [SetTimeout one_tenth; DevRead 1024 (GotBytes c)]) chunks ++
        [SetTimeout one_tenth; DevRead 1024 a])).
Proof.
  induction chunks as [|c chunks IH]; intros fuel w a rest Hne Hans Hf Hd Hfuel;
    (destruct fuel as [|fuel]; [simpl in Hfuel; lia|]); simpl;
    unfold bind at 1; rewrite read_spec, Hans; csimpl.
  - rewrite Hf, Hd. reflexivity.
  - inversion Hne as [|? ? Hc Hne']; subst.
    destruct c as [|b c]; [congruence|].
    rewrite (IH fuel _ a rest Hne'); [|reflexivity|assumption|assumption|simpl in Hfuel; lia].
    simpl. f_equal. unfold advance. simpl. rewrite <- !app_assoc. reflexivity.
Qed.

(** X15 ([flush_input]).  On the same answers of the device,
    [flush_input] makes the reads of [read_available_input] and writes
    nothing: what the device gave is dropped. *)
Theorem flush_input_drops_what_comes (self : Interface)
    (chunks : list bytes) (w : @World F) (a : dev_answer) (rest : list dev_answer) :
  Forall (fun c => c <> []) chunks ->
  answers w = (GotBytes <$> chunks) ++ a :: rest ->
  is_failure a = false -> answer_data a = [] ->
  exists evs : list event,
    flush_input self w = (Return tt, advance w rest (clock w) (inputs w) evs) /\
    dev_reads evs = ((fun c => (1024, GotBytes c)) <$> chunks) ++ [(1024, a)] /\
    stdout_writes evs = [] /\ dev_writes evs = [] /\ prints evs = [].
Proof.
  intros Hne Hans Hf Hd. eexists. split.
  - unfold flush_input, bind at 1, get_world.
    apply (flush_input_loop_spec self chunks _ w a rest); try assumption.
    simpl. rewrite Hans, length_app, length_fmap. simpl. lia.
  - clear. induction chunks as [|c chunks IH]; [repeat split; reflexivity|].
    destruct IH as (IH1 & IH2 & IH3 & IH4).
    unfold stdout_writes, dev_reads, dev_writes, prints in *. csimpl.
    rewrite IH1, IH2, IH3, IH4. repeat split; reflexivity.
Qed.

End client_reads.

Lemma read_available_input_echoes_until_nothing_comes_witness :
  exists evs : list serial_client.event,
    serial_client.read_available_input (serial_client.SocketInterface "localhost" 8000)
      (client_world [serial_client.GotBytes [x4f; x4b]; serial_client.GotBytes [x0a];
                     serial_client.TimedOut; serial_client.GotBytes [x3e]] [] []) =
      (serial_client.Return tt,
       serial_client.advance
         (client_world [serial_client.GotBytes [x4f; x4b]; serial_client.GotBytes [x0a];
                        serial_client.TimedOut; serial_client.GotBytes [x3e]] [] [])
         [serial_client.GotBytes [x3e]] [] [] evs) /\
    serial_client.stdout_writes evs = [[x4f; x4b]; [x0a]] /\
    serial_client.dev_reads evs =
      [(1024, serial_client.GotBytes [x4f; x4b]); (1024, serial_client.GotBytes [x0a]);
       (1024, serial_client.TimedOut)] /\
    serial_client.dev_writes evs = [] /\ serial_client.prints evs = [].
Proof.
  apply (read_available_input_echoes_until_nothing_comes
           (serial_client.SocketInterface "localhost" 8000) [[x4f; x4b]; [x0a]]
           (client_world [serial_client.GotBytes [x4f; x4b]; serial_client.GotBytes [x0a];
                          serial_client.TimedOut; serial_client.GotBytes [x3e]] [] [])
           serial_client.TimedOut [serial_client.GotBytes [x3e]]).
  - repeat constructor; discriminate.
  - reflexivity.
  - reflexivity.
  - reflexivity.
Defined.

Lemma flush_input_drops_what_comes_witness :
  exists evs : list serial_client.event,
    serial_client.flush_input (serial_client.SerialInterface "/dev/ttyUSB0" 115200)
      (client_world [serial_client.GotBytes [x4f; x4b]; serial_client.GotBytes [];
                     serial_client.GotBytes [x3e]] [] []) =
      (serial_client.Return tt,
       serial_client.advance
         (client_world [serial_client.GotBytes [x4f; x4b]; serial_client.GotBytes [];
                        serial_client.GotBytes [x3e]] [] [])
         [serial_client.GotBytes [x3e]] [] [] evs) /\
    serial_client.dev_reads evs =
      [(1024, serial_client.GotBytes [x4f; x4b]); (1024, serial_client.GotBytes [])] /\
    serial_client.stdout_writes evs = [] /\
    serial_client.dev_writes evs = [] /\ serial_client.prints evs = [].
Proof.
  apply (flush_input_drops_what_comes
           (serial_client.SerialInterface "/dev/ttyUSB0" 115200) [[x4f; x4b]]
           (client_world [serial_client.GotBytes [x4f; x4b]; serial_client.GotBytes [];
                          serial_client.GotBytes [x3e]] [] [])
           (serial_client.GotBytes []) [serial_client.GotBytes [x3e]]).
  - repeat constructor; discriminate.
  - reflexivity.
  - reflexivity.
  - reflexivity.
Defined.

(** ** [wait_for_response] *)

Section client_waits.

Import serial_client.

Context {F : Type} `{Float F}.

Lemma time_time_spec (w : @World F) :
  time_time w =
  match clock w with
  | [] => (Fault OutOfAnswers, w)
  | t :: rest => (Return t, advance w (answers w) rest (inputs w) [])
  end.
Proof.
  unfold time_time, advance. destruct (clock w); [reflexivity|].
  rewrite app_nil_r. reflexivity.
Qed.

Lemma newline_after_cons (newline : bool) (data : bytes) (datas : list bytes) :
  newline_after (bool_decide (data = [NL])) datas = newline_after newline (data :: datas).
Proof.
  unfold newline_after. destruct datas as [|d datas]; [reflexivity|].
  rewrite (last_cons data). destruct (last (d :: datas)) eqn:E; [reflexivity|].
  apply last_None in E. discriminate.
Qed.

Lemma no_prompt_tail (data : bytes) (datas : list bytes) :
  no_prompt (data :: datas) -> no_prompt datas.
Proof. intros Hn i Hi. exact (Hn (S i) Hi). Qed.

(** The turns of the loop that come in time and find no prompt. *)
Lemma wait_loop_in_time (interface : Interface) (start : F) (timeout : Z)
    (given : list dev_answer) :
  forall (ts : list F) (fuel : nat) (newline : bool) (w : @World F)
      (rest : list dev_answer) (restc : list F),
    length ts = (2 * length given)%nat ->
    Forall (in_time start timeout) ts ->
    Forall (fun a => is_failure a = false) given ->
    answers w = given ++ rest ->
    clock w = ts ++ restc ->
    (newline = true -> head (answer_data <$> given) <> Some (encode PROMPT)) ->
    no_prompt (answer_data <$> given) ->
    exists evs : list event,
      wait_loop (length given + fuel) interface start timeout newline w =
        wait_loop fuel interface start timeout
          (newline_after newline (answer_data <$> given))
          (advance w rest restc (inputs w) evs) /\
      stdout_writes evs = (answer_data <$> given) /\
      dev_reads evs = ((fun a => (1, a)) <$> given) /\
      dev_writes evs = [] /\ prints evs = [].
Proof.
  induction given as [|a given IH];
    intros ts fuel newline w rest restc Hlen Htime Hfail Hans Hclock Hhead Hnp.
  - destruct ts; [|discriminate]. exists []. simpl in *.
    rewrite <- Hans, <- Hclock, advance_nothing. auto.
  - destruct ts as [|t1 [|t2 ts]]; try (simpl in Hlen; lia).
    inversion Htime as [|? ? [Ht1 _] Htime1]; subst.
    inversion Htime1 as [|? ? [_ Ht2] Htime2]; subst.
    inversion Hfail as [|? ? Hfa Hfail']; subst.
    set (w1 := advance w (given ++ rest) (ts ++ restc) (inputs w)
                 [SetTimeout (fsub (fadd start (of_int timeout)) t1); DevRead 1 a;
                  StdoutBufferWrite (answer_data a)]).
    destruct (IH ts fuel (bool_decide (answer_data a = [NL])) w1 rest restc)
      as (evs & Hrun & Hout & Hreads & Hwrites & Hprints);
      try assumption; try reflexivity.
    + simpl in Hlen. lia.
    + intros Hnl. apply bool_decide_eq_true_1 in Hnl.
      specialize (Hnp 0%nat). csimpl in Hnp. specialize (Hnp (f_equal Some Hnl)).
      destruct given; [discriminate|exact Hnp].
    + exact (no_prompt_tail _ _ Hnp).
    + exists ([SetTimeout (fsub (fadd start (of_int timeout)) t1); DevRead 1 a;
               StdoutBufferWrite (answer_data a)] ++ evs).
      split; [|unfold stdout_writes, dev_reads, dev_writes, prints in *; csimpl;
               rewrite Hout, Hreads, Hwrites, Hprints; auto].
      change (length (a :: given) + fuel)%nat with (S (length given + fuel)).
      simpl wait_loop at 1.
      unfold bind at 1. rewrite time_time_spec, Hclock. simpl.
      fold (no_time_left start timeout t1). rewrite Ht1.
      unfold bind at 1. rewrite read_spec. simpl.
      rewrite Hans. simpl. rewrite Hfa.
      assert (Hfound : bool_decide (answer_data a = encode PROMPT) && newline = false).
      { destruct newline; [|apply andb_false_r]. rewrite andb_true_r.
        apply bool_decide_eq_false_2. intros E. apply Hhead; [reflexivity|].
        csimpl. rewrite E. reflexivity. }
      rewrite Hfound.
      unfold bind at 1. rewrite time_time_spec. simpl.
      fold (deadline_passed start timeout t2). rewrite Ht2.
      unfold bind at 1, emit at 1. simpl.
      rewrite <- newline_after_cons with (newline := newline) in *.
      match goal with |- wait_loop _ _ _ _ _ ?w' = _ => replace w' with w1 end.
      * rewrite Hrun. f_equal. unfold w1, advance. simpl.
        rewrite <- !app_assoc. reflexivity.
      * unfold w1, advance. simpl. rewrite <- !app_assoc. reflexivity.
Qed.

Lemma projections_app (evs1 evs2 : list (@event F)) :
  stdout_writes (evs1 ++ evs2) = stdout_writes evs1 ++ stdout_writes evs2 /\
  dev_reads (evs1 ++ evs2) = dev_reads evs1 ++ dev_reads evs2 /\
  dev_writes (evs1 ++ evs2) = dev_writes evs1 ++ dev_writes evs2 /\
  prints (evs1 ++ evs2) = prints evs1 ++ prints evs2.
Proof.
  unfold stdout_writes, dev_reads, dev_writes, prints. rewrite !omap_app. auto.
Qed.

Lemma no_prompt_before (datas : list bytes) (data : bytes) :
  no_prompt (datas ++ [data]) ->
  no_prompt datas /\ (newline_after false datas = true -> data <> encode PROMPT).
Proof.
  intros Hnp. split.
  - intros i Hi E. apply (Hnp i).
    + apply lookup_app_l_Some. exact Hi.
    + apply lookup_app_l_Some. exact E.
  - unfold newline_after. rewrite last_lookup.
    destruct (datas !! pred (length datas)) as [d|] eqn:E; [|discriminate].
    intros Hd. apply bool_decide_eq_true_1 in Hd. subst d.
    assert (Hlen : (pred (length datas) < length datas)%nat)
      by (apply lookup_lt_is_Some; eauto).
    specialize (Hnp (pred (length datas)) (lookup_app_l_Some _ _ _ _ E)).
    replace (S (pred (length datas))) with (length datas + 0)%nat in Hnp by lia.
    rewrite lookup_app_r in Hnp by lia.
    replace (length datas + 0 - length datas)%nat with 0%nat in Hnp by lia.
    simpl in Hnp. congruence.
Qed.

(** X16 ([wait_for_response], the prompt).  When the reads give, in time,
    data in which no ">" comes directly after a newline, then a newline
    and then ">", [wait_for_response] writes the data before the ">" to
    standard output, read by read, prints nothing and returns: the ">"
    after the newline ends the wait and is not written.  A ">" that does
    not follow a newline, the first byte of the response among them, is
    written like any other byte. *)
Theorem prompt_after_newline_ends_the_wait (interface : Interface) (timeout : Z)
    (w : @World F) (start t : F) (ts restc : list F) (given rest : list dev_answer) :
  clock w = start :: ts ++ t :: restc ->
  length ts = (2 * length given)%nat ->
  Forall (in_time start timeout) ts ->
  no_time_left start timeout t = false ->
  answers w = given ++ GotBytes (encode PROMPT) :: rest ->
  Forall (fun a => is_failure a = false) given ->
  no_prompt (answer_data <$> given) ->
  last (answer_data <$> given) = Some [NL] ->
  exists evs : list event,
    wait_for_response interface timeout w =
      (Return tt, advance w rest restc (inputs w) evs) /\
    stdout_writes evs = (answer_data <$> given) /\
    dev_reads evs = ((fun a => (1, a)) <$> given) ++ [(1, GotBytes (encode PROMPT))] /\
    dev_writes evs = [] /\ prints evs = [].
Proof.
  intros Hclock Hlen Htime Ht Hans Hfail Hnp Hlast.
  set (w0 := advance w (answers w) (ts ++ t :: restc) (inputs w) []).
  destruct (wait_loop_in_time interface start timeout given ts
              (S (length given + S (length restc))) false w0
              (GotBytes (encode PROMPT) :: rest) (t :: restc))
    as (evs & Hrun & Hout & Hreads & Hwrites & Hprints);
    try assumption; try reflexivity; [discriminate|].
  exists (evs ++ [SetTimeout (fsub (fadd start (of_int timeout)) t);
                  DevRead 1 (GotBytes (encode PROMPT))]).
  destruct (projections_app evs [SetTimeout (fsub (fadd start (of_int timeout)) t);
                  DevRead 1 (GotBytes (encode PROMPT))]) as (-> & -> & -> & ->).
  rewrite Hout, Hreads, Hwrites, Hprints.
  split; [|rewrite app_nil_r; auto].
  unfold wait_for_response.
  unfold bind at 1. rewrite time_time_spec, Hclock.
  unfold bind at 1, get_world. fold w0.
  replace (S (length (clock w0)))
    with (length given + S (length given + S (length restc)))%nat
    by (simpl; rewrite length_app; simpl; lia).
  unfold bind at 1. rewrite Hrun.
  unfold newline_after. rewrite Hlast. rewrite bool_decide_eq_true_2 by reflexivity.
  simpl wait_loop.
  unfold bind at 1. rewrite time_time_spec. simpl.
  fold (no_time_left start timeout t). rewrite Ht.
  unfold bind at 1. rewrite read_spec. simpl.
  unfold ret. f_equal. unfold advance. simpl. rewrite <- !app_assoc. reflexivity.
Qed.

(** X17 ([wait_for_response], the timeout).  When the reads give, in
    time, data in which no ">" comes directly after a newline, and the
    clock then shows that no time is left, [wait_for_response] reads no
    more, has written that data to standard output, and prints the
    timeout message; it prints an empty line before it unless the last
    read gave a single newline. *)
Theorem timeout_prints_the_message (interface : Interface) (timeout : Z)
    (w : @World F) (start t : F) (ts restc : list F) (given rest : list dev_answer) :
  clock w = start :: ts ++ t :: restc ->
  length ts = (2 * length given)%nat ->
  Forall (in_time start timeout) ts ->
  no_time_left start timeout t = true ->
  answers w = given ++ rest ->
  Forall (fun a => is_failure a = false) given ->
  no_prompt (answer_data <$> given) ->
  exists evs : list event,
    wait_for_response interface timeout w =
      (Return tt, advance w rest restc (inputs w) evs) /\
    stdout_writes evs = (answer_data <$> given) /\
    dev_reads evs = ((fun a => (1, a)) <$> given) /\
    dev_writes evs = [] /\
    prints evs =
      (if newline_after false (answer_data <$> given) then [] else [EmptyString]) ++
      [timeout_message].
Proof.
  intros Hclock Hlen Htime Ht Hans Hfail Hnp.
  set (w0 := advance w (answers w) (ts ++ t :: restc) (inputs w) []).
  destruct (wait_loop_in_time interface start timeout given ts
              (S (length given + S (length restc))) false w0 rest (t :: restc))
    as (evs & Hrun & Hout & Hreads & Hwrites & Hprints);
    try assumption; try reflexivity; [discriminate|].
  set (said := (if newline_after false (answer_data <$> given)
                then [] else [Print EmptyString]) ++ [@Print F timeout_message]).
  exists (evs ++ said).
  destruct (projections_app evs said) as (-> & -> & -> & ->).
  rewrite Hout, Hreads, Hwrites, Hprints.
  split; [|unfold said; destruct (newline_after false (answer_data <$> given));
           simpl; rewrite !app_nil_r; auto].
  unfold wait_for_response.
  unfold bind at 1. rewrite time_time_spec, Hclock.
  unfold bind at 1, get_world. fold w0.
  replace (S (length (clock w0)))
    with (length given + S (length given + S (length restc)))%nat
    by (simpl; rewrite length_app; simpl; lia).
  unfold bind at 1. rewrite Hrun.
  simpl wait_loop.
  unfold bind at 1. rewrite time_time_spec. simpl.
  fold (no_time_left start timeout t). rewrite Ht.
  unfold ret at 1. unfold said.
  destruct (newline_after false (answer_data <$> given));
    unfold bind, emit, ret, advance; simpl; rewrite <- ?app_assoc; reflexivity.
Qed.

(** X18 ([wait_for_response], the byte read at the deadline).  When a
    read is started in time and the deadline has passed once it returns,
    what that read gave is taken from the device but not written to
    standard output: [wait_for_response] prints the timeout message and
    returns, and the data is lost. *)
Theorem byte_read_at_the_deadline_is_dropped (interface : Interface) (timeout : Z)
    (w : @World F) (start t1 t2 : F) (ts restc : list F)
    (given : list dev_answer) (a : dev_answer) (rest : list dev_answer) :
  clock w = start :: ts ++ t1 :: t2 :: restc ->
  length ts = (2 * length given)%nat ->
  Forall (in_time start timeout) ts ->
  no_time_left start timeout t1 = false ->
  deadline_passed start timeout t2 = true ->
  answers w = given ++ a :: rest ->
  Forall (fun a => is_failure a = false) (given ++ [a]) ->
  no_prompt (answer_data <$> given ++ [a]) ->
  exists evs : list event,
    wait_for_response interface timeout w =
      (Return tt, advance w rest restc (inputs w) evs) /\
    stdout_writes evs = (answer_data <$> given) /\
    dev_reads evs = ((fun a => (1, a)) <$> given ++ [a]) /\
    dev_writes evs = [] /\
    prints evs =
      (if newline_after false (answer_data <$> given) then [] else [EmptyString]) ++
      [timeout_message].
Proof.
  intros Hclock Hlen Htime Ht1 Ht2 Hans Hfail Hnp.
  apply Forall_app in Hfail as [Hfail Hfa].
  inversion Hfa as [|? ? Hfa' _]; subst.
  rewrite fmap_app in Hnp. apply no_prompt_before in Hnp as [Hnp Hlast].
  set (w0 := advance w (answers w) (ts ++ t1 :: t2 :: restc) (inputs w) []).
  destruct (wait_loop_in_time interface start timeout given ts
              (S (length given + S (S (length restc)))) false w0 (a :: rest)
              (t1 :: t2 :: restc))
    as (evs & Hrun & Hout & Hreads & Hwrites & Hprints);
    try assumption; try reflexivity; [discriminate|].
  set (said := (if newline_after false (answer_data <$> given)
                then [] else [Print EmptyString]) ++ [@Print F timeout_message]).
  exists (evs ++ [SetTimeout (fsub (fadd start (of_int timeout)) t1); DevRead 1 a] ++ said).
  destruct (projections_app evs
              ([SetTimeout (fsub (fadd start (of_int timeout)) t1); DevRead 1 a] ++ said))
    as (-> & -> & -> & ->).
  destruct (projections_app
              [SetTimeout (fsub (fadd start (of_int timeout)) t1); DevRead 1 a] said)
    as (-> & -> & -> & ->).
  rewrite Hout, Hreads, Hwrites, Hprints, fmap_app.
  split; [|unfold said; destruct (newline_after false (answer_data <$> given));
           simpl; rewrite ?app_nil_r; auto].
  unfold wait_for_response.
  unfold bind at 1. rewrite time_time_spec, Hclock.
  unfold bind at 1, get_world. fold w0.
  replace (S (length (clock w0)))
    with (length given + S (length given + S (S (length restc))))%nat
    by (simpl; rewrite length_app; simpl; lia).
  unfold bind at 1. rewrite Hrun.
  simpl wait_loop.
  unfold bind at 1. rewrite time_time_spec. simpl.
  fold (no_time_left start timeout t1). rewrite Ht1.
  unfold bind at 1. rewrite read_spec. simpl.
  rewrite Hfa'.
  assert (Hfound : bool_decide (answer_data a = encode PROMPT) &&
                   newline_after false (answer_data <$> given) = false).
  { destruct (newline_after false (answer_data <$> given)) eqn:E;
      [|apply andb_false_r]. rewrite andb_true_r.
    apply bool_decide_eq_false_2. apply Hlast. reflexivity. }
  rewrite Hfound.
  unfold bind at 1. rewrite time_time_spec. simpl.
  fold (deadline_passed start timeout t2). rewrite Ht2.
  unfold ret at 1. unfold said.
  destruct (newline_after false (answer_data <$> given));
    unfold bind, emit, ret, advance; simpl; rewrite <- ?app_assoc; reflexivity.
Qed.

End client_waits.

Lemma prompt_after_newline_ends_the_wait_witness :
  exists evs : list serial_client.event,
    serial_client.wait_for_response (serial_client.SocketInterface "localhost" 8000) 1
      (client_world
         [serial_client.GotBytes [x3e]; serial_client.GotBytes [x4f];
          serial_client.TimedOut; serial_client.GotBytes [x0a];
          serial_client.GotBytes [x3e]; serial_client.GotBytes [x21]]
         [0; 1; 1; 2; 2; 3; 3; 4; 4; 5; 6] []) =
      (serial_client.Return tt,
       serial_client.advance
         (client_world
            [serial_client.GotBytes [x3e]; serial_client.GotBytes [x4f];
             serial_client.TimedOut; serial_client.GotBytes [x0a];
             serial_client.GotBytes [x3e]; serial_client.GotBytes [x21]]
            [0; 1; 1; 2; 2; 3; 3; 4; 4; 5; 6] [])
         [serial_client.GotBytes [x21]] [6] [] evs) /\
    serial_client.stdout_writes evs = [[x3e]; [x4f]; []; [x0a]] /\
    serial_client.dev_reads evs =
      [(1, serial_client.GotBytes [x3e]); (1, serial_client.GotBytes [x4f]);
       (1, serial_client.TimedOut); (1, serial_client.GotBytes [x0a]);
       (1, serial_client.GotBytes [x3e])] /\
    serial_client.dev_writes evs = [] /\ serial_client.prints evs = [].
Proof.
  apply (prompt_after_newline_ends_the_wait
           (serial_client.SocketInterface "localhost" 8000) 1
           (client_world
              [serial_client.GotBytes [x3e]; serial_client.GotBytes [x4f];
               serial_client.TimedOut; serial_client.GotBytes [x0a];
               serial_client.GotBytes [x3e]; serial_client.GotBytes [x21]]
              [0; 1; 1; 2; 2; 3; 3; 4; 4; 5; 6] [])
           0 5 [1; 1; 2; 2; 3; 3; 4; 4] [6]
           [serial_client.GotBytes [x3e]; serial_client.GotBytes [x4f];
            serial_client.TimedOut; serial_client.GotBytes [x0a]]
           [serial_client.GotBytes [x21]]).
  - reflexivity.
  - reflexivity.
  - repeat constructor.
  - reflexivity.
  - reflexivity.
  - repeat constructor.
  - intros [|[|[|[|i]]]] Hi; simpl in *; discriminate.
  - reflexivity.
Defined.

Lemma timeout_prints_the_message_witness :
  exists evs : list serial_client.event,
    serial_client.wait_for_response (serial_client.SerialInterface "/dev/ttyUSB0" 115200) 1
      (client_world [serial_client.GotBytes [x4f]; serial_client.GotBytes [x4b]]
         [0; 3; 4; 6; 7; 10; 11] []) =
      (serial_client.Return tt,
       serial_client.advance
         (client_world [serial_client.GotBytes [x4f]; serial_client.GotBytes [x4b]]
            [0; 3; 4; 6; 7; 10; 11] [])
         [] [11] [] evs) /\
    serial_client.stdout_writes evs = [[x4f]; [x4b]] /\
    serial_client.dev_reads evs =
      [(1, serial_client.GotBytes [x4f]); (1, serial_client.GotBytes [x4b])] /\
    serial_client.dev_writes evs = [] /\
    serial_client.prints evs = [EmptyString; serial_client.timeout_message].
Proof.
  apply (timeout_prints_the_message
           (serial_client.SerialInterface "/dev/ttyUSB0" 115200) 1
           (client_world [serial_client.GotBytes [x4f]; serial_client.GotBytes [x4b]]
              [0; 3; 4; 6; 7; 10; 11] [])
           0 10 [3; 4; 6; 7] [11]
           [serial_client.GotBytes [x4f]; serial_client.GotBytes [x4b]] []).
  - reflexivity.
  - reflexivity.
  - repeat constructor.
  - reflexivity.
  - reflexivity.
  - repeat constructor.
  - intros [|[|i]] Hi; simpl in *; discriminate.
Defined.

Lemma byte_read_at_the_deadline_is_dropped_witness :
  exists evs : list serial_client.event,
    serial_client.wait_for_response (serial_client.SocketInterface "localhost" 8000) 1
      (client_world [serial_client.GotBytes [x4f]; serial_client.GotBytes [x0a];
                     serial_client.GotBytes [x4b]]
         [0; 3; 4; 6; 7; 9; 10] []) =
      (serial_client.Return tt,
       serial_client.advance
         (client_world [serial_client.GotBytes [x4f]; serial_client.GotBytes [x0a];
                        serial_client.GotBytes [x4b]]
            [0; 3; 4; 6; 7; 9; 10] [])
         [] [] [] evs) /\
    serial_client.stdout_writes evs = [[x4f]; [x0a]] /\
    serial_client.dev_reads evs =
      [(1, serial_client.GotBytes [x4f]); (1, serial_client.GotBytes [x0a]);
       (1, serial_client.GotBytes [x4b])] /\
    serial_client.dev_writes evs = [] /\
    serial_client.prints evs = [serial_client.timeout_message].
Proof.
  apply (byte_read_at_the_deadline_is_dropped
           (serial_client.SocketInterface "localhost" 8000) 1
           (client_world [serial_client.GotBytes [x4f]; serial_client.GotBytes [x0a];
                          serial_client.GotBytes [x4b]]
              [0; 3; 4; 6; 7; 9; 10] [])
           0 9 10 [3; 4; 6; 7] []
           [serial_client.GotBytes [x4f]; serial_client.GotBytes [x0a]]
           (serial_client.GotBytes [x4b]) []).
  - reflexivity.
  - reflexivity.
  - repeat constructor.
  - reflexivity.
  - reflexivity.
  - reflexivity.
  - repeat constructor.
  - intros [|[|[|i]]] Hi; simpl in *; discriminate.
Defined.

(** ** [interactive] and [main] *)

Section client_sessions.

Import serial_client.

Context {F : Type} `{Float F}.

Ltac quiet_split :=
  split; [try reflexivity|split; [try discriminate|split; [try discriminate|]]].

Lemma quiet_ret {A : Type} (a : A) : quiet (ret (F:=F) a).
Proof.
  intros w. simpl. quiet_split; try discriminate.
  exists []. rewrite app_nil_r. auto.
Qed.

Lemma quiet_get_world : quiet (get_world (F:=F)).
Proof.
  intros w. simpl. quiet_split; try discriminate.
  exists []. rewrite app_nil_r. auto.
Qed.

Lemma quiet_model_fault {A : Type} (f : fault) : quiet (model_fault (F:=F) (A:=A) f).
Proof.
  intros w. simpl. quiet_split; try discriminate.
  exists []. rewrite app_nil_r. auto.
Qed.


Lemma quiet_emit (ev : @event F) : dev_writes [ev] = [] -> quiet (emit ev).
Proof.
  intros Hev w. simpl. quiet_split; try discriminate.
  exists [ev]. auto.
Qed.

Lemma quiet_time_time : quiet (time_time (F:=F)).
Proof.
  intros w. rewrite time_time_spec. destruct (clock w); simpl;
    quiet_split; try discriminate; exists []; auto using app_nil_r.
Qed.

Lemma quiet_read (self : Interface) (size : Z) (t : F) : quiet (read self size t).
Proof.
  intros w. rewrite read_spec.
  destruct (answers w) as [|a rest]; simpl.
  - quiet_split; try discriminate. eexists; split; [reflexivity|reflexivity].
  - quiet_split; try (destruct (is_failure a); discriminate).
    eexists; split; [reflexivity|reflexivity].
Qed.

Lemma quiet_bind {A B : Type} (m : M (F:=F) A) (k : A -> M (F:=F) B) :
  quiet m -> (forall a, quiet (k a)) -> quiet (bind m k).
Proof.
  intros Hm Hk w. unfold bind.
  destruct (Hm w) as (Hi & He & Hki & evs & Ht & Hw).
  destruct (m w) as [[a|e|f] w1]; simpl in *.
  - destruct (Hk a w1) as (Hi' & He' & Hki' & evs' & Ht' & Hw').
    rewrite Hi', Hi, Ht', Ht. quiet_split; try assumption; try congruence.
    exists (evs ++ evs'). rewrite app_assoc. split; [reflexivity|].
    unfold dev_writes in *. rewrite omap_app, Hw, Hw'. reflexivity.
  - quiet_split; try assumption; try congruence. exists evs. auto.
  - quiet_split; try assumption; try congruence. exists evs. auto.
Qed.



Lemma quiet_wait_for_response (interface : Interface) (timeout : Z) :
  quiet (wait_for_response (F:=F) interface timeout).
Proof.
  unfold wait_for_response. apply quiet_bind; [apply quiet_time_time|]. intros start.
  apply quiet_bind; [apply quiet_get_world|]. intros w0.
  apply quiet_bind.
  - generalize (S (length (clock w0))) false. clear w0.
    intros fuel. induction fuel as [|fuel IH]; intros newline; simpl;
      [apply quiet_model_fault|].
    apply quiet_bind; [apply quiet_time_time|]. intros now.
    destruct (fle _ _); [apply quiet_ret|].
    apply quiet_bind; [apply quiet_read|]. intros data.
    destruct (_ && _); [apply quiet_ret|].
    apply quiet_bind; [apply quiet_time_time|]. intros now'.
    destruct (fle _ _); [apply quiet_ret|].
    apply quiet_bind; [apply quiet_emit; reflexivity|]. intros _. apply IH.
  - intros [[] newline]; [apply quiet_ret|].
    apply quiet_bind; [|intros _; apply quiet_emit; reflexivity].
    destruct newline; [apply quiet_ret|apply quiet_emit; reflexivity].
Qed.

Lemma write_spec (self : Interface) (data : bytes) (w : @World F) :
  write self data w =
  (if can_write w then Return tt else Raise OSError,
   advance w (answers w) (clock w) (inputs w) [DevWrite data]).
Proof.
  unfold write, bind, emit, get_world, ret, raise, advance. simpl.
  destruct (can_write w); reflexivity.
Qed.

Lemma dev_writes_app (evs1 evs2 : list (@event F)) :
  dev_writes (evs1 ++ evs2) = dev_writes evs1 ++ dev_writes evs2.
Proof. unfold dev_writes. apply omap_app. Qed.

Lemma bind_cases {A B : Type} (m : M (F:=F) A) (k : A -> M (F:=F) B) (w : @World F) :
  bind m k w =
  match m w with
  | (Return a, w1) => k a w1
  | (Raise e, w1) => (Raise e, w1)
  | (Fault f, w1) => (Fault f, w1)
  end.
Proof. reflexivity. Qed.






(** X20 ([main], the command line is refused).  With both [--socket] and
    [--serial], with neither, or with a [--socket] that is not
    "host:port", [main] prints one message and exits with status 1: it
    opens no device and reads or writes nothing. *)
Theorem main_refuses_bad_arguments (int : string -> option Z) (args : Args)
    (w : @World F) :
  bad_arguments int args ->
  exists msg : string,
    main int args w =
    (Raise (SystemExit 1), advance w (answers w) (clock w) (inputs w) [Print msg]).
Proof.
  unfold bad_arguments, main.
  intros [[Hso Hse]|[[Hso Hse]|(Hso & Hse & Hsplit)]]; rewrite Hso, Hse; simpl andb;
    cbv iota; eexists; rewrite bind_cases.
  - reflexivity.
  - unfold ret at 1. rewrite bind_cases. reflexivity.
  - unfold ret at 1. rewrite bind_cases. rewrite Hsplit. reflexivity.
Qed.

(** X21 ([main], a command is given).  When words of a command are given,
    [main] takes nothing from the keyboard and writes to the device at
    most once: the words joined by single spaces, with a newline added.
    When it returns, it has opened the device, then written the command,
    and after that only read. *)
Theorem one_shot_sends_the_command_once (int : string -> option Z) (args : Args)
    (w : @World F) :
  arg_cmd args <> [] ->
  exists evs : list event,
    trace (main int args w).2 = trace w ++ evs /\
    inputs (main int args w).2 = inputs w /\
    dev_writes evs `prefix_of` [command_bytes (arg_cmd args)] /\
    ((main int args w).1 = Return tt ->
     exists (ev : event) (evs' : list event),
       evs = ev :: DevWrite (command_bytes (arg_cmd args)) :: evs' /\
       opens [ev] = [ev] /\ dev_writes evs' = []).
Proof.
  intros Hcmd.
  destruct (main int args w) as [r w'] eqn:Erun. simpl fst. simpl snd.
  unfold main in Erun. rewrite bind_cases in Erun.
  assert (Hrest : forall (interface : Interface) (ev : event) (w1 : @World F),
            opens [ev] = [ev] ->
            w1 = advance w (answers w) (clock w) (inputs w) [ev] ->
            (match arg_cmd args with
             | [] =>
                 bind (emit (Print "No command given. Entering interactive mode. Use ctrl+c or ctrl+d to exit."))
                   (fun _ => interactive interface (arg_timeout args))
             | _ :: _ =>
                 bind (write interface
                         (encode (String.append (join " " (arg_cmd args))
                                    (String "010"%char EmptyString))))
                   (fun _ => wait_for_response interface (arg_timeout args))
             end) w1 = (r, w') ->
            exists evs : list event,
              trace w' = trace w ++ evs /\ inputs w' = inputs w /\
              dev_writes evs `prefix_of` [command_bytes (arg_cmd args)] /\
              (r = Return tt ->
               exists (ev : event) (evs' : list event),
                 evs = ev :: DevWrite (command_bytes (arg_cmd args)) :: evs' /\
                 opens [ev] = [ev] /\ dev_writes evs' = [])).
  { intros interface ev w1 Hev Hw1 Hrun.
    assert (Hdev : dev_writes [ev] = []) by (destruct ev; try discriminate; reflexivity).
    destruct (arg_cmd args) as [|word words] eqn:Hwords; [congruence|].
    rewrite <- Hwords in *. fold (command_bytes (arg_cmd args)) in Hrun.
    rewrite bind_cases, write_spec in Hrun.
    set (w2 := advance w1 _ _ _ _) in Hrun.
    destruct (can_write w1).
    - destruct (quiet_wait_for_response interface (arg_timeout args) w2)
        as (Hi & _ & _ & evs3 & Ht & Hw).
      rewrite Hrun in Hi, Ht. simpl in Hi, Ht. subst w1.
      exists (ev :: DevWrite (command_bytes (arg_cmd args)) :: evs3).
      split; [rewrite Ht; simpl; rewrite <- !app_assoc; reflexivity|].
      split; [exact Hi|].
      change (ev :: DevWrite (command_bytes (arg_cmd args)) :: evs3)
        with ([ev] ++ [DevWrite (command_bytes (arg_cmd args))] ++ evs3).
      rewrite !dev_writes_app, Hdev, Hw. simpl.
      split; [reflexivity|]. intros _. exists ev, evs3. auto.
    - inversion Hrun; subst r w' w1.
      exists [ev; DevWrite (command_bytes (arg_cmd args))].
      split; [unfold w2, advance; simpl; rewrite <- !app_assoc; reflexivity|].
      split; [reflexivity|].
      change [ev; DevWrite (command_bytes (arg_cmd args))]
        with ([ev] ++ [DevWrite (command_bytes (arg_cmd args))]).
      rewrite !dev_writes_app, Hdev. simpl.
      split; [reflexivity|]. intros E; discriminate E. }
  assert (Hstop : forall (e : exn) (evs : list event),
            dev_writes evs = [] ->
            (Raise e, advance w (answers w) (clock w) (inputs w) evs) = (r, w') ->
            exists evs : list event,
              trace w' = trace w ++ evs /\ inputs w' = inputs w /\
              dev_writes evs `prefix_of` [command_bytes (arg_cmd args)] /\
              (r = Return tt ->
               exists (ev : event) (evs' : list event),
                 evs = ev :: DevWrite (command_bytes (arg_cmd args)) :: evs' /\
                 opens [ev] = [ev] /\ dev_writes evs' = [])).
  { intros e evs Hdev Hrun. inversion Hrun; subst r w'. exists evs.
    rewrite Hdev. split; [reflexivity|]. split; [reflexivity|].
    split; [apply prefix_nil|]. intros E; discriminate E. }
  destruct (truthy_str (arg_socket args) && truthy_str (arg_serial args)).
  { apply (Hstop (SystemExit 1) [Print "Please specify either --socket or --serial, not both."]);
      [reflexivity|]. rewrite <- Erun. reflexivity. }
  unfold ret at 1 in Erun. rewrite bind_cases in Erun.
  destruct (truthy_str (arg_socket args)).
  - destruct (split_host_and_port int (default EmptyString (arg_socket args)))
      as [[host port]|e|f].
    + unfold SocketInterface_init in Erun. rewrite bind_cases in Erun.
      unfold emit at 1 in Erun. rewrite bind_cases in Erun.
      unfold get_world at 1 in Erun.
      set (w1 := mkWorld _ _ _ _ _ _ _ _) in Erun.
      destruct (can_open w1).
      * unfold ret at 1 in Erun.
        apply (Hrest (SocketInterface host port) (Connect host port) w1 eq_refl eq_refl Erun).
      * apply (Hstop OSError [Connect host port]); [reflexivity|].
        rewrite <- Erun. reflexivity.
    + destruct e;
        try (match type of Erun with context [raise ?e w] => apply (Hstop e []) end;
             [reflexivity|]; rewrite <- Erun;
             unfold raise, advance; rewrite app_nil_r; destruct w; reflexivity).
      apply (Hstop (SystemExit 1) [Print "Please specify target to connect to as '<host>:<port>', or just ':<port>' for localhost."]);
        [reflexivity|]. rewrite <- Erun. reflexivity.
    + inversion Erun; subst r w'. exists []. rewrite app_nil_r.
      split; [reflexivity|]. split; [reflexivity|].
      split; [apply prefix_nil|]. intros E; discriminate E.
  - destruct (truthy_str (arg_serial args)).
    + unfold SerialInterface_init in Erun. rewrite bind_cases in Erun.
      unfold emit at 1 in Erun. rewrite bind_cases in Erun.
      unfold get_world at 1 in Erun.
      set (w1 := mkWorld _ _ _ _ _ _ _ _) in Erun.
      destruct (can_open w1).
      * unfold ret at 1 in Erun.
        apply (Hrest (SerialInterface (default EmptyString (arg_serial args))
                        (arg_baudrate args))
                 (OpenSerial (default EmptyString (arg_serial args)) (arg_baudrate args))
                 w1 eq_refl eq_refl Erun).
      * apply (Hstop OSError [OpenSerial (default EmptyString (arg_serial args))
                                (arg_baudrate args)]); [reflexivity|].
        rewrite <- Erun. reflexivity.
    + apply (Hstop (SystemExit 1) [Print "Please specify either --socket or --serial."]);
        [reflexivity|]. rewrite <- Erun. reflexivity.
Qed.

End client_sessions.

Lemma main_refuses_bad_arguments_witness :
  (exists msg : string,
     serial_client.main decimal_int
       (serial_client.mkArgs (Some "/dev/ttyUSB0"%string) (Some "localhost:8000"%string)
          115200 1 ["AT"%string])
       (client_world [] [] []) =
     (serial_client.Raise (serial_client.SystemExit 1),
      serial_client.advance (client_world [] [] []) [] [] [] [serial_client.Print msg])) /\
  (exists msg : string,
     serial_client.main decimal_int
       (serial_client.mkArgs None (Some "localhost"%string) 115200 1 ["AT"%string])
       (client_world [] [] []) =
     (serial_client.Raise (serial_client.SystemExit 1),
      serial_client.advance (client_world [] [] []) [] [] [] [serial_client.Print msg])).
Proof.
  split.
  - apply (main_refuses_bad_arguments decimal_int
             (serial_client.mkArgs (Some "/dev/ttyUSB0"%string)
                (Some "localhost:8000"%string) 115200 1 ["AT"%string])
             (client_world [] [] [])).
    left. split; reflexivity.
  - apply (main_refuses_bad_arguments decimal_int
             (serial_client.mkArgs None (Some "localhost"%string) 115200 1 ["AT"%string])
             (client_world [] [] [])).
    right. right. split; [reflexivity|]. split; reflexivity.
Defined.

Lemma one_shot_sends_the_command_once_witness :
  exists evs : list serial_client.event,
    serial_client.trace
      (serial_client.main decimal_int
         (serial_client.mkArgs None (Some ":8000"%string) 115200 1
            ["AT"%string; "+GMR"%string])
         (client_world [serial_client.GotBytes [x0a]; serial_client.GotBytes [x3e]]
            [0; 1; 1; 2] [])).2 =
      serial_client.trace
        (client_world [serial_client.GotBytes [x0a]; serial_client.GotBytes [x3e]]
           [0; 1; 1; 2] []) ++ evs /\
    serial_client.inputs
      (serial_client.main decimal_int
         (serial_client.mkArgs None (Some ":8000"%string) 115200 1
            ["AT"%string; "+GMR"%string])
         (client_world [serial_client.GotBytes [x0a]; serial_client.GotBytes [x3e]]
            [0; 1; 1; 2] [])).2 = [] /\
    serial_client.dev_writes evs `prefix_of`
      [serial_client.command_bytes ["AT"%string; "+GMR"%string]] /\
    ((serial_client.main decimal_int
        (serial_client.mkArgs None (Some ":8000"%string) 115200 1
           ["AT"%string; "+GMR"%string])
        (client_world [serial_client.GotBytes [x0a]; serial_client.GotBytes [x3e]]
           [0; 1; 1; 2] [])).1 = serial_client.Return tt ->
     exists (ev : serial_client.event) (evs' : list serial_client.event),
       evs = ev :: serial_client.DevWrite
                     (serial_client.command_bytes ["AT"%string; "+GMR"%string]) :: evs' /\
       serial_client.opens [ev] = [ev] /\ serial_client.dev_writes evs' = []).
Proof.
  apply (one_shot_sends_the_command_once decimal_int
           (serial_client.mkArgs None (Some ":8000"%string) 115200 1
              ["AT"%string; "+GMR"%string])
           (client_world [serial_client.GotBytes [x0a]; serial_client.GotBytes [x3e]]
              [0; 1; 1; 2] [])).
  discriminate.
Defined.

(** A session of [interactive]: the user types "AT" and then ctrl+d; the
    device has nothing to say before the command, and answers it with a
    newline and the prompt.  The line is sent and [interactive] returns. *)
Example interactive_session_of_one_line :
  (serial_client.interactive (serial_client.SocketInterface "localhost" 8000) 1
     (client_world
        [serial_client.TimedOut; serial_client.GotBytes [x0a]; serial_client.GotBytes [x3e];
         serial_client.TimedOut]
        [0; 1; 1; 2] [serial_client.Line "AT"; serial_client.EndOfFile])).1 =
    serial_client.Return tt /\
  serial_client.dev_writes
    (serial_client.trace
       (serial_client.interactive (serial_client.SocketInterface "localhost" 8000) 1
          (client_world
             [serial_client.TimedOut; serial_client.GotBytes [x0a];
              serial_client.GotBytes [x3e]; serial_client.TimedOut]
             [0; 1; 1; 2] [serial_client.Line "AT"; serial_client.EndOfFile])).2) =
    [[x41; x54; x0a]] /\
  serial_client.command_bytes ["AT"%string; "+GMR"%string] =
    [x41; x54; x20; x2b; x47; x4d; x52; x0a].
Proof. vm_compute. repeat split. Qed.
